(* ===== verification/_CoqProject ===== *)
-Q . S2P
Prelude.v
Wire.v
Amount.v
Ledger.v
Handler.v
SessionSpec.v
Concurrent.v
FloatSub.v
Float64.v
FloatRoundtrip.v
FloatFormat.v
Json.v
JsonRoundtrip.v
ClientMonad.v
Client.v
ClientUI.v
