(* ===== verification/Prelude.v ===== *)
(** * A verification library for the banking session server (src/code)

    The repository is a small ATM system in Python:
    - [src/code/server.py], class [BankServer]: a TCP server (port 2540)
      that loads a dictionary [accounts] (account id -> {password,
      balance}) from [accounts.json] ([load_accounts]), rewrites the
      file after every withdrawal ([save_accounts]), appends protocol
      events to [server.log] ([log]), and serves each accepted
      connection in its own thread ([start] spawns [handle_client]).
      [handle_client] keeps one local variable, [current_user], and
      loops: receive a chunk, [strip] it, [split] it into words and
      dispatch on the first word (HELO, PASS, BALA, WDRA, BYE).
      Withdrawals run under the single [threading.Lock] [self.lock].
    - [src/code/client.py], class [ModernATMClient]: a tkinter front
      end that connects at start-up ([__init__], [connect_server]),
      shows a login form, a main screen and a withdraw panel, and whose
      button handlers ([login], [check_balance], [withdraw], [logout],
      [on_closing]) drive the server through [send_command], logging
      every exchange in a status monitor.

    ** Files and what they model

    - [Prelude] (this file): the result type [res] of a Python
      computation that may raise ([Ok] or [Raise] of a [py_exc]), its
      bind notation [let* x := e in k] in [bank_scope], Python's
      [list[i]] ([py_index]) and [dict[k]] ([py_getitem]) with their
      exceptions, the rewrite database [bank] and the tactic [res_simpl].
    - [Wire]: Python's [str.isspace], [str.strip] and [str.split()] on
      strings, and the protocol's reply constants; lemmas that the words
      of a stripped, non-empty line are a non-empty list of non-empty
      words without white space.
    - [Amount]: the numbers of the server.  The balance and the withdrawn
      amount are Python numbers; the server uses [float(s)], [>=], [-]
      and [str(x)] on them.  [Amount] is a class with exactly these
      operations, [float(s)] split into the lexer of Python's float
      syntax ([lex_float], faithful to the grammar: sign, digits with
      [_] separators, fraction, exponent, [inf]/[infinity]/[nan]) and a
      conversion of the lexed literal into the number type.
      [AmountLaws A safe] states the one arithmetic fact the balance
      invariant needs, for the amounts [safe] admits.  The program's
      instance is [Float64]'s, on Python floats; an exact instance on
      [Q] only gives the theorems stated for any number type concrete
      witnesses (the demo stores of [Handler], [Client] and
      [Concurrent]).
    - [Ledger]: the shared store: [accounts] as a [gmap string Account],
      the persisted snapshot [disk] (the mapping written by
      [json.dump]; its text is [Json]'s), whether the file system
      accepts writes, the audit [log]; [load_accounts],
      [save_accounts], [log] and the critical section of a withdrawal
      [withdraw_locked] (the body of [with self.lock:]).
    - [Handler]: one iteration of the [while True] loop of
      [handle_client] as [handle_data] on a received chunk, returning
      the new store, the new [current_user], the replies sent and
      whether the loop continues, breaks or raised; [handle_client] runs
      it over a list of received chunks (one chunk per [recv]).
    - [ClientMonad]: the effects of the client's methods as a state
      monad with two abnormal outcomes, generic in the state and the
      exceptions: a method returns ([CDone]), waits for ever in [recv]
      ([CBlocked]) or raises ([CRaise]); [ccatch] is [try ... except];
      notations [x <- m ;; k] and [m ;; k] in [client_scope]; Hoare
      triples [triple P m Q R] with their rules, and the equations used
      to run a method symbolically.
    - [Client]: every method of [ModernATMClient] in that monad, over
      one connection to one server thread ([Handler.handle_data] per
      chunk).  The state [Sys] holds the shared store and the server's
      [current_user], the socket ([conn_state] and the replies not yet
      read), and the window: the client's [current_user], the view in
      [main_container], the message boxes shown, the status monitor's
      lines (with their tags, without time stamps) and whether [root]
      is alive.  Every Tk call on a destroyed [root] raises [TclError].
      [send_command] has its [except] branch (log, error box,
      [root.destroy()], return [""]); [connect_server] and [__init__]
      start the client with a server that listens or not.  The socket
      follows Linux TCP on the loop-back interface: once the server has
      closed its end, [recv] returns [b""], the next [sendall] succeeds
      and draws a reset, and the one after raises [BrokenPipeError].
      The client's [float()] is Python's ([Float64]), and the message
      boxes of [check_balance] and [withdraw] hold the text
      [format(x, '.2f')] of [FloatFormat].  [configure_styles] is a Tk
      call that changes nothing the model keeps.
      Tactics [cstep], [cprim] and [clast] run a method step by step.
    - [ClientUI]: the buttons each view creates ([enabled]), the handler
      of each button ([handler]), one turn of [root.mainloop()]
      ([ui_step]: a handler's exception is reported and the loop goes
      on, a blocked [recv] freezes the window, a destroyed [root] ends
      it) and the program's run ([client_main]: [__init__], then the
      loop); closing the window ([ACloseWindow], enabled in every view)
      runs [on_closing]; the frame condition [keeps_frame] of the
      handlers that leave the view alone.
    - [SessionSpec]: the session state machine of the specification
      (phases UNAUTHENTICATED, PASSWORD_PENDING, AUTHENTICATED, CLOSED,
      modelled from spec.md since it is not code) as a step function
      [spec_step], and a simulation relation [R] between it and
      [Handler]'s store and [current_user].
    - [Concurrent]: [BankServer.start] and the handler threads it
      spawns.  A [World] holds the shared store, the holder of
      [self.lock], each thread's state (address, [current_user], the
      chunks it will still receive, the replies sent, its program point
      [pc]) and a ghost list of the debits in the order they were
      stored.  A withdrawal is split at every point where the
      interpreter can switch threads: the parse before the lock
      ([idle_step]), acquiring the lock, the check of line 70, the read
      and the store of [balance -= amount], [save_accounts], the reply
      and log line, and the release ([thread_step_at]).  Every other
      command is one step, an iteration of [Handler.handle_data].
      [reachable] is the reflexive-transitive closure of any thread's
      step; [run_schedule] runs a given schedule; [server_main] is the
      start of the script ([BankServer()] loading the file, then
      [start()] with the accepted connections).
    - [FloatSub]: what [balance -= amount] does on binary64, from the
      definitions of Rocq's [SpecFloat] ([SFsub], [binary_normalize],
      the shifts [shr] and [round_nearest_even]) and the axioms relating
      them to primitive floats: for [0 <= a <= b] with [a] not [inf],
      [b - a >= 0]; for [a < 0 <= b], [a <= b] and [b <= b - a]
      (rounding is bounded below by a float below the exact value).
    - [Float64]: the instance of [Amount] on Python floats: [float()]
      as the correctly rounded binary64 value of the decimal text
      ([sf_of_decimal], with the rounding functions of Rocq's
      [SpecFloat]), [>=] and [-] as the primitive float operations,
      [repr()] as the shortest round-tripping decimal in CPython's
      layout ([py_repr]); its [AmountLaws] for the amounts that are
      neither negative nor [inf].
    - [FloatRoundtrip]: the proof that [float(repr(x)) == x], through
      the digits of the text and the lexer of [Amount].
    - [FloatFormat]: [format(x, '.2f')], the amounts the client shows:
      the exact binary value of the float times 100 rounded half to
      even ([cents], [round_half_even]), its digits padded to three
      with the point before the last two ([fixed2]), the sign, and
      [nan] / [inf] / [-inf] ([format_2f]).
    - [Json]: the text of [accounts.json]: [json.dump] ([json_dump]:
      separators, [ensure_ascii] escapes, floats by [repr] and [NaN] /
      [Infinity]) and [json.load] ([json_loads]: the scanner of
      [json.decoder] with fuel, [NUMBER_RE] and [float()] of [Amount]
      for numbers), the JSON value of the accounts dictionary
      ([ledger_json]) and the dictionary read back ([accounts_of_json]).
    - [JsonRoundtrip]: the proof that [json.load] reads back what
      [json.dump] wrote, by induction on the value through its arrays
      and objects, and its consequence for the ledger file.

    ** Theorems (grouped; the manifest lists them with claim ids)

    - Wire: the command word of a non-empty stripped line exists;
      [str.split] inverts joining words with single spaces; the
      one-pass [split_go] equals the documented meaning of [str.split()]
      ([split_ref]: cut at every white-space character, drop the empty
      pieces).
    - Handler: the functional behaviour of every command on every branch
      (replies, state change, exceptions); PASS never changes the session
      state (authentication is not recorded by the code, so BALA after
      HELO alone reveals a balance); a rejected withdrawal leaves the
      store unchanged; a successful one subtracts the amount once and
      persists before replying; a failed save leaves memory and file
      apart; WDRA before HELO or with a bad argument ends the thread;
      every chunk gets at most one reply; the log only grows; account
      ids are never removed; an empty or blank chunk, and [BYE] in any
      state, end the session and no later chunk is read.  The balance
      invariant is proved for any number type with [AmountLaws]
      ([run_balances_nonneg]) and stated for floats in [Float64].
    - Client: the start-up: with a listening server [__init__] returns
      connected with the login form, without one it destroys the window
      and then raises [TclError], so the event loop never runs; a
      correct login reaches the main screen with both sides bound to
      the account; after logout the next login reads [b""] and fails
      as "invalid user name", and the one after breaks the pipe,
      destroys the window and raises [TclError]; a user name with a
      space binds another account; a wrong password leaves the client
      logged out but the server's handler bound to the account; the
      client's withdraw debits any amount the balance covers, whatever
      its sign, and confirms it with the amount to two decimals, while
      an amount [float()] rejects sends nothing; [check_balance] shows
      the stored balance to the cent (the server's [repr], the client's
      [split(":")[1]], [float()] and [format(x, '.2f')] composed);
      closing the window closes the socket without [BYE].
    - FloatFormat: for every finite float the two-decimal text reads
      back through [float()]'s lexer as a decimal within half a cent of
      the float's exact value.
    - ClientUI: a well-formedness invariant of the window, from the
      program's start through every button press: a running window
      shows the login form exactly when the client has no current user
      (proved with Hoare triples: each handler either keeps the frame
      or ends in [show_main_ui] / [show_login_ui]); and a broken
      connection closes the window at the first button that sends a
      command.
    - SessionSpec: on every command sequence the machine allows (the
      client's discipline), the code's replies are the machine's and
      the ledgers agree (a refinement by simulation).
    - Concurrent: one invariant [conc_inv], proved for every reachable
      world by induction on [reachable] with one preservation lemma per
      part (lock, what the thread in the block knows of the ledger,
      ledger replay, file system, file contents).  Its corollaries:
      mutual exclusion of the [with self.lock:] block; no lost update
      (the ledger is the replay of the stored debits in order); every
      stored debit was covered by the balance it was taken from; with
      working writes the file holds the ledger except between a debit
      and its save.  Progress: the lock holder, run alone, leaves the
      block within six steps (a rank on its program point decreases),
      and whenever a thread has work left some thread can step (no
      deadlock).  And a refinement: a thread that runs a chunk
      without interference ends exactly where [Handler.handle_data]
      ends, so all of [Handler]'s theorems describe a lone thread.
      Sessions are isolated: a step of one thread leaves every other
      thread as it was.  And an error path across restarts: a save that
      fails in the write leaves a truncated [accounts.json] from which
      [server_main] cannot start.
    - Float64: on Python floats, balances that start [>= 0] stay
      [>= 0] over any chunks in which no word parses as a negative
      number or [inf] (with [inf], [WDRA inf] on a balance [inf] leaves
      a NaN); a negative amount always passes the check and never lowers
      the balance.  Examples: the specification's scenario gets the
      listed replies ([AMNT:100.0], [AMNT:60.0]); three withdrawals of
      a third of the balance do not exhaust it (rounding); [WDRA -inf]
      then [WDRA inf] turn the balance into [inf] and then NaN.
    - FloatRoundtrip: [float(repr(x)) == x] ([py_repr_reads_back]),
      the round trip of a balance through the [AMNT:] text, used by
      the client's balance theorem.
    - JsonRoundtrip: [json.loads(json.dumps(v)) == v] for every value
      whose floats round-trip, and the persistence round trip of the
      spec: the file [save_accounts] writes for a dictionary, in any
      iteration order, loads as the same dictionary, which justifies
      [Ledger]'s snapshot [DiskData m]; every character written is
      printable ASCII ([ensure_ascii]); the text of [repr] holds only
      digits, signs, [.], [e] and the letters of [inf] and [nan].
    - Json: the scanner's fuel is adequate: a text loads exactly when
      the scanner reads a value from it with some fuel, since every
      step consumes a character ([parse_fuel]).

    ** Bounds and fuel

    [handle_client] is a structural recursion on the list of received
    chunks: the real loop runs until the peer closes, which in the model
    is the end of the list (or an empty chunk, as [recv] returns on
    close).  [Concurrent.run_solo] runs one thread with fuel; a chunk
    takes at most eight steps (receive, acquire, check, read, store,
    save, reply, release), so fuel 8 is enough, and the refinement
    theorem is stated at fuel 8.  [run_schedule] is structural on the
    schedule.  [Json.parse_value] takes fuel; [json_loads] gives it the
    length of the text plus one, and every nested value and every item
    of an array or object consumes at least one character, so this is
    enough: [Json.json_loads_fuel_adequate] proves that any parse that
    succeeds with some fuel succeeds with the fuel [json_loads] gives.  [Float64.search] tries 1 to 17 digits (binary64
    needs at most 17 significant digits to round-trip); [strip_zeros]
    runs [log2 d + 1] steps, more than the trailing zeros of [d].

    ** Not modelled

    Sockets ([bind], [listen], [accept]: the accepted connections are
    given with the chunks each will receive; a connection accepted later
    is an idle thread not scheduled before then), fairness of the
    scheduler, the timestamp of log lines (the model keeps the text
    after the timestamp), the fonts, colours and layout of the client's
    widgets and what [configure_styles] sets (pure presentation; the
    views, their buttons and the status lines are modelled), the exact
    text of a [TclError] (it is only
    written to a destroyed status monitor), a socket error other than
    the refused connection and the broken pipe (the loop-back interface
    loses no segment, and a server that never answers leaves the client
    blocked), and the file system below [open] (a write either
    completes or fails, [Ledger.fs_mode]).  [json.load] of a file that
    is no JSON or whose balances are no floats (an integer in a
    hand-written file) is outside [Json]'s ledger reading, and so is
    the recursion limit of CPython's decoder (a value nested about a
    thousand deep raises [RecursionError]; the model reads any depth).  The round trip of [repr] is proved for
    the floats whose shortest decimal the search finds within 17
    digits; that 17 digits always suffice is a fact of binary64 the
    development does not prove.  Strings are
    Rocq strings of 8-bit characters, read as Python code points below
    256.  The client's [recv(1024).decode()] is taken to give the
    server's text back: the server only sends ASCII replies; a peer
    sending invalid UTF-8 would raise [UnicodeDecodeError] in
    [send_command], which the model does not produce. *)

From stdpp Require Export base gmap strings list.

Declare Scope bank_scope.
Delimit Scope bank_scope with bank.
Open Scope bank_scope.

(** ** Python exceptions and computations that may raise *)

(** The exceptions [handle_client] can raise: [parts[1]] on a one-word
    line ([IndexError]), [self.accounts[None]] ([KeyError]),
    [float(...)] on a non-number ([ValueError]) and a failed
    [open]/[json.dump] in [save_accounts] ([OSError]). *)
Inductive py_exc := IndexError | KeyError | ValueError | OSError.

#[export] Instance py_exc_eq_dec : EqDecision py_exc.
Proof. solve_decision. Defined.

Inductive res (X : Type) : Type :=
| Ok (x : X)
| Raise (e : py_exc).
Arguments Ok {X} x.
Arguments Raise {X} e.

Definition res_bind {X Y} (m : res X) (k : X -> res Y) : res Y :=
  match m with
  | Ok x => k x
  | Raise e => Raise e
  end.

Notation "'let*' x ':=' m 'in' k" := (res_bind m (fun x => k))
  (at level 100, x name, m at level 100, k at level 200) : bank_scope.

(** [lst[i]] *)
Definition py_index {X} (l : list X) (i : nat) : res X :=
  match l !! i with
  | Some x => Ok x
  | None => Raise IndexError
  end.

(** [d[k]] on a dictionary *)
Definition py_getitem {K V} `{Countable K} (d : gmap K V) (k : K) : res V :=
  match d !! k with
  | Some v => Ok v
  | None => Raise KeyError
  end.

Create HintDb bank discriminated.
Create Rewrite HintDb bank.

Lemma res_bind_Ok {X Y} (x : X) (k : X -> res Y) : res_bind (Ok x) k = k x.
Proof. reflexivity. Qed.

Lemma res_bind_Raise {X Y} e (k : X -> res Y) : res_bind (Raise e) k = Raise e.
Proof. reflexivity. Qed.

Lemma res_bind_Ok_inv {X Y} (m : res X) (k : X -> res Y) y :
  res_bind m k = Ok y -> exists x, m = Ok x /\ k x = Ok y.
Proof. destruct m; simpl; [eauto | discriminate]. Qed.

Lemma py_index_lookup {X} (l : list X) i x : l !! i = Some x -> py_index l i = Ok x.
Proof. unfold py_index. by intros ->. Qed.

Lemma py_index_out {X} (l : list X) i : length l <= i -> py_index l i = Raise IndexError.
Proof. unfold py_index. intros Hl. by rewrite lookup_ge_None_2. Qed.

Lemma py_getitem_lookup {K V} `{Countable K} (d : gmap K V) k v :
  d !! k = Some v -> py_getitem d k = Ok v.
Proof. unfold py_getitem. by intros ->. Qed.

Lemma py_getitem_missing {K V} `{Countable K} (d : gmap K V) k :
  d !! k = None -> py_getitem d k = Raise KeyError.
Proof. unfold py_getitem. by intros ->. Qed.

#[export] Hint Rewrite @res_bind_Ok @res_bind_Raise : bank.
#[export] Hint Rewrite @py_index_lookup @py_getitem_lookup @py_getitem_missing
  using assumption : bank.
#[export] Hint Resolve py_index_lookup py_getitem_lookup py_getitem_missing : bank.

(** Rewrite the binds and the Python lookups whose outcome is known. *)
Ltac res_simpl := autorewrite with bank in *; simpl in *.

(** ** Append-only sequences *)

Lemma prefix_app_snoc {X} (l1 l2 : list X) (x : X) :
  l1 `prefix_of` l2 -> l1 `prefix_of` l2 ++ [x].
Proof. intros H. by apply prefix_app_r. Qed.

#[export] Hint Resolve prefix_app_snoc : bank.
