(* ===== verification/Wire.v ===== *)
(** * Wire: the text of the protocol

    [handle_client] (src/code/server.py, lines 37-42) turns a received
    chunk into words with [data.strip()] and [data.split()], and answers
    with fixed byte strings (lines 48-79).  This file models Python's
    white-space test, [str.strip()] and [str.split()] with no argument,
    the reply constants, and proves what the dispatcher relies on: the
    words of a line are non-empty and free of white space, a stripped
    non-empty line has a first word, and a command line built as the
    client builds it ([f"HELO {username}"], client.py line 200) splits
    back into its words exactly when the argument is one word. *)

From S2P Require Import Prelude.
From Stdlib Require Import Ascii String.

Open Scope string_scope.

(** ** White space, [strip] and [split] *)

(** [str.isspace] for a code point below 256: TAB, LF, VT, FF, CR, the
    separators 0x1C-0x1F, SPACE, NEL (0x85) and NO-BREAK SPACE (0xA0). *)
Definition is_space (c : ascii) : bool :=
  let n := nat_of_ascii c in
  (((9 <=? n) && (n <=? 13)) || ((28 <=? n) && (n <=? 32)) || (n =? 133) || (n =? 160))%nat.

Fixpoint all_space (s : string) : bool :=
  match s with
  | EmptyString => true
  | String c s' => is_space c && all_space s'
  end.

(** [s.lstrip()] *)
Fixpoint lstrip (s : string) : string :=
  match s with
  | EmptyString => EmptyString
  | String c s' => if is_space c then lstrip s' else s
  end.

(** [s.rstrip()]: a character is kept unless it is white space and only
    white space follows it. *)
Fixpoint rstrip (s : string) : string :=
  match s with
  | EmptyString => EmptyString
  | String c s' =>
      let r := rstrip s' in
      if is_space c && String.eqb r EmptyString then EmptyString else String c r
  end.

(** [s.strip()] *)
Definition strip (s : string) : string := rstrip (lstrip s).

(** Prepend a word to the word list unless it is empty. *)
Definition cons_word (w : string) (ws : list string) : list string :=
  if String.eqb w EmptyString then ws else w :: ws.

(** [split_go s = (w, ws)]: [w] is the run of non-space characters at
    the front of [s], [ws] the words after it. *)
Fixpoint split_go (s : string) : string * list string :=
  match s with
  | EmptyString => (EmptyString, [])
  | String c s' =>
      let '(w, ws) := split_go s' in
      if is_space c then (EmptyString, cons_word w ws) else (String c w, ws)
  end.

(** [s.split()]: the maximal runs of non-space characters. *)
Definition py_split (s : string) : list string :=
  let '(w, ws) := split_go s in cons_word w ws.

(** A word as [split] returns it: non-empty, no white space. *)
Definition is_word (w : string) : bool :=
  negb (String.eqb w EmptyString) &&
  forallb (fun c => negb (is_space c)) (list_ascii_of_string w).

(** [" ".join(ws)] *)
Definition join_space (ws : list string) : string := String.concat " " ws.

(** The reference meaning of [str.split()] in Python's documentation:
    cut the string at every white-space character and drop the empty
    pieces ("runs of consecutive whitespace are regarded as a single
    separator").  [cut_spaces] cuts. *)
Fixpoint cut_spaces (s : string) : list string :=
  match s with
  | EmptyString => [EmptyString]
  | String c s' =>
      let l := cut_spaces s' in
      if is_space c then EmptyString :: l
      else match l with
           | w :: ws => String c w :: ws
           | [] => [String c EmptyString]
           end
  end.

Definition split_ref (s : string) : list string :=
  List.filter (fun w => negb (String.eqb w EmptyString)) (cut_spaces s).

(** ** The replies (server.py lines 48, 51, 56, 64, 79) *)

Definition AUTH_REQUIRE : string := "500 AUTH REQUIRE".
Definition ERROR : string := "401 ERROR!".
Definition OK : string := "525 OK!".
Definition BYE : string := "BYE".
Definition AMNT (balance_str : string) : string := "AMNT:" ++ balance_str.

(** ** Lemmas *)

Lemma append_empty_l s : (EmptyString ++ s)%string = s.
Proof. reflexivity. Qed.

Lemma append_String c s1 s2 : (String c s1 ++ s2)%string = String c (s1 ++ s2).
Proof. reflexivity. Qed.

#[export] Hint Rewrite append_empty_l append_String : bank.

Lemma cons_word_empty ws : cons_word EmptyString ws = ws.
Proof. reflexivity. Qed.

Lemma cons_word_nonempty c w ws : cons_word (String c w) ws = String c w :: ws.
Proof. reflexivity. Qed.

#[export] Hint Rewrite cons_word_empty cons_word_nonempty : bank.

Lemma split_go_word s : forallb (fun c => negb (is_space c))
                          (list_ascii_of_string (split_go s).1) = true.
Proof.
  induction s as [|c s IH]; simpl; [done|].
  destruct (split_go s) as [w ws]; simpl in *.
  destruct (is_space c) eqn:Hc; simpl; [done|]. by rewrite Hc, IH.
Qed.

Lemma Forall_cons_word w ws :
  forallb (fun c => negb (is_space c)) (list_ascii_of_string w) = true ->
  Forall (fun x => is_word x = true) ws ->
  Forall (fun x => is_word x = true) (cons_word w ws).
Proof.
  intros Hw Hws. destruct w as [|c w]; [done|].
  constructor; [|done]. unfold is_word. simpl in *. by rewrite Hw.
Qed.

Lemma split_go_words s : Forall (fun x => is_word x = true) (split_go s).2.
Proof.
  induction s as [|c s IH]; simpl; [constructor|].
  pose proof (split_go_word s) as Hw.
  destruct (split_go s) as [w ws]; simpl in *.
  destruct (is_space c); simpl; [|done]. by apply Forall_cons_word.
Qed.

Lemma split_go_nil s :
  cons_word (split_go s).1 (split_go s).2 = [] <-> all_space s = true.
Proof.
  induction s as [|c s IH]; simpl; [done|].
  destruct (split_go s) as [w ws]; simpl in *.
  destruct (is_space c); simpl; [done|].
  split; [intros H; discriminate H | discriminate].
Qed.

Lemma lstrip_all_space s : all_space s = true -> lstrip s = EmptyString.
Proof.
  induction s as [|c s IH]; simpl; [done|].
  destruct (is_space c); simpl; [done|discriminate].
Qed.

Lemma rstrip_empty_iff s : rstrip s = EmptyString <-> all_space s = true.
Proof.
  induction s as [|c s IH]; simpl; [done|].
  destruct (is_space c); simpl; [rewrite <- IH|];
    destruct (String.eqb_spec (rstrip s) EmptyString); naive_solver.
Qed.

Lemma lstrip_all_space_iff s : all_space (lstrip s) = all_space s.
Proof.
  induction s as [|c s IH]; simpl; [done|].
  destruct (is_space c) eqn:Hc; simpl; [done|]. by rewrite Hc.
Qed.

Lemma split_go_lstrip s :
  cons_word (split_go (lstrip s)).1 (split_go (lstrip s)).2 =
  cons_word (split_go s).1 (split_go s).2.
Proof.
  induction s as [|c s IH]; simpl; [done|].
  destruct (is_space c) eqn:Hc; simpl; rewrite ?IH;
    destruct (split_go s) as [w ws]; by rewrite ?Hc.
Qed.

Lemma split_go_all_space s : all_space s = true -> split_go s = (EmptyString, []).
Proof.
  induction s as [|c s IH]; simpl; [done|].
  destruct (is_space c); simpl; [|discriminate].
  intros Hs. by rewrite IH.
Qed.

Lemma split_go_rstrip s : split_go (rstrip s) = split_go s.
Proof.
  induction s as [|c s IH]; simpl; [done|].
  destruct (is_space c) eqn:Hc; destruct (String.eqb_spec (rstrip s) EmptyString) as [Hr|Hr];
    simpl; rewrite ?Hc, ?IH; try done.
  apply rstrip_empty_iff in Hr. by rewrite split_go_all_space.
Qed.

(** [split_go] over a word followed by more text. *)
Lemma split_go_app_word w s :
  forallb (fun c => negb (is_space c)) (list_ascii_of_string w) = true ->
  split_go (w ++ s) = ((w ++ (split_go s).1)%string, (split_go s).2).
Proof.
  induction w as [|c w IH]; rewrite ?append_empty_l, ?append_String; simpl;
    [intros; by destruct (split_go s)|].
  intros [Hc Hw]%andb_prop. apply negb_true_iff in Hc.
  rewrite IH by done. by rewrite Hc.
Qed.

Lemma split_go_space_app s :
  split_go (" " ++ s) = (EmptyString, cons_word (split_go s).1 (split_go s).2).
Proof. rewrite append_String, append_empty_l. simpl. by destruct (split_go s). Qed.

Lemma is_word_inv w :
  is_word w = true ->
  w <> EmptyString /\ forallb (fun c => negb (is_space c)) (list_ascii_of_string w) = true.
Proof.
  unfold is_word. intros [Hne Hw]%andb_prop. split; [|done].
  intros ->. discriminate.
Qed.

Lemma cons_word_is_word w ws : is_word w = true -> cons_word w ws = w :: ws.
Proof.
  intros [Hne _]%is_word_inv. unfold cons_word.
  by destruct (String.eqb_spec w EmptyString).
Qed.

(** *** The properties of [split] the dispatcher relies on *)

(** Every element of [s.split()] is a word: non-empty, no white space. *)
Lemma py_split_words s : Forall (fun w => is_word w = true) (py_split s).
Proof.
  unfold py_split. pose proof (split_go_word s). pose proof (split_go_words s).
  destruct (split_go s) as [w ws]. by apply Forall_cons_word.
Qed.

(** [s.split()] is empty exactly when [s] is white space only. *)
Lemma py_split_nil_iff s : py_split s = [] <-> all_space s = true.
Proof.
  rewrite <- split_go_nil. unfold py_split. by destruct (split_go s).
Qed.

(** [s.strip()] is empty exactly when [s] is white space only. *)
Lemma strip_empty_iff s : strip s = EmptyString <-> all_space s = true.
Proof. unfold strip. by rewrite rstrip_empty_iff, lstrip_all_space_iff. Qed.

(** Splitting does not see the white space [strip] removes. *)
Lemma py_split_strip s : py_split (strip s) = py_split s.
Proof.
  unfold py_split, strip. rewrite split_go_rstrip.
  pose proof (split_go_lstrip s) as H.
  destruct (split_go (lstrip s)), (split_go s). exact H.
Qed.

#[export] Hint Rewrite py_split_strip : bank.

Lemma append_empty_r s : (s ++ EmptyString)%string = s.
Proof. induction s as [|c s IH]; [done|]. by rewrite append_String, IH. Qed.

(** A line that is not blank after [strip] has a first word, so
    the [parts[0]] of server.py line 42 never raises. *)
Lemma strip_nonempty_first_word s :
  strip s <> EmptyString -> exists w ws, py_split (strip s) = w :: ws.
Proof.
  intros Hs. destruct (py_split (strip s)) as [|w ws] eqn:E; [|eauto].
  rewrite py_split_strip, py_split_nil_iff, <- strip_empty_iff in E. contradiction.
Qed.

Lemma py_split_word_space w s :
  is_word w = true -> py_split (w ++ " " ++ s) = w :: py_split s.
Proof.
  intros Hw. pose proof (is_word_inv w Hw) as [_ Hsp].
  unfold py_split. rewrite split_go_app_word, split_go_space_app by done.
  simpl. rewrite append_empty_r. destruct (split_go s).
  by apply cons_word_is_word.
Qed.

(** Round trip: joining words with single spaces and splitting the
    result with [str.split()] gives the words back. *)
Lemma py_split_join ws :
  Forall (fun w => is_word w = true) ws -> py_split (join_space ws) = ws.
Proof.
  induction 1 as [|w ws Hw Hws IH]; [done|].
  destruct ws as [|w' ws'].
  - unfold join_space; simpl. unfold py_split.
    pose proof (split_go_app_word w EmptyString (proj2 (is_word_inv w Hw))) as H.
    rewrite append_empty_r in H. rewrite H. simpl.
    rewrite append_empty_r. by apply cons_word_is_word.
  - change (join_space (w :: w' :: ws')) with (w ++ " " ++ join_space (w' :: ws'))%string.
    by rewrite py_split_word_space, IH.
Qed.

(** The line [f"{cmd} {arg}"] splits into [[cmd; arg]]. *)
Lemma py_split_cmd_arg cmd arg :
  is_word cmd = true -> is_word arg = true -> py_split (cmd ++ " " ++ arg) = [cmd; arg].
Proof.
  intros Hc Ha. apply (py_split_join [cmd; arg]). by repeat constructor.
Qed.

(** [split_go] returns the first piece [cut_spaces] makes and the
    non-empty pieces after it. *)
Lemma split_go_cut s :
  exists rest, cut_spaces s = (split_go s).1 :: rest /\
    List.filter (fun w => negb (String.eqb w EmptyString)) rest = (split_go s).2.
Proof.
  induction s as [|c s (rest & Hc & Hf)]; [by exists []|].
  simpl. rewrite Hc. destruct (split_go s) as [w ws]. simpl in *.
  destruct (is_space c); simpl.
  - exists (w :: rest). split; [done|]. simpl. rewrite Hf. unfold cons_word.
    by destruct (String.eqb w EmptyString).
  - by exists rest.
Qed.

(** Equivalence with the reference: the one-pass [str.split()]
    the server applies to every line ([split_go] and [cons_word]) gives
    exactly the pieces of the line cut at every white-space character,
    with the empty pieces dropped. *)
Theorem py_split_spec s : py_split s = split_ref s.
Proof.
  unfold py_split, split_ref. destruct (split_go_cut s) as (rest & Hc & Hf).
  rewrite Hc. destruct (split_go s) as [w ws]. cbn [fst snd] in *. cbn [List.filter].
  rewrite Hf. unfold cons_word. by destruct (String.eqb w EmptyString).
Qed.
