(* ===== verification/Amount.v ===== *)
(** * Amount: the numbers of the server

    server.py treats a balance and a withdrawn amount as Python numbers
    and uses four operations on them: [float(parts[1])] (line 68),
    [balance >= amount] (line 70), [balance -= amount] (line 71) and
    [str(x)] in the reply [f"AMNT:{balance}"] (line 64) and the log
    (line 74).  This file states them as the class [Amount], with
    [float(s)] split into the lexer of Python's float syntax
    ([lex_float], which decides the [ValueError]) and the conversion of
    a lexed literal into the number type ([amt_of_literal], which may
    also refuse a literal).  [AmountLaws A safe] is the arithmetic fact
    the balance invariant uses, for the amounts [safe] admits.  The
    program's instance is [Float64.float_amount] (Python floats).  The
    instance [Q_amount] here, on exact rationals ([fractions.Fraction]
    semantics: no [inf] or [nan], [str] gives [n] or [n/d]), is not the
    program's: it gives the theorems stated for any number type concrete
    witnesses. *)

From S2P Require Import Prelude Wire.
From Stdlib Require Import Ascii String QArith.
From stdpp Require Import pretty.

(** ** Python's float syntax *)

(** A lexed number: sign, decimal mantissa and power of ten, or an
    infinity, or a NaN. *)
Inductive literal :=
| LFinite (neg : bool) (mant : N) (exp10 : Z)
| LInf (neg : bool)
| LNaN.

Definition is_digit (c : ascii) : bool :=
  let n := nat_of_ascii c in ((48 <=? n) && (n <=? 57))%nat.

Definition digit_val (c : ascii) : N := N.of_nat (nat_of_ascii c - 48).

(** [digitpart ::= digit (["_"] digit)*], read as far as it goes:
    returns the value, the number of digits and the rest. *)
Fixpoint digits_go (s : list ascii) (acc : N) (n : nat) : N * nat * list ascii :=
  match s with
  | c :: s' =>
      if is_digit c then digits_go s' (acc * 10 + digit_val c)%N (S n)
      else if Ascii.eqb c "_"%char then
        match s' with
        | d :: s'' =>
            if is_digit d then digits_go s'' (acc * 10 + digit_val d)%N (S n)
            else (acc, n, s)
        | [] => (acc, n, s)
        end
      else (acc, n, s)
  | [] => (acc, n, [])
  end.

(** An optional [digitpart]: no digit gives value 0 and count 0. *)
Definition opt_digitpart (s : list ascii) : N * nat * list ascii :=
  match s with
  | c :: _ => if is_digit c then digits_go s 0 0 else (0%N, 0%nat, s)
  | [] => (0%N, 0%nat, [])
  end.

(** [number ::= [digitpart] "." digitpart | digitpart ["."]]: the
    mantissa, the power of ten of the fraction and the rest. *)
Definition lex_number (s : list ascii) : option (N * Z * list ascii) :=
  let '(ip, ni, r1) := opt_digitpart s in
  match r1 with
  | "."%char :: r2 =>
      let '(fp, nf, r3) := opt_digitpart r2 in
      if (ni + nf =? 0)%nat then None
      else Some ((ip * 10 ^ N.of_nat nf + fp)%N, (- Z.of_nat nf)%Z, r3)
  | _ => if (ni =? 0)%nat then None else Some (ip, 0%Z, r1)
  end.

Definition lex_sign (s : list ascii) : bool * list ascii :=
  match s with
  | "+"%char :: r => (false, r)
  | "-"%char :: r => (true, r)
  | _ => (false, s)
  end.

(** [exponent ::= ("e" | "E") [sign] digitpart], which must end the
    text. *)
Definition lex_exponent (s : list ascii) : option Z :=
  match s with
  | [] => Some 0%Z
  | e :: r =>
      if Ascii.eqb e "e"%char || Ascii.eqb e "E"%char then
        let '(neg, r') := lex_sign r in
        match r' with
        | c :: _ =>
            if is_digit c then
              match digits_go r' 0 0 with
              | (v, _, []) => Some (if neg then - Z.of_N v else Z.of_N v)%Z
              | _ => None
              end
            else None
        | [] => None
        end
      else None
  end.

Definition lower (c : ascii) : ascii :=
  let n := nat_of_ascii c in
  if ((65 <=? n) && (n <=? 90))%nat then ascii_of_nat (n + 32) else c.

Definition lit_text (s : string) : list ascii := list_ascii_of_string s.

(** [float(s)]'s syntax, after the surrounding white space is stripped:
    [[sign] (floatnumber | "inf" | "infinity" | "nan")], the words
    case-insensitive.  [None] is the [ValueError]. *)
Definition lex_float (s : string) : option literal :=
  let '(neg, r) := lex_sign (list_ascii_of_string (strip s)) in
  let low := map lower r in
  if bool_decide (low = lit_text "inf") || bool_decide (low = lit_text "infinity")
  then Some (LInf neg)
  else if bool_decide (low = lit_text "nan") then Some LNaN
  else
    match lex_number r with
    | Some (m, e1, r') =>
        match lex_exponent r' with
        | Some e2 => Some (LFinite neg m (e1 + e2)%Z)
        | None => None
        end
    | None => None
    end.

(** ** The interface *)

Class Amount (A : Type) := {
  amt_ge : A -> A -> bool;                 (** [x >= y] *)
  amt_sub : A -> A -> A;                   (** [x - y] *)
  amt_of_literal : literal -> option A;    (** the value of a lexed literal *)
  amt_str : A -> string                    (** [str(x)] *)
}.

Section WithAmount.
Context {A : Type} `{Amount A}.

(** [float(s)]: [ValueError] when the text is not a number or the
    number type has no value for it. *)
Definition py_float (s : string) : res A :=
  match lex_float s with
  | Some l =>
      match amt_of_literal l with
      | Some a => Ok a
      | None => Raise ValueError
      end
  | None => Raise ValueError
  end.

Definition amt_zero : option A := amt_of_literal (LFinite false 0 0).

(** [x >= 0] *)
Definition amt_nonneg (x : A) : Prop :=
  exists z, amt_zero = Some z /\ amt_ge x z = true.

End WithAmount.

(** The arithmetic the balance invariant uses, for the amounts [safe]
    admits: subtracting such an amount, when line 70's check
    [balance >= amount] passes, leaves a non-negative balance
    non-negative.  Which amounts are safe depends on the number type:
    on exact rationals every non-negative one, on floats every one that
    is neither negative nor [inf] ([inf - inf] is a NaN). *)
Class AmountLaws (A : Type) `{Amount A} (safe : A -> Prop) :=
  amt_sub_nonneg : forall b a,
    amt_nonneg b -> safe a -> amt_ge b a = true -> amt_nonneg (amt_sub b a).

(** ** Exact rationals *)

(** The value of a finite literal: [(-1)^neg * mant * 10^exp10]. *)
Definition Q_of_finite (neg : bool) (m : N) (e : Z) : Q :=
  let zm := if neg then (- Z.of_N m)%Z else Z.of_N m in
  match e with
  | Z0 => inject_Z zm
  | Zpos p => inject_Z (zm * 10 ^ Zpos p)
  | Zneg p => Qmake zm (10 ^ p)
  end.

(** [str(Fraction(x))]: the reduced numerator, and [/den] unless the
    denominator is 1. *)
Definition Q_str (q : Q) : string :=
  let r := Qred q in
  if decide (Qden r = 1%positive) then pretty (Qnum r)
  else (pretty (Qnum r) +:+ "/" +:+ pretty (Zpos (Qden r)))%string.

#[export] Instance Q_amount : Amount Q := {
  amt_ge x y := Qle_bool y x;
  amt_sub := Qminus;
  amt_of_literal l :=
    match l with
    | LFinite neg m e => Some (Q_of_finite neg m e)
    | _ => None
    end;
  amt_str := Q_str
}.

Lemma Q_nonneg_iff (x : Q) : amt_nonneg x <-> (0 <= x)%Q.
Proof.
  unfold amt_nonneg, amt_zero. simpl. split.
  - intros (z & [= <-] & Hz). apply Qle_bool_iff in Hz. exact Hz.
  - intros Hx. eexists; split; [done|]. apply Qle_bool_iff. exact Hx.
Qed.

#[export] Instance Q_amount_laws : AmountLaws Q amt_nonneg.
Proof.
  intros b a Hb Ha Hba. apply Q_nonneg_iff. apply Q_nonneg_iff in Hb, Ha.
    apply Qle_bool_iff in Hba. simpl in *. unfold Qminus.
    apply (Qplus_le_r _ _ a). ring_simplify. exact Hba.
Qed.
