(* ===== verification/Ledger.v ===== *)
(** * Ledger: the shared store of [BankServer]

    The state every handler thread shares (server.py lines 12-31):
    the dictionary [self.accounts] (account id -> {'password',
    'balance'}), the file [accounts.json] it is loaded from and saved
    to, and the audit file [server.log].  [save_accounts] rewrites the
    whole file: [open(..., 'w')] truncates it before [json.dump] writes,
    so a write that fails half-way leaves a file that no longer parses;
    the file system's behaviour is part of the state ([fs]).
    [withdraw_locked] is the body of [with self.lock:] (lines 70-76)
    without its reply and log line, which [Handler] adds. *)

From S2P Require Import Prelude Wire Amount.
From Stdlib Require Import String.

(** The dictionary stored for one account id. *)
Record Account (A : Type) := mkAccount {
  password : string;
  balance : A
}.
Arguments mkAccount {A} _ _.
Arguments password {A} _.
Arguments balance {A} _.

(** The contents of [accounts.json]: absent, the JSON of a mapping, or
    a file truncated by a failed write. *)
Inductive disk_state (A : Type) :=
| DiskAbsent
| DiskData (m : gmap string (Account A))
| DiskCorrupt.
Arguments DiskAbsent {A}.
Arguments DiskData {A} m.
Arguments DiskCorrupt {A}.

(** What the file system does with the next [save_accounts]: the write
    succeeds, [open] fails (file unchanged), or [json.dump] fails after
    [open] truncated the file. *)
Inductive fs_mode := FsOk | FsOpenFails | FsWriteFails.

#[export] Instance fs_mode_eq_dec : EqDecision fs_mode.
Proof. solve_decision. Defined.

Record Store (A : Type) := mkStore {
  accounts : gmap string (Account A);   (** [self.accounts] *)
  disk : disk_state A;                  (** [accounts.json] *)
  fs : fs_mode;
  log_lines : list string               (** [server.log], without timestamps *)
}.
Arguments mkStore {A} _ _ _ _.
Arguments accounts {A} _.
Arguments disk {A} _.
Arguments fs {A} _.
Arguments log_lines {A} _.

Section Ledger.
Context {A : Type} `{Amount A}.

Definition set_accounts (st : Store A) (m : gmap string (Account A)) : Store A :=
  mkStore m (disk st) (fs st) (log_lines st).

Definition set_balance (acct : Account A) (b : A) : Account A :=
  mkAccount (password acct) b.

(** [load_accounts] (lines 17-22): the mapping in the file, [{}] when
    the file is absent ([FileNotFoundError]), and the [ValueError] of
    [json.load] on a truncated file. *)
Definition load_accounts (d : disk_state A) : res (gmap string (Account A)) :=
  match d with
  | DiskAbsent => Ok ∅
  | DiskData m => Ok m
  | DiskCorrupt => Raise ValueError
  end.

(** [BankServer.__init__] (lines 13-15): load the ledger; the lock is
    free and the log is what the file held (here: nothing). *)
Definition init_store (d : disk_state A) (mode : fs_mode) : res (Store A) :=
  let* m := load_accounts d in Ok (mkStore m d mode []).

(** [save_accounts] (lines 24-26). *)
Definition save_accounts (st : Store A) : res (Store A) :=
  match fs st with
  | FsOk => Ok (mkStore (accounts st) (DiskData (accounts st)) (fs st) (log_lines st))
  | FsOpenFails => Raise OSError
  | FsWriteFails => Raise OSError
  end.

(** The store after a failed [save_accounts]: the file is truncated
    when [open] succeeded. *)
Definition save_failed (st : Store A) : Store A :=
  match fs st with
  | FsWriteFails => mkStore (accounts st) DiskCorrupt (fs st) (log_lines st)
  | _ => st
  end.

(** [log] (lines 28-31): append one line. *)
Definition log (st : Store A) (msg : string) : Store A :=
  mkStore (accounts st) (disk st) (fs st) (log_lines st ++ [msg]).

(** [self.accounts[current_user]] with [current_user] [None] or an id. *)
Definition lookup_user (st : Store A) (cu : option string) : res (Account A) :=
  match cu with
  | Some u => py_getitem (accounts st) u
  | None => Raise KeyError
  end.

(** The outcome of the critical section of a withdrawal: the store, and
    whether the debit happened ([true]: reply OK, [false]: reply ERROR).
    An exception carries the store at the point it was raised, since
    [balance -= amount] has already happened when [save_accounts]
    fails. *)
Inductive wd_outcome :=
| WdDone (st : Store A) (debited : bool)
| WdRaised (st : Store A) (e : py_exc).

Definition wd_store (o : wd_outcome) : Store A :=
  match o with WdDone st _ | WdRaised st _ => st end.

(** Lines 70-72: check, debit, save. *)
Definition withdraw_locked (st : Store A) (cu : option string) (amount : A) : wd_outcome :=
  match cu with
  | None => WdRaised st KeyError
  | Some u =>
      match accounts st !! u with
      | None => WdRaised st KeyError
      | Some acct =>
          if amt_ge (balance acct) amount then
            let st1 := set_accounts st (<[u := set_balance acct (amt_sub (balance acct) amount)]>
                                          (accounts st)) in
            match save_accounts st1 with
            | Ok st2 => WdDone st2 true
            | Raise e => WdRaised (save_failed st1) e
            end
          else WdDone st false
      end
  end.

(** Every balance is at least zero ([balance >= 0]). *)
Definition balances_nonneg (m : gmap string (Account A)) : Prop :=
  map_Forall (fun _ acct => amt_nonneg (balance acct)) m.

End Ledger.

(** ** Lemmas on the critical section *)

Section LedgerLemmas.
Context {A : Type} `{Amount A}.
Implicit Types (st : Store A) (acct : Account A) (amount : A).

(** The accounts after a debit of [amount] from [u]. *)
Local Abbreviation debit st u acct amount :=
  (<[u := set_balance acct (amt_sub (balance acct) amount)]> (accounts st)).

Lemma withdraw_locked_no_user st amount :
  withdraw_locked st None amount = WdRaised st KeyError.
Proof. reflexivity. Qed.

Lemma withdraw_locked_reject st u acct amount :
  accounts st !! u = Some acct -> amt_ge (balance acct) amount = false ->
  withdraw_locked st (Some u) amount = WdDone st false.
Proof. intros Hu Hge. simpl. by rewrite Hu, Hge. Qed.

Lemma withdraw_locked_accept st u acct amount :
  accounts st !! u = Some acct -> amt_ge (balance acct) amount = true -> fs st = FsOk ->
  withdraw_locked st (Some u) amount =
    WdDone (mkStore (debit st u acct amount) (DiskData (debit st u acct amount))
              FsOk (log_lines st)) true.
Proof. intros Hu Hge Hfs. simpl. rewrite Hu, Hge. unfold save_accounts. by simpl; rewrite Hfs. Qed.

Lemma withdraw_locked_save_fails st u acct amount :
  accounts st !! u = Some acct -> amt_ge (balance acct) amount = true -> fs st <> FsOk ->
  withdraw_locked st (Some u) amount =
    WdRaised (save_failed (set_accounts st (debit st u acct amount))) OSError.
Proof.
  intros Hu Hge Hfs. simpl. rewrite Hu, Hge. unfold save_accounts. simpl.
  by destruct (fs st).
Qed.

Lemma withdraw_locked_dom st cu amount :
  dom (accounts (wd_store (withdraw_locked st cu amount))) = dom (accounts st).
Proof.
  unfold withdraw_locked. repeat case_match; simplify_eq/=; try done;
    unfold save_accounts, save_failed in *; repeat case_match; simplify_eq/=;
    rewrite dom_insert_L;
    match goal with H : accounts _ !! _ = Some _ |- _ => apply elem_of_dom_2 in H end;
    set_solver.
Qed.

Lemma withdraw_locked_log st cu amount :
  log_lines (wd_store (withdraw_locked st cu amount)) = log_lines st.
Proof.
  unfold withdraw_locked. repeat case_match; simplify_eq/=; try done;
    unfold save_accounts, save_failed in *; repeat case_match; simplify_eq/=; done.
Qed.

Lemma withdraw_locked_nonneg safe `{!AmountLaws A safe} st cu amount :
  balances_nonneg (accounts st) -> safe amount ->
  balances_nonneg (accounts (wd_store (withdraw_locked st cu amount))).
Proof.
  intros Hb Ha. unfold withdraw_locked.
  repeat case_match; simplify_eq/=; try done;
    unfold save_accounts, save_failed in *; repeat case_match; simplify_eq/=;
    apply map_Forall_insert_2; try done; apply amt_sub_nonneg; try done;
    by eapply Hb.
Qed.

End LedgerLemmas.
