(* ===== verification/Handler.v ===== *)
(** * Handler: the loop of [handle_client]

    [BankServer.handle_client] (server.py lines 33-84) serves one
    connection: [current_user] starts at [None]; each iteration receives
    a chunk, strips it, breaks on an empty chunk (the peer closed, or
    sent only white space), splits it into words and dispatches on the
    first.  [handle_data] is one iteration: from the shared store, the
    current user and the received chunk it returns the new store, the
    new current user and the replies sent, and whether the loop goes on
    ([SContinue]), breaks ([SBreak], after BYE or an empty chunk) or
    raised ([SRaise]; the [finally] closes the connection and the
    exception ends the thread).  [handle_client] runs it over the chunks
    one [recv] call each returns. *)

From S2P Require Import Prelude Wire Amount Ledger.
From Stdlib Require Import String QArith Lqa.

Open Scope string_scope.

Section Handler.
Context {A : Type} `{Amount A}.

(** [f"{current_user}"]: Python prints [None] for no user. *)
Definition py_str_user (cu : option string) : string :=
  match cu with
  | Some u => u
  | None => "None"
  end.

(** Truth of [current_user] in [if current_user]: [None] and [""] are
    false. *)
Definition py_truthy (cu : option string) : bool :=
  match cu with
  | Some u => negb (String.eqb u "")
  | None => false
  end.

(** [f"{addr} - {who}: {what}"], the text [log] writes after the
    timestamp. *)
Definition log_line (addr who what : string) : string :=
  addr ++ " - " ++ who ++ ": " ++ what.

Inductive step_out :=
| SContinue (st : Store A) (cu : option string) (sent : list string)
| SBreak (st : Store A) (sent : list string)
| SRaise (st : Store A) (sent : list string) (e : py_exc).

(** The store after an iteration, however it ended. *)
Definition step_store (r : step_out) : Store A :=
  match r with
  | SContinue st _ _ | SBreak st _ | SRaise st _ _ => st
  end.

(** The replies of an iteration. *)
Definition step_sent (r : step_out) : list string :=
  match r with
  | SContinue _ _ sent | SBreak _ sent | SRaise _ sent _ => sent
  end.

(** Lines 44-51. *)
Definition do_helo (addr : string) (st : Store A) (cu : option string)
    (parts : list string) : step_out :=
  match py_index parts 1 with
  | Raise e => SRaise st [] e
  | Ok userid =>
      if bool_decide (is_Some (accounts st !! userid)) then
        SContinue (log st (log_line addr userid "Authentication required"))
          (Some userid) [AUTH_REQUIRE]
      else SContinue st cu [ERROR]
  end.

(** Lines 53-59. *)
Definition do_pass (addr : string) (st : Store A) (cu : option string)
    (parts : list string) : step_out :=
  match py_index parts 1 with
  | Raise e => SRaise st [] e
  | Ok pw =>
      if py_truthy cu then
        match lookup_user st cu with
        | Raise e => SRaise st [] e
        | Ok acct =>
            if String.eqb (password acct) pw then
              SContinue (log st (log_line addr (py_str_user cu) "Login success")) cu [OK]
            else SContinue st cu [ERROR]
        end
      else SContinue st cu [ERROR]
  end.

(** Lines 61-65: nothing is sent when there is no current user. *)
Definition do_bala (addr : string) (st : Store A) (cu : option string) : step_out :=
  if py_truthy cu then
    match lookup_user st cu with
    | Raise e => SRaise st [] e
    | Ok acct =>
        SContinue (log st (log_line addr (py_str_user cu) "Balance checked")) cu
          [AMNT (amt_str (balance acct))]
    end
  else SContinue st cu [].

(** Lines 67-76: [float(parts[1])] before the lock, then the critical
    section, then the reply and the log line. *)
Definition do_wdra (addr : string) (st : Store A) (cu : option string)
    (parts : list string) : step_out :=
  match py_index parts 1 with
  | Raise e => SRaise st [] e
  | Ok arg =>
      match py_float arg with
      | Raise e => SRaise st [] e
      | Ok amount =>
          match withdraw_locked st cu amount with
          | WdDone st' true =>
              SContinue (log st' (log_line addr (py_str_user cu)
                                   ("Withdraw " ++ amt_str amount ++ " OK"))) cu [OK]
          | WdDone st' false => SContinue st' cu [ERROR]
          | WdRaised st' e => SRaise st' [] e
          end
      end
  end.

(** Lines 78-81. *)
Definition do_bye (addr : string) (st : Store A) (cu : option string) : step_out :=
  SBreak (log st (log_line addr (py_str_user cu) "Session ended")) [BYE].

(** Lines 42-81: dispatch on [parts[0]]; an unknown command sends
    nothing. *)
Definition dispatch (addr : string) (st : Store A) (cu : option string)
    (parts : list string) : step_out :=
  match py_index parts 0 with
  | Raise e => SRaise st [] e
  | Ok cmd =>
      if String.eqb cmd "HELO" then do_helo addr st cu parts
      else if String.eqb cmd "PASS" then do_pass addr st cu parts
      else if String.eqb cmd "BALA" then do_bala addr st cu
      else if String.eqb cmd "WDRA" then do_wdra addr st cu parts
      else if String.eqb cmd "BYE" then do_bye addr st cu
      else SContinue st cu []
  end.

(** One iteration of the loop, lines 37-81, on the received chunk. *)
Definition handle_data (addr : string) (st : Store A) (cu : option string)
    (chunk : string) : step_out :=
  let data := strip chunk in
  if String.eqb data "" then SBreak st []
  else dispatch addr st cu (py_split data).

(** How the loop ended: still waiting in [recv] with the current user,
    closed after a [break], or closed by the [finally] of an exception. *)
Inductive loop_end :=
| Waiting (cu : option string)
| Closed
| Crashed (e : py_exc).

Record run_out := mkRun {
  run_store : Store A;
  run_sent : list string;
  run_end : loop_end
}.

Definition prepend_sent (sent : list string) (r : run_out) : run_out :=
  mkRun (run_store r) (sent ++ run_sent r) (run_end r).

(** The [while True] loop over the chunks [recv] returns in turn. *)
Fixpoint run_loop (addr : string) (st : Store A) (cu : option string)
    (chunks : list string) : run_out :=
  match chunks with
  | [] => mkRun st [] (Waiting cu)
  | c :: cs =>
      match handle_data addr st cu c with
      | SContinue st' cu' sent => prepend_sent sent (run_loop addr st' cu' cs)
      | SBreak st' sent => mkRun st' sent Closed
      | SRaise st' sent e => mkRun st' sent (Crashed e)
      end
  end.

(** [handle_client(conn, addr)]: [current_user = None], then the loop. *)
Definition handle_client (addr : string) (st : Store A) (chunks : list string) : run_out :=
  run_loop addr st None chunks.

End Handler.

(** A concrete store for the examples: [alice] with password [secret]
    and balance 100, the file absent, writes succeeding. *)
Definition demo_store : Store Q :=
  mkStore {[ "alice" := mkAccount "secret" 100%Q ]} DiskAbsent FsOk [].

(** The same with a file system whose writes fail after truncating. *)
Definition demo_store_full_disk : Store Q :=
  mkStore {[ "alice" := mkAccount "secret" 100%Q ]} DiskAbsent FsWriteFails [].

(** ** Lemmas on one iteration *)

Section HandlerLemmas.
Context {A : Type} `{Amount A}.
Implicit Types (st : Store A) (cu : option string) (acct : Account A) (amount : A).

Lemma handle_data_words addr st cu c cmd rest :
  py_split c = cmd :: rest -> handle_data addr st cu c = dispatch addr st cu (cmd :: rest).
Proof.
  intros Hc. unfold handle_data. rewrite py_split_strip, Hc.
  destruct (String.eqb_spec (strip c) "") as [He|]; [|done].
  apply strip_empty_iff, py_split_nil_iff in He. congruence.
Qed.

Lemma handle_data_blank addr st cu c :
  all_space c = true -> handle_data addr st cu c = SBreak st [].
Proof.
  intros Hc. unfold handle_data. apply strip_empty_iff in Hc. by rewrite Hc.
Qed.

Lemma dispatch_HELO addr st cu rest :
  dispatch addr st cu ("HELO" :: rest) = do_helo addr st cu ("HELO" :: rest).
Proof. reflexivity. Qed.
Lemma dispatch_PASS addr st cu rest :
  dispatch addr st cu ("PASS" :: rest) = do_pass addr st cu ("PASS" :: rest).
Proof. reflexivity. Qed.
Lemma dispatch_BALA addr st cu rest :
  dispatch addr st cu ("BALA" :: rest) = do_bala addr st cu.
Proof. reflexivity. Qed.
Lemma dispatch_WDRA addr st cu rest :
  dispatch addr st cu ("WDRA" :: rest) = do_wdra addr st cu ("WDRA" :: rest).
Proof. reflexivity. Qed.
Lemma dispatch_BYE addr st cu rest :
  dispatch addr st cu ("BYE" :: rest) = do_bye addr st cu.
Proof. reflexivity. Qed.

Lemma py_truthy_word u : is_word u = true -> py_truthy (Some u) = true.
Proof.
  intros [Hne _]%is_word_inv. simpl. by destruct (String.eqb_spec u "").
Qed.

Lemma log_accounts st m : accounts (log st m) = accounts st.
Proof. reflexivity. Qed.

Lemma log_disk st m : disk (log st m) = disk st.
Proof. reflexivity. Qed.

Lemma log_log_lines st m : log_lines (log st m) = (log_lines st ++ [m])%list.
Proof. reflexivity. Qed.

Lemma log_fs st m : fs (log st m) = fs st.
Proof. reflexivity. Qed.

Lemma do_wdra_amount addr st cu arg rest amount :
  py_float arg = Ok amount ->
  do_wdra addr st cu ("WDRA" :: arg :: rest) =
    match withdraw_locked st cu amount with
    | WdDone st' true =>
        SContinue (log st' (log_line addr (py_str_user cu)
                             ("Withdraw " ++ amt_str amount ++ " OK"))) cu [OK]
    | WdDone st' false => SContinue st' cu [ERROR]
    | WdRaised st' e => SRaise st' [] e
    end.
Proof. intros Ha. unfold do_wdra. simpl. by rewrite Ha. Qed.

Lemma lookup_user_Some st u acct :
  accounts st !! u = Some acct -> lookup_user st (Some u) = Ok acct.
Proof. intros Hu. simpl. by apply py_getitem_lookup. Qed.

Lemma do_helo_known addr st cu u rest acct :
  accounts st !! u = Some acct ->
  do_helo addr st cu ("HELO" :: u :: rest) =
    SContinue (log st (log_line addr u "Authentication required")) (Some u) [AUTH_REQUIRE].
Proof. intros Hu. unfold do_helo. simpl. rewrite bool_decide_true; [done|]. rewrite Hu. eauto. Qed.

Lemma do_pass_ok addr st u p rest acct :
  is_word u = true -> accounts st !! u = Some acct -> password acct = p ->
  do_pass addr st (Some u) ("PASS" :: p :: rest) =
    SContinue (log st (log_line addr u "Login success")) (Some u) [OK].
Proof.
  intros Hw Hu Hp. unfold do_pass.
  change (py_index ("PASS" :: p :: rest) 1) with (Ok (X := string) p). cbv iota beta.
  rewrite py_truthy_word, (lookup_user_Some _ _ _ Hu), Hp, String.eqb_refl by done. done.
Qed.

Lemma do_helo_unknown addr st cu u rest :
  accounts st !! u = None ->
  do_helo addr st cu ("HELO" :: u :: rest) = SContinue st cu [ERROR].
Proof. intros Hu. unfold do_helo. simpl. rewrite bool_decide_false; [done|]. rewrite Hu. by intros []. Qed.

Lemma do_pass_wrong addr st u p rest acct :
  is_word u = true -> accounts st !! u = Some acct -> password acct <> p ->
  do_pass addr st (Some u) ("PASS" :: p :: rest) = SContinue st (Some u) [ERROR].
Proof.
  intros Hw Hu Hp. unfold do_pass.
  change (py_index ("PASS" :: p :: rest) 1) with (Ok (X := string) p). cbv iota beta.
  rewrite py_truthy_word, (lookup_user_Some _ _ _ Hu) by done.
  by destruct (String.eqb_spec (password acct) p).
Qed.

Lemma do_bala_ok addr st u acct :
  is_word u = true -> accounts st !! u = Some acct ->
  do_bala addr st (Some u) =
    SContinue (log st (log_line addr u "Balance checked")) (Some u) [AMNT (amt_str (balance acct))].
Proof.
  intros Hw Hu. unfold do_bala. by rewrite py_truthy_word, (lookup_user_Some _ _ _ Hu).
Qed.

End HandlerLemmas.

#[export] Hint Rewrite @log_accounts @log_disk @log_log_lines @log_fs : bank.
#[export] Hint Rewrite @dispatch_HELO @dispatch_PASS @dispatch_BALA @dispatch_WDRA
  @dispatch_BYE : bank.

(** Rewrite one iteration on a line whose words are known into the
    command's handler. *)
Ltac step_line H := rewrite (handle_data_words _ _ _ _ _ _ H); autorewrite with bank.

(** Unfold one iteration into its cases; in a withdrawal case, record
    what the critical section keeps of the store. *)
Ltac iteration_cases :=
  unfold handle_data, dispatch, do_helo, do_pass, do_bala, do_wdra, do_bye;
  repeat case_match; simplify_eq/=;
  try match goal with
  | Hw : withdraw_locked ?st ?cu ?a = _ |- _ =>
      pose proof (withdraw_locked_dom st cu a) as Hdom;
      pose proof (withdraw_locked_log st cu a) as Hlog;
      rewrite Hw in Hdom, Hlog; simpl in Hdom, Hlog
  end.

Section StepFacts.
Context {A : Type} `{Amount A}.
Implicit Types (st : Store A) (cu : option string).

Lemma handle_data_dom addr st cu c :
  dom (accounts (step_store (handle_data addr st cu c))) = dom (accounts st).
Proof. iteration_cases; done. Qed.

Lemma handle_data_log_prefix addr st cu c :
  log_lines st `prefix_of` log_lines (step_store (handle_data addr st cu c)).
Proof.
  iteration_cases; rewrite ?Hlog; try done; by apply prefix_app_r.
Qed.

(** Every property of the store preserved by one iteration under a
    condition on the chunk holds at the end of the loop. *)
Lemma run_loop_inv (I : Store A -> option string -> Prop) (P : string -> Prop) addr :
  (forall st cu c, I st cu -> P c ->
     match handle_data addr st cu c with
     | SContinue st' cu' _ => I st' cu'
     | r => exists cu', I (step_store r) cu'
     end) ->
  forall cs st cu, I st cu -> Forall P cs ->
  exists cu', I (run_store (run_loop addr st cu cs)) cu'.
Proof.
  intros Hstep cs. induction cs as [|c cs IH]; intros st cu Hi Hcs; simpl; [eauto|].
  inversion Hcs as [|? ? Hc Hcs']; subst.
  specialize (Hstep st cu c Hi Hc).
  destruct (handle_data addr st cu c); simpl in *; [by apply IH|done|done].
Qed.

Lemma py_index_elem {X} (l : list X) i x : py_index l i = Ok x -> x ∈ l.
Proof.
  unfold py_index. destruct (l !! i) eqn:E; intros; simplify_eq.
  by eapply list_elem_of_lookup_2.
Qed.

Lemma handle_data_nonneg safe `{!AmountLaws A safe} addr st cu c :
  balances_nonneg (accounts st) ->
  (forall w a, w ∈ py_split c -> py_float w = Ok a -> safe a) ->
  balances_nonneg (accounts (step_store (handle_data addr st cu c))).
Proof.
  intros Hb Hw. rewrite <- py_split_strip in Hw.
  iteration_cases; try done;
    match goal with
    | Hi : py_index _ 1 = Ok ?arg, Hf : py_float ?arg = Ok ?a,
      Hx : withdraw_locked ?st ?cu ?a = _ |- _ =>
        pose proof (withdraw_locked_nonneg safe st cu a Hb
                      (Hw arg a (py_index_elem _ _ _ Hi) Hf)) as Hn;
        rewrite Hx in Hn; exact Hn
    end.
Qed.

End StepFacts.

(** ** The behaviour of the commands *)

Section HandlerProps.
Context {A : Type} `{Amount A}.
Implicit Types (st : Store A) (cu : option string) (acct : Account A) (amount : A).

(** C2. PASS never changes the session: the current user, the accounts
    and the file are the same after it, whatever the password; a PASS
    without argument raises before any change.  The code keeps no
    record of a successful login. *)
Theorem pass_keeps_session addr st cu c rest :
  py_split c = "PASS" :: rest ->
  match handle_data addr st cu c with
  | SContinue st' cu' _ => cu' = cu /\ accounts st' = accounts st /\ disk st' = disk st
  | SRaise st' _ _ => st' = st
  | SBreak _ _ => False
  end.
Proof.
  intros Hc. step_line Hc. unfold do_pass. repeat case_match; simplify_eq; done.
Qed.

(** C1. Authentication bypass: on a fresh connection, [HELO u] for any
    existing account [u] followed by [BALA] returns [u]'s balance; no
    password is ever sent. *)
Theorem balance_without_password addr st u acct :
  is_word u = true -> accounts st !! u = Some acct ->
  run_sent (handle_client addr st ["HELO " ++ u; "BALA"]) =
    [AUTH_REQUIRE; AMNT (amt_str (balance acct))].
Proof.
  intros Hu Hacc. unfold handle_client. simpl.
  rewrite (handle_data_words _ _ _ _ "HELO" [u]) by (by apply (py_split_cmd_arg "HELO" u)).
  rewrite dispatch_HELO. unfold do_helo. simpl.
  rewrite bool_decide_true by (rewrite Hacc; eauto).
  rewrite (handle_data_words _ _ _ _ "BALA" []) by reflexivity.
  rewrite dispatch_BALA. unfold do_bala. rewrite py_truthy_word by done.
  by rewrite lookup_user_Some with (acct := acct).
Qed.

(** C4. A withdrawal larger than the balance ([balance >= amount] is
    false) replies [401 ERROR!] and leaves the whole store unchanged. *)
Theorem wdra_insufficient_unchanged addr st u acct c arg rest amount :
  py_split c = "WDRA" :: arg :: rest -> py_float arg = Ok amount ->
  accounts st !! u = Some acct -> amt_ge (balance acct) amount = false ->
  handle_data addr st (Some u) c = SContinue st (Some u) [ERROR].
Proof.
  intros Hc Ha Hu Hge. step_line Hc.
  by rewrite (do_wdra_amount _ _ _ _ _ _ Ha), (withdraw_locked_reject _ _ acct) by done.
Qed.

(** C3. A withdrawal the balance covers, with a working file system,
    debits exactly [balance - amount] from that one account, writes
    the debited ledger to [accounts.json] before replying [525 OK!], and
    logs one line. *)
Theorem wdra_success_persists addr st u acct c arg rest amount :
  py_split c = "WDRA" :: arg :: rest -> py_float arg = Ok amount ->
  accounts st !! u = Some acct -> amt_ge (balance acct) amount = true -> fs st = FsOk ->
  let m' := <[u := set_balance acct (amt_sub (balance acct) amount)]> (accounts st) in
  handle_data addr st (Some u) c =
    SContinue (mkStore m' (DiskData m') FsOk
                 (log_lines st ++ [log_line addr u ("Withdraw " ++ amt_str amount ++ " OK")])%list)
      (Some u) [OK].
Proof.
  intros Hc Ha Hu Hge Hfs m'. step_line Hc.
  by rewrite (do_wdra_amount _ _ _ _ _ _ Ha), (withdraw_locked_accept _ _ acct) by done.
Qed.

(** C7. A failed [save_accounts] after the debit: the in-memory balance
    is debited, no reply is sent and the connection is closed by the
    exception, and [accounts.json] does not hold the debited ledger (it
    keeps the old contents, or is truncated). *)
Theorem wdra_save_failure_diverges addr st u acct c arg rest amount :
  py_split c = "WDRA" :: arg :: rest -> py_float arg = Ok amount ->
  accounts st !! u = Some acct -> amt_ge (balance acct) amount = true -> fs st <> FsOk ->
  let m' := <[u := set_balance acct (amt_sub (balance acct) amount)]> (accounts st) in
  exists st', handle_data addr st (Some u) c = SRaise st' [] OSError /\
    accounts st' = m' /\
    disk st' = (if bool_decide (fs st = FsWriteFails) then DiskCorrupt else disk st).
Proof.
  intros Hc Ha Hu Hge Hfs m'. step_line Hc.
  rewrite (do_wdra_amount _ _ _ _ _ _ Ha), (withdraw_locked_save_fails _ _ acct) by done.
  eexists; split; [done|]. unfold save_failed; simpl.
  by destruct (fs st).
Qed.

(** C8. WDRA before any HELO: [self.accounts[None]] raises [KeyError]
    inside the lock; no reply is sent, the store is unchanged and the
    connection is closed. *)
Theorem wdra_without_user_crashes addr st c arg rest amount :
  py_split c = "WDRA" :: arg :: rest -> py_float arg = Ok amount ->
  handle_data addr st None c = SRaise st [] KeyError.
Proof. intros Hc Ha. step_line Hc. by rewrite (do_wdra_amount _ _ _ _ _ _ Ha). Qed.

(** C9. WDRA with no argument, or an argument [float] rejects, raises
    before the lock: no reply, no change, the connection is closed. *)
Theorem wdra_bad_argument_crashes addr st cu c args :
  py_split c = "WDRA" :: args ->
  match args with
  | [] => True
  | arg :: _ => exists e, py_float (A := A) arg = Raise e
  end ->
  exists e, handle_data addr st cu c = SRaise st [] e.
Proof.
  intros Hc Hargs. step_line Hc. unfold do_wdra.
  destruct args as [|arg rest]; simpl; [by eexists|].
  destruct Hargs as [e He]. rewrite He. by eexists.
Qed.

(** C16. HELO: a known id becomes the current user whatever the session
    held before (a logged-in client can switch account without a
    password); an unknown id replies [401 ERROR!] and keeps the previous
    current user. *)
Theorem helo_behaviour addr st cu c u rest :
  py_split c = "HELO" :: u :: rest ->
  handle_data addr st cu c =
    if bool_decide (is_Some (accounts st !! u)) then
      SContinue (log st (log_line addr u "Authentication required")) (Some u) [AUTH_REQUIRE]
    else SContinue st cu [ERROR].
Proof. intros Hc. by step_line Hc. Qed.

(** C17. BALA before any HELO sends nothing at all: the client, which
    waits for a reply, blocks. *)
Theorem bala_without_user_silent addr st c rest :
  py_split c = "BALA" :: rest -> handle_data addr st None c = SContinue st None [].
Proof. intros Hc. by step_line Hc. Qed.

(** C18. A line whose first word is not one of the five commands sends
    nothing and changes nothing. *)
Theorem unknown_command_silent addr st cu c cmd rest :
  py_split c = cmd :: rest -> cmd ∉ ["HELO"; "PASS"; "BALA"; "WDRA"; "BYE"] ->
  handle_data addr st cu c = SContinue st cu [].
Proof.
  intros Hc Hn. rewrite (handle_data_words _ _ _ _ _ _ Hc). unfold dispatch. simpl.
  repeat match goal with
  | |- context [String.eqb cmd ?k] =>
      destruct (String.eqb_spec cmd k); [subst; set_solver|]
  end; done.
Qed.

(** Every received chunk gets at most one reply. *)
Theorem at_most_one_reply addr st cu c :
  (List.length (step_sent (handle_data addr st cu c)) <= 1)%nat.
Proof. iteration_cases; simpl; lia. Qed.

(** C20. The audit log only grows: over any sequence of received chunks
    the log before is a prefix of the log after. *)
Theorem log_append_only addr st cs :
  log_lines st `prefix_of` log_lines (run_store (handle_client addr st cs)).
Proof.
  destruct (run_loop_inv (fun st' _ => log_lines st `prefix_of` log_lines st') (fun _ => True)
              addr) with (cs := cs) (st := st) (cu := @None string) as [cu' Hp];
    [|done|by apply Forall_true|exact Hp].
  intros st1 cu1 c Hp _. pose proof (handle_data_log_prefix addr st1 cu1 c) as Hs.
  destruct (handle_data addr st1 cu1 c); simpl in *; [by trans (log_lines st1)|..];
    exists None; by trans (log_lines st1).
Qed.

(** C21. No account is ever created or removed: the set of account ids
    is the same after any sequence of chunks. *)
Theorem account_ids_fixed addr st cs :
  dom (accounts (run_store (handle_client addr st cs))) = dom (accounts st).
Proof.
  destruct (run_loop_inv (fun st' _ => dom (accounts st') = dom (accounts st)) (fun _ => True)
              addr) with (cs := cs) (st := st) (cu := @None string) as [cu' Hp];
    [|done|by apply Forall_true|exact Hp].
  intros st1 cu1 c Hp _. pose proof (handle_data_dom addr st1 cu1 c) as Hs.
  destruct (handle_data addr st1 cu1 c); simpl in *; [congruence|..];
    exists None; congruence.
Qed.

(** Balances stay non-negative over any sequence of chunks in which
    every word that parses as a number is a [safe] amount for the
    number type's [AmountLaws]. *)
Lemma run_balances_nonneg safe `{!AmountLaws A safe} addr st cs :
  balances_nonneg (accounts st) ->
  Forall (fun c => forall w a, w ∈ py_split c -> py_float w = Ok a -> safe a) cs ->
  balances_nonneg (accounts (run_store (handle_client addr st cs))).
Proof.
  intros Hb Hcs.
  destruct (run_loop_inv (fun st' _ => balances_nonneg (accounts st'))
              (fun c => forall w a, w ∈ py_split c -> py_float w = Ok a -> safe a)
              addr) with (cs := cs) (st := st) (cu := @None string) as [cu' Hp];
    [|done|done|exact Hp].
  intros st1 cu1 c Hp Hc. pose proof (handle_data_nonneg safe addr st1 cu1 c Hp Hc) as Hs.
  destruct (handle_data addr st1 cu1 c); simpl in *; [done|..]; by exists None.
Qed.

(** C22. A chunk that is empty (the client closed its end, so [recv]
    returns [b""]) or white space only ends the session at lines 38-39:
    the loop breaks with nothing sent and the store unchanged, and no
    later chunk is read.  The [break] is what keeps [parts[0]] from
    raising [IndexError] on such a chunk. *)
Theorem blank_chunk_ends_session addr st cu c cs :
  all_space c = true -> run_loop addr st cu (c :: cs) = mkRun st [] Closed.
Proof. intros Hc. cbn [run_loop]. by rewrite handle_data_blank. Qed.

(** C23. [BYE] ends the session in every state of it (lines 78-81):
    the reply [BYE] is sent, ["Session ended"] is logged with the
    current user ([None] included), the loop breaks and the [finally]
    closes the connection; no later chunk is read. *)
Theorem bye_ends_session addr st cu c rest cs :
  py_split c = "BYE" :: rest ->
  run_loop addr st cu (c :: cs) =
    mkRun (log st (log_line addr (py_str_user cu) "Session ended")) [BYE] Closed.
Proof. intros Hc. cbn [run_loop]. step_line Hc. reflexivity. Qed.

End HandlerProps.

(** ** Witnesses on the demo store *)

Lemma pass_keeps_session_witness :
  py_split "PASS wrong" = ["PASS"; "wrong"] /\
  match handle_data "a" demo_store None "PASS wrong" with
  | SContinue st' cu' _ => cu' = None /\ accounts st' = accounts demo_store /\
                          disk st' = disk demo_store
  | SRaise st' _ _ => st' = demo_store
  | SBreak _ _ => False
  end.
Proof. split; [reflexivity|]. apply (pass_keeps_session _ _ _ _ ["wrong"]). reflexivity. Defined.

Lemma balance_without_password_witness :
  run_sent (handle_client "a" demo_store ["HELO " ++ "alice"; "BALA"]) =
    [AUTH_REQUIRE; AMNT (amt_str 100%Q)].
Proof.
  apply (balance_without_password "a" demo_store "alice" (mkAccount "secret" 100%Q));
    reflexivity.
Defined.

Lemma wdra_insufficient_unchanged_witness :
  handle_data "a" demo_store (Some "alice") "WDRA 1000" =
    SContinue demo_store (Some "alice") [ERROR].
Proof.
  apply (wdra_insufficient_unchanged _ _ _ (mkAccount "secret" 100%Q) _ "1000" [] 1000%Q);
    reflexivity.
Defined.

Lemma wdra_success_persists_witness :
  let m' := <["alice" := set_balance (mkAccount "secret" 100%Q) (amt_sub 100%Q 40%Q)]>
              (accounts demo_store) in
  handle_data "a" demo_store (Some "alice") "WDRA 40" =
    SContinue (mkStore m' (DiskData m') FsOk
                 (log_lines demo_store ++ [log_line "a" "alice" ("Withdraw " ++ amt_str 40%Q ++ " OK")])%list)
      (Some "alice") [OK].
Proof.
  apply (wdra_success_persists "a" demo_store "alice" (mkAccount "secret" 100%Q) "WDRA 40" "40" []
           40%Q); reflexivity.
Defined.

Lemma wdra_save_failure_diverges_witness :
  exists st', handle_data "a" demo_store_full_disk (Some "alice") "WDRA 40" =
                SRaise st' [] OSError /\
    accounts st' = <["alice" := set_balance (mkAccount "secret" 100%Q) (amt_sub 100%Q 40%Q)]>
                     (accounts demo_store_full_disk) /\
    disk st' = if bool_decide (fs demo_store_full_disk = FsWriteFails) then DiskCorrupt
               else disk demo_store_full_disk.
Proof.
  apply (wdra_save_failure_diverges "a" demo_store_full_disk "alice" (mkAccount "secret" 100%Q)
           "WDRA 40" "40" [] 40%Q); try reflexivity; discriminate.
Defined.

Lemma wdra_without_user_crashes_witness :
  handle_data "a" demo_store None "WDRA 40" = SRaise demo_store [] KeyError.
Proof. apply (wdra_without_user_crashes _ _ _ "40" [] 40%Q); reflexivity. Defined.

Lemma wdra_bad_argument_crashes_witness :
  exists e, handle_data "a" demo_store (Some "alice") "WDRA ten" = SRaise demo_store [] e.
Proof.
  apply (wdra_bad_argument_crashes _ _ _ _ ["ten"]); [reflexivity|].
  exists ValueError. reflexivity.
Defined.

Lemma helo_behaviour_witness :
  handle_data "a" demo_store None "HELO bob" = SContinue demo_store None [ERROR].
Proof. rewrite (helo_behaviour "a" demo_store None "HELO bob" "bob" [] eq_refl). reflexivity. Defined.

Lemma bala_without_user_silent_witness :
  handle_data "a" demo_store None "BALA" = SContinue demo_store None [].
Proof. apply (bala_without_user_silent _ _ _ []). reflexivity. Defined.

Lemma unknown_command_silent_witness :
  handle_data "a" demo_store None "bala" = SContinue demo_store None [].
Proof.
  apply (unknown_command_silent _ _ _ _ "bala" []); [reflexivity|].
  rewrite !not_elem_of_cons. repeat split; try discriminate. apply not_elem_of_nil.
Defined.

Lemma blank_chunk_ends_session_witness :
  run_loop "a" demo_store None ["  "; "BALA"] = mkRun demo_store [] Closed.
Proof. apply blank_chunk_ends_session. reflexivity. Defined.

Lemma bye_ends_session_witness :
  run_loop "a" demo_store (Some "alice") ["BYE"; "BALA"] =
    mkRun (log demo_store (log_line "a" (py_str_user (Some "alice")) "Session ended")) [BYE] Closed.
Proof. apply (bye_ends_session _ _ _ _ []). reflexivity. Defined.
