(* ===== verification/SessionSpec.v ===== *)
(** * SessionSpec: the session machine of the specification

    The specification (spec.md, section 4.2 and the table of 4.3)
    describes a session as a state machine: UNAUTHENTICATED, then
    PASSWORD_PENDING after a known account id, AUTHENTICATED after the
    right password, CLOSED after logout; balance and withdraw only when
    AUTHENTICATED, withdraw only for [amount > 0] and a covering
    balance, and every command out of order rejected with an error.
    [spec_step] is that machine over the ledger mapping; its commands
    ([scmd]) are the protocol's, and [wire_of] is the line the client
    sends for each ([client.py] builds them with [f"HELO {username}"]
    and the like).  [spec_step] is modelled from the specification, not
    from src/.

    [R] relates a state of [Handler] (store, [current_user]) to a state
    of the machine: same accounts; no user when UNAUTHENTICATED; the
    bound id when PASSWORD_PENDING or AUTHENTICATED.  The simulation
    theorem shows that on the commands the specification allows in each
    phase, with one-word arguments, positive amounts and a working file
    system (what [ModernATMClient] sends after a successful login), the
    code answers exactly what the machine answers and stays related.
    The commands outside that set are where the code departs from the
    machine ([Handler]'s findings). *)

From S2P Require Import Prelude Wire Amount Ledger Handler.
From Stdlib Require Import String QArith.

Open Scope string_scope.

(** The commands of section 4.3. *)
Inductive scmd :=
| CIdentify (u : string)
| CAuthenticate (p : string)
| CBalance
| CWithdraw (arg : string)
| CLogout.

(** The phases of section 4.2 with the bound account id. *)
Inductive phase :=
| Unauthenticated
| PasswordPending (u : string)
| Authenticated (u : string)
| ClosedPhase.

Section Spec.
Context {A : Type} `{Amount A}.

Inductive sreply :=
| RAuthRequire
| RError
| ROk
| RAmount (a : A)
| RBye
| RReject.     (** out of order: "a defined error response" *)

(** [amount > 0], as [amount >= 0 and not 0 >= amount]. *)
Definition amt_positive (a : A) : bool :=
  match amt_zero with
  | Some z => amt_ge a z && negb (amt_ge z a)
  | None => false
  end.

(** The line the client sends for a command. *)
Definition wire_of (c : scmd) : string :=
  match c with
  | CIdentify u => "HELO " ++ u
  | CAuthenticate p => "PASS " ++ p
  | CBalance => "BALA"
  | CWithdraw arg => "WDRA " ++ arg
  | CLogout => "BYE"
  end.

(** The words the server reads from that line. *)
Definition words_of (c : scmd) : list string :=
  match c with
  | CIdentify u => ["HELO"; u]
  | CAuthenticate p => ["PASS"; p]
  | CBalance => ["BALA"]
  | CWithdraw arg => ["WDRA"; arg]
  | CLogout => ["BYE"]
  end.

(** The reply text of section 6 for a reply of the machine; a rejection
    has no fixed text. *)
Definition reply_text (r : sreply) : option string :=
  match r with
  | RAuthRequire => Some AUTH_REQUIRE
  | RError => Some ERROR
  | ROk => Some OK
  | RAmount a => Some (AMNT (amt_str a))
  | RBye => Some BYE
  | RReject => None
  end.

(** One transition of the machine on the ledger [m]. *)
Definition spec_step (m : gmap string (Account A)) (ph : phase) (c : scmd)
    : phase * gmap string (Account A) * sreply :=
  match ph, c with
  | ClosedPhase, _ => (ClosedPhase, m, RReject)
  | _, CLogout => (ClosedPhase, m, RBye)
  | Unauthenticated, CIdentify u =>
      if bool_decide (is_Some (m !! u)) then (PasswordPending u, m, RAuthRequire)
      else (Unauthenticated, m, RError)
  | PasswordPending u, CAuthenticate p =>
      match m !! u with
      | Some acct =>
          if String.eqb (password acct) p then (Authenticated u, m, ROk)
          else (PasswordPending u, m, RError)
      | None => (ph, m, RError)
      end
  | Authenticated u, CBalance =>
      match m !! u with
      | Some acct => (ph, m, RAmount (balance acct))
      | None => (ph, m, RReject)
      end
  | Authenticated u, CWithdraw arg =>
      match py_float arg, m !! u with
      | Ok a, Some acct =>
          if amt_positive a && amt_ge (balance acct) a then
            (ph, <[u := set_balance acct (amt_sub (balance acct) a)]> m, ROk)
          else (ph, m, RError)
      | _, _ => (ph, m, RReject)
      end
  | _, _ => (ph, m, RReject)
  end.

(** The machine over a sequence of commands: the final phase and ledger
    and the replies. *)
Fixpoint spec_run (m : gmap string (Account A)) (ph : phase) (cs : list scmd)
    : phase * gmap string (Account A) * list sreply :=
  match cs with
  | [] => (ph, m, [])
  | c :: cs' =>
      let '(ph1, m1, r) := spec_step m ph c in
      let '(ph2, m2, rs) := spec_run m1 ph1 cs' in
      (ph2, m2, r :: rs)
  end.

(** The code state [(st, cu)] implements the phase [ph] over [m]. *)
Definition R (st : Store A) (cu : option string) (ph : phase) (m : gmap string (Account A))
    : Prop :=
  accounts st = m /\ disk st = DiskData m /\ fs st = FsOk /\
  match ph with
  | Unauthenticated => cu = None
  | PasswordPending u | Authenticated u =>
      cu = Some u /\ is_word u = true /\ is_Some (m !! u)
  | ClosedPhase => True
  end.

(** The commands the specification allows in a phase, in the form the
    client sends them: one-word arguments, and a positive amount. *)
Definition allowed (ph : phase) (c : scmd) : Prop :=
  match ph, c with
  | ClosedPhase, _ => False
  | _, CLogout => True
  | Unauthenticated, CIdentify u => is_word u = true
  | PasswordPending _, CAuthenticate p => is_word p = true
  | Authenticated _, CBalance => True
  | Authenticated _, CWithdraw arg =>
      is_word arg = true /\ exists a, py_float arg = Ok a /\ amt_positive a = true
  | _, _ => False
  end.

(** Commands allowed all along the machine's run. *)
Fixpoint allowed_run (m : gmap string (Account A)) (ph : phase) (cs : list scmd) : Prop :=
  match cs with
  | [] => True
  | c :: cs' => allowed ph c /\ let '(ph1, m1, _) := spec_step m ph c in allowed_run m1 ph1 cs'
  end.

End Spec.

(** ** The code implements the machine on the allowed commands *)

Section Simulation.
Context {A : Type} `{Amount A}.
Implicit Types (st : Store A) (m : gmap string (Account A)) (acct : Account A).

(** One reply, the one the machine gives. *)
Definition replies_as (sent : list string) (r : sreply (A := A)) : Prop :=
  exists t, reply_text r = Some t /\ sent = [t].

Lemma wire_words ph c : allowed (A := A) ph c -> py_split (wire_of c) = words_of c.
Proof.
  intros Hc. destruct c; simpl; try reflexivity;
    destruct ph; simpl in Hc; try contradiction;
    first [ by apply (py_split_cmd_arg "HELO") | by apply (py_split_cmd_arg "PASS")
          | destruct Hc as [Hw _]; by apply (py_split_cmd_arg "WDRA") ].
Qed.

Ltac sim_close := repeat split; try (by eexists; split); try discriminate; simpl; eauto.

Lemma step_simulation addr st cu ph m c :
  R st cu ph m -> allowed ph c ->
  let '(ph', m', r) := spec_step m ph c in
  match handle_data addr st cu (wire_of c) with
  | SContinue st' cu' sent => replies_as sent r /\ R st' cu' ph' m' /\ ph' <> ClosedPhase
  | SBreak st' sent => replies_as sent r /\ ph' = ClosedPhase /\ accounts st' = m'
  | SRaise _ _ _ => False
  end.
Proof.
  intros (Hm & Hd & Hfs & Hph) Hc. pose proof (wire_words ph c Hc) as Hw.
  destruct ph as [|u|u|], c as [v|p| |arg|]; simpl in Hc, Hw; try contradiction;
    cbn [wire_of spec_step]; rewrite (handle_data_words _ _ _ _ _ _ Hw); autorewrite with bank.
  - (* identify *)
    subst cu. destruct (m !! v) as [acct|] eqn:Hv; subst m.
    + rewrite (do_helo_known _ _ _ _ _ acct Hv), bool_decide_true by eauto.
      sim_close; rewrite ?Hv; eauto.
    + rewrite (do_helo_unknown _ _ _ _ _ Hv), bool_decide_false by (by intros []).
      sim_close.
  - sim_close.
  - (* authenticate *)
    destruct Hph as (-> & Hu & [acct Hacc]). subst m. rewrite Hacc.
    destruct (String.eqb_spec (password acct) p) as [Hp|Hp].
    + rewrite (do_pass_ok _ _ _ _ _ acct) by done. sim_close; rewrite ?Hacc; eauto.
    + rewrite (do_pass_wrong _ _ _ _ _ acct) by done. sim_close; rewrite ?Hacc; eauto.
  - sim_close.
  - (* balance *)
    destruct Hph as (-> & Hu & [acct Hacc]). subst m. rewrite Hacc, (do_bala_ok _ _ _ acct) by done.
    sim_close; rewrite ?Hacc; eauto.
  - (* withdraw *)
    destruct Hph as (-> & Hu & [acct Hacc]). destruct Hc as (Hw' & a & Ha & Hpos).
    subst m. rewrite Ha, Hacc, (do_wdra_amount _ _ _ _ _ _ Ha), Hpos. cbn [andb].
    destruct (amt_ge (balance acct) a) eqn:Hge.
    + rewrite (withdraw_locked_accept _ _ acct) by done. sim_close;
      rewrite ?lookup_insert_eq; eauto.
    + rewrite (withdraw_locked_reject _ _ acct) by done. sim_close; rewrite ?Hacc; eauto.
  - sim_close.
Qed.

(** C24. Refinement: from related states, on any sequence of commands
    the specification allows all along (the client's discipline: HELO,
    PASS, then BALA / WDRA of positive amounts, then BYE, with one-word
    arguments and a working file system), the replies the code sends are
    exactly the machine's, and the ledgers agree at the end. *)
Theorem handler_refines_session_spec addr st cu ph m cs :
  R st cu ph m -> allowed_run m ph cs ->
  map Some (run_sent (run_loop addr st cu (map wire_of cs))) =
    map reply_text (spec_run m ph cs).2 /\
  accounts (run_store (run_loop addr st cu (map wire_of cs))) = (spec_run m ph cs).1.2.
Proof.
  revert st cu ph m. induction cs as [|c cs IH]; intros st cu ph m HR Hrun.
  { destruct HR as [Hm _]. by split. }
  destruct Hrun as [Hc Hrest]. pose proof (step_simulation addr st cu ph m c HR Hc) as Hs.
  simpl. destruct (spec_step m ph c) as [[ph1 m1] r] eqn:E.
  destruct (spec_run m1 ph1 cs) as [[ph2 m2] rs] eqn:E2. simpl.
  destruct (handle_data addr st cu (wire_of c)) as [st' cu' sent|st' sent|] eqn:Ed; [|..|done].
  - destruct Hs as ([t [Ht ->]] & HR' & _). destruct (IH st' cu' ph1 m1 HR' Hrest) as [IH1 IH2].
    rewrite E2 in IH1, IH2. simpl in *. by rewrite Ht, IH1.
  - destruct Hs as ([t [Ht ->]] & -> & Hacc).
    destruct cs as [|c' cs']; [|destruct Hrest as [[] _]].
    simpl in E2. simplify_eq. simpl. by rewrite Ht.
Qed.

End Simulation.

(** ** Witness *)

Lemma handler_refines_session_spec_witness :
  let cs := [CIdentify "alice"; CAuthenticate "secret"; CBalance; CWithdraw "40"; CLogout] in
  let st := mkStore {[ "alice" := mkAccount "secret" 100%Q ]}
              (DiskData {[ "alice" := mkAccount "secret" 100%Q ]}) FsOk [] in
  map Some (run_sent (run_loop "a" st None (map wire_of cs))) =
    map reply_text (spec_run (accounts st) Unauthenticated cs).2 /\
  accounts (run_store (run_loop "a" st None (map wire_of cs))) =
    (spec_run (accounts st) Unauthenticated cs).1.2.
Proof.
  apply handler_refines_session_spec.
  - repeat split.
  - vm_compute. repeat split; try reflexivity. eexists; split; reflexivity.
Defined.

