(* ===== verification/Concurrent.v ===== *)
(** * Concurrent: handler threads sharing the store under [self.lock]

    [BankServer.start] (server.py lines 86-93) accepts connections and
    runs [handle_client] for each in its own thread; all threads share
    [self.accounts], [accounts.json], [server.log] and [self.lock].  The
    interpreter may switch threads between bytecodes.  A command other
    than a withdrawal reads or appends one value of the shared state and
    is one step here.  A withdrawal (lines 67-76) is split at the points
    where another thread can run:
    - [float(parts[1])] before the lock (one step with the dispatch);
    - [with self.lock:] acquires the lock, blocking while another thread
      holds it ([PAcquire]);
    - [self.accounts[current_user]['balance'] >= amount] ([PCheck]);
    - [balance -= amount] reads the balance ([PLoad]) and stores the
      difference ([PStore]): a read-modify-write in two steps;
    - [save_accounts()] ([PSave]), the reply and log line ([PReply] or
      [PReplyErr]), and the end of the [with] block ([PRelease]).
    An exception inside the block releases the lock and ends the thread.

    A world holds the store, the lock (the id of its holder), the
    threads by id, and a ghost list of the debits in the order their
    store step ran ([w_committed]).  [thread_step w tid] is the step of
    thread [tid], [None] when it is blocked or finished; [wstep] is any
    thread's step, and [reachable] its reflexive-transitive closure.

    The invariant [conc_inv] of every world reachable from a quiescent
    one gathers: the lock is held by exactly the thread in the block
    ([lock_inv]); that thread's check and read still hold of the ledger
    ([check_inv]); the ledger is the replay of the stored debits, each
    covered ([replay], [covered]); the file holds the ledger between
    saves.  [run_solo] runs one thread alone until it is back in [recv]
    and relates the fine-grained steps to [Handler.handle_data]. *)

From S2P Require Import Prelude Wire Amount Ledger Handler.
From Stdlib Require Import String QArith.

Open Scope string_scope.

Section Concurrent.
Context {A : Type} `{Amount A}.

(** Where a thread is in its loop. *)
Inductive pc :=
| PIdle                       (** waiting in [recv] / about to dispatch *)
| PAcquire (amount : A)       (** at [with self.lock:] *)
| PCheck (amount : A)
| PLoad (amount : A)
| PStore (amount : A) (b : A) (** read the balance [b], about to store [b - amount] *)
| PSave (amount : A)
| PReply (amount : A)
| PReplyErr
| PRelease
| PDone.                      (** the loop ended (break or exception) *)

Record Thread := mkThread {
  t_addr : string;
  t_user : option string;     (** [current_user] *)
  t_inbox : list string;      (** chunks still to be received *)
  t_sent : list string;       (** replies sent so far *)
  t_pc : pc
}.

Record World := mkWorld {
  w_store : Store A;
  w_lock : option nat;
  w_threads : gmap nat Thread;
  w_committed : list (string * A)   (** ghost: debits in store order *)
}.

Definition set_pc (t : Thread) (p : pc) : Thread :=
  mkThread (t_addr t) (t_user t) (t_inbox t) (t_sent t) p.

Definition send_reply (t : Thread) (r : string) (p : pc) : Thread :=
  mkThread (t_addr t) (t_user t) (t_inbox t) (t_sent t ++ [r]) p.

Definition put_thread (w : World) (tid : nat) (t : Thread) (st : Store A)
    (lock : option nat) (committed : list (string * A)) : World :=
  mkWorld st lock (<[tid := t]> (w_threads w)) committed.

(** The amount of a withdrawal line whose argument parses: the
    dispatch then goes to the lock. *)
Definition wdra_amount (chunk : string) : option A :=
  match py_split (strip chunk) with
  | cmd :: arg :: _ =>
      if String.eqb cmd "WDRA" then
        match py_float arg with
        | Ok a => Some a
        | Raise _ => None
        end
      else None
  | _ => None
  end.

(** The thread after one iteration of [handle_data]: back in [recv]
    with the new [current_user], or finished. *)
Definition iteration_thread (t : Thread) (cs : list string) (o : step_out (A := A)) : Thread :=
  match o with
  | SContinue _ cu' sent => mkThread (t_addr t) cu' cs (t_sent t ++ sent) PIdle
  | SBreak _ sent | SRaise _ sent _ => mkThread (t_addr t) (t_user t) cs (t_sent t ++ sent) PDone
  end.

(** An idle thread receives its next chunk: a withdrawal with a number
    goes to the lock; any other chunk is one iteration of [handle_data]. *)
Definition idle_step (w : World) (tid : nat) (t : Thread) : option World :=
  match t_inbox t with
  | [] => None
  | c :: cs =>
      match wdra_amount c with
      | Some a =>
          Some (put_thread w tid (mkThread (t_addr t) (t_user t) cs (t_sent t) (PAcquire a))
                  (w_store w) (w_lock w) (w_committed w))
      | None =>
          let o := handle_data (t_addr t) (w_store w) (t_user t) c in
          Some (put_thread w tid (iteration_thread t cs o) (step_store o) (w_lock w) (w_committed w))
      end
  end.

(** The account of the current user, or the [KeyError]. *)
Definition user_account (st : Store A) (cu : option string) : option (string * Account A) :=
  match cu with
  | Some u => match accounts st !! u with Some acct => Some (u, acct) | None => None end
  | None => None
  end.

(** One step of thread [tid], whose state is [t]. *)
Definition thread_step_at (w : World) (tid : nat) (t : Thread) : option World :=
  let st := w_store w in
  let stay t' st' lock' := Some (put_thread w tid t' st' lock' (w_committed w)) in
  match t_pc t with
  | PIdle => idle_step w tid t
  | PAcquire a =>
      match w_lock w with
      | None => stay (set_pc t (PCheck a)) st (Some tid)
      | Some _ => None
      end
  | PCheck a =>
      match user_account st (t_user t) with
      | None => stay (set_pc t PDone) st None
      | Some (_, acct) =>
          if amt_ge (balance acct) a then stay (set_pc t (PLoad a)) st (w_lock w)
          else stay (set_pc t PReplyErr) st (w_lock w)
      end
  | PLoad a =>
      match user_account st (t_user t) with
      | None => stay (set_pc t PDone) st None
      | Some (_, acct) => stay (set_pc t (PStore a (balance acct))) st (w_lock w)
      end
  | PStore a b =>
      match user_account st (t_user t) with
      | None => stay (set_pc t PDone) st None
      | Some (u, acct) =>
          Some (put_thread w tid (set_pc t (PSave a))
                  (set_accounts st (<[u := set_balance acct (amt_sub b a)]> (accounts st)))
                  (w_lock w) (w_committed w ++ [(u, a)]))
      end
  | PSave a =>
      match save_accounts st with
      | Ok st' => stay (set_pc t (PReply a)) st' (w_lock w)
      | Raise _ => stay (set_pc t PDone) (save_failed st) None
      end
  | PReply a =>
      stay (send_reply t OK PRelease)
        (log st (log_line (t_addr t) (py_str_user (t_user t))
                   ("Withdraw " ++ amt_str a ++ " OK"))) (w_lock w)
  | PReplyErr => stay (send_reply t ERROR PRelease) st (w_lock w)
  | PRelease => stay (set_pc t PIdle) st None
  | PDone => None
  end.

(** One step of thread [tid]: [None] when it is blocked or finished. *)
Definition thread_step (w : World) (tid : nat) : option World :=
  match w_threads w !! tid with
  | None => None
  | Some t => thread_step_at w tid t
  end.

(** Any thread takes a step. *)
Inductive wstep : World -> World -> Prop :=
| wstep_thread w w' tid : thread_step w tid = Some w' -> wstep w w'.

Inductive reachable (w0 : World) : World -> Prop :=
| reach_refl : reachable w0 w0
| reach_step w w' : reachable w0 w -> wstep w w' -> reachable w0 w'.

(** The program counters inside [with self.lock:]. *)
Definition in_cs (p : pc) : bool :=
  match p with
  | PCheck _ | PLoad _ | PStore _ _ | PSave _ | PReply _ | PReplyErr | PRelease => true
  | _ => false
  end.

(** Replaying debits on a ledger. *)
Definition apply_debit (m : gmap string (Account A)) (d : string * A) : gmap string (Account A) :=
  match m !! d.1 with
  | Some acct => <[d.1 := set_balance acct (amt_sub (balance acct) d.2)]> m
  | None => m
  end.

Definition replay (m : gmap string (Account A)) (ds : list (string * A)) : gmap string (Account A) :=
  fold_left apply_debit ds m.

(** A world where [start] has just spawned one fresh handler per
    connection, each with the chunks its client will send. *)
Definition initial_world (st : Store A) (conns : list (string * list string)) : World :=
  mkWorld st None
    (list_to_map (imap (fun i c => (i, mkThread c.1 None c.2 [] PIdle)) conns)) [].

(** [if __name__ == "__main__"] (lines 96-98): [BankServer()] loads the
    ledger, which raises on a truncated [accounts.json] before the
    server listens, then [start] spawns one thread per accepted
    connection. *)
Definition server_main (d : disk_state A) (mode : fs_mode) (conns : list (string * list string)) :
    res World :=
  let* st := init_store d mode in Ok (initial_world st conns).

(** Run a schedule: the thread ids in the order the interpreter picks
    them; a blocked or finished thread's turn is skipped. *)
Fixpoint run_schedule (w : World) (sched : list nat) : World :=
  match sched with
  | [] => w
  | tid :: rest =>
      match thread_step w tid with
      | Some w' => run_schedule w' rest
      | None => run_schedule w rest
      end
  end.

(** The lock is held exactly by the thread inside the [with] block. *)
Definition lock_inv (w : World) : Prop :=
  (forall tid t, w_threads w !! tid = Some t -> in_cs (t_pc t) = true -> w_lock w = Some tid) /\
  (forall tid, w_lock w = Some tid ->
     exists t, w_threads w !! tid = Some t /\ in_cs (t_pc t) = true).

(** Every debit, replayed in order on the starting ledger, was at most
    the balance it was taken from: the check of line 70 held when the
    debit of line 71 ran. *)
Fixpoint covered (m : gmap string (Account A)) (ds : list (string * A)) : bool :=
  match ds with
  | [] => true
  | d :: ds' =>
      match m !! d.1 with
      | Some acct => amt_ge (balance acct) d.2 && covered (apply_debit m d) ds'
      | None => false
      end
  end.

(** What a thread inside the block knows of the ledger: after the check
    its user's balance covers the amount, and after the read it still
    holds the balance read. *)
Definition pc_ok (st : Store A) (t : Thread) : Prop :=
  match t_pc t with
  | PLoad a => exists ua, user_account st (t_user t) = Some ua /\ amt_ge (balance ua.2) a = true
  | PStore a b => exists ua, user_account st (t_user t) = Some ua /\
                    balance ua.2 = b /\ amt_ge b a = true
  | _ => True
  end.

Definition check_inv (w : World) : Prop :=
  map_Forall (fun _ t => pc_ok (w_store w) t) (w_threads w).

(** The file holds the ledger unless a thread is between its store and
    its save. *)
Definition synced (w : World) : Prop :=
  (forall tid t a, w_threads w !! tid = Some t -> t_pc t <> PSave a) ->
  disk (w_store w) = DiskData (accounts (w_store w)).

(** No thread has started a withdrawal: the world [start] begins with. *)
Definition quiescent (w : World) : Prop :=
  w_lock w = None /\ map_Forall (fun _ t => t_pc t = PIdle) (w_threads w) /\ w_committed w = [].

(** The invariant of every world reachable from a quiescent one. *)
Definition conc_inv (w0 w : World) : Prop :=
  lock_inv w /\ check_inv w /\
  accounts (w_store w) = replay (accounts (w_store w0)) (w_committed w) /\
  covered (accounts (w_store w0)) (w_committed w) = true /\
  fs (w_store w) = fs (w_store w0) /\
  (fs (w_store w0) = FsOk -> disk (w_store w0) = DiskData (accounts (w_store w0)) -> synced w).

(** The steps a thread inside the block still takes before it releases
    the lock. *)
Definition cs_rank (p : pc) : nat :=
  match p with
  | PCheck _ => 6
  | PLoad _ => 5
  | PStore _ _ => 4
  | PSave _ => 3
  | PReply _ | PReplyErr => 2
  | PRelease => 1
  | _ => 0
  end.

(** A thread that has something to do: not finished, and not in [recv]
    with no chunk left to receive. *)
Definition runnable (t : Thread) : bool :=
  match t_pc t, t_inbox t with
  | PDone, _ => false
  | PIdle, [] => false
  | _, _ => true
  end.

(** A thread back in [recv] or finished. *)
Definition settled (t : Thread) : bool :=
  match t_pc t with PIdle | PDone => true | _ => false end.

(** Run thread [tid] alone until it is back in [recv] or finished, at
    most [fuel] steps: one iteration of its loop without interference. *)
Fixpoint run_solo (w : World) (tid : nat) (fuel : nat) : World :=
  match fuel with
  | O => w
  | S n =>
      match thread_step w tid with
      | None => w
      | Some w' =>
          match w_threads w' !! tid with
          | Some t' => if settled t' then w' else run_solo w' tid n
          | None => w'
          end
      end
  end.

End Concurrent.

Arguments Thread A : clear implicits.
Arguments World A : clear implicits.

(** A server whose file holds its one account, and two clients that
    log in to it and withdraw 60 each. *)
Definition bank_store : Store Q :=
  let m := {[ "alice" := mkAccount "secret" 100%Q ]} in mkStore m (DiskData m) FsOk [].

Definition race_world : World Q :=
  initial_world bank_store
    [("10.0.0.1", ["HELO alice"; "PASS secret"; "WDRA 60"]);
     ("10.0.0.2", ["HELO alice"; "PASS secret"; "WDRA 60"])].

(** Both log in, both reach the lock, the first takes it. *)
Definition race_prefix : list nat := [0; 1; 0; 1; 0; 1; 0]%nat.

(** Round robin until both are done. *)
Definition race_schedule : list nat := List.concat (List.repeat [0; 1]%nat 14%nat).

Definition race_end : World Q := run_schedule race_world race_schedule.

(** ** Lemmas *)

Section ConcurrentLemmas.
Context {A : Type} `{Amount A}.
Implicit Types (w : World A) (st : Store A).

(** An iteration that is not a withdrawal with a number touches neither
    the accounts, the file nor the file system. *)
Lemma handle_data_not_wdra addr st cu c o :
  wdra_amount (A := A) c = None -> handle_data addr st cu c = o ->
  accounts (step_store o) = accounts st /\ disk (step_store o) = disk st /\
  fs (step_store o) = fs st.
Proof.
  intros Hw <-. unfold wdra_amount, handle_data in *.
  destruct (String.eqb_spec (strip c) "") as [_|_]; [done|].
  destruct (py_split (strip c)) as [|cmd [|arg rest]]; [done| |];
    unfold dispatch; cbn [py_index lookup list_lookup];
    repeat (case_match; simplify_eq/=; try done);
    unfold do_wdra, do_pass, do_bala, do_helo, do_bye in *; simpl in *;
    repeat (case_match; simplify_eq/=; try done).
Qed.

Lemma put_thread_lookup w tid t st l c j :
  w_threads (put_thread w tid t st l c) !! j =
    if decide (j = tid) then Some t else w_threads w !! j.
Proof. unfold put_thread; simpl. rewrite lookup_insert. by repeat case_decide; subst. Qed.

(** A step that keeps the lock and whether the thread is inside the
    block. *)
Lemma lock_inv_keep w tid t t' st c :
  lock_inv w -> w_threads w !! tid = Some t -> in_cs (t_pc t') = in_cs (t_pc t) ->
  lock_inv (put_thread w tid t' st (w_lock w) c).
Proof.
  intros [H1 H2] Ht Hcs. split; simpl.
  - intros j tj. rewrite lookup_insert. case_decide; intros Hj Hin; simplify_eq.
    + eapply H1; [exact Ht|congruence].
    + by apply (H1 j tj).
  - intros j Hj. destruct (H2 j Hj) as (tj & Htj & Hin). rewrite lookup_insert.
    case_decide; [|eauto]. subst. rewrite Ht in Htj. simplify_eq.
    eexists; split; [done|congruence].
Qed.

Lemma lock_inv_acquire w tid t' st c :
  lock_inv w -> w_lock w = None -> in_cs (t_pc t') = true ->
  lock_inv (put_thread w tid t' st (Some tid) c).
Proof.
  intros [H1 H2] Hl Hcs. split; simpl.
  - intros j tj. rewrite lookup_insert. case_decide; intros Hj Hin; simplify_eq; [done|].
    rewrite (H1 j tj Hj Hin) in Hl. discriminate.
  - intros j [= <-]. rewrite lookup_insert, decide_True by done. eauto.
Qed.

Lemma lock_inv_release w tid t' st c :
  lock_inv w -> w_lock w = Some tid -> in_cs (t_pc t') = false ->
  lock_inv (put_thread w tid t' st None c).
Proof.
  intros [H1 H2] Hl Hcs. split; simpl; [|discriminate].
  intros j tj. rewrite lookup_insert. case_decide; intros Hj Hin; simplify_eq.
  - congruence.
  - rewrite (H1 j tj Hj Hin) in Hl. congruence.
Qed.

(** Two threads inside the block are the same thread. *)
Lemma lock_inv_unique w i j ti tj :
  lock_inv w -> w_threads w !! i = Some ti -> w_threads w !! j = Some tj ->
  in_cs (t_pc ti) = true -> in_cs (t_pc tj) = true -> i = j.
Proof.
  intros [H1 _] Hi Hj Ci Cj. pose proof (H1 i ti Hi Ci). pose proof (H1 j tj Hj Cj). congruence.
Qed.

(** Unfold one thread step into its branches, each ending in the world
    it builds. *)
Ltac step_cases Hs t Ht Hp :=
  unfold thread_step, thread_step_at in Hs;
  destruct (w_threads _ !! _) as [t|] eqn:Ht; [|discriminate];
  destruct (t_pc t) eqn:Hp; cbn zeta in Hs; [unfold idle_step, iteration_thread in Hs; cbn zeta in Hs| ..];
  repeat (case_match; simplify_eq/=; try discriminate); simplify_eq/=.

(** Every step keeps the lock held by exactly the thread in the block. *)
Lemma thread_step_lock_inv w tid w' :
  lock_inv w -> thread_step w tid = Some w' -> lock_inv w'.
Proof.
  intros Hinv Hs. step_cases Hs t Ht Hp;
    first [ eapply lock_inv_keep; [done|exact Ht|by rewrite Hp]
          | eapply lock_inv_acquire; done
          | eapply lock_inv_release; [done| apply (proj1 Hinv tid t Ht); by rewrite Hp |done] ].
Qed.

Lemma save_accounts_Ok st st' :
  save_accounts st = Ok st' ->
  accounts st' = accounts st /\ disk st' = DiskData (accounts st) /\ fs st' = fs st /\
  fs st = FsOk.
Proof. unfold save_accounts. case_match; by intros [= <-]. Qed.

Lemma save_failed_accounts st : accounts (save_failed st) = accounts st.
Proof. unfold save_failed. by case_match. Qed.

Lemma save_failed_fs st : fs (save_failed st) = fs st.
Proof. unfold save_failed. by case_match. Qed.

Lemma save_accounts_Raise st e : save_accounts st = Raise e -> fs st <> FsOk.
Proof. unfold save_accounts. by case_match. Qed.

(** The facts a step leaves about the store, gathered as hypotheses. *)
Ltac store_facts :=
  repeat match goal with
  | Hw : wdra_amount _ = None, Hd : handle_data _ _ _ _ = _ |- _ =>
      pose proof (handle_data_not_wdra _ _ _ _ _ Hw Hd) as (? & ? & ?); clear Hd
  | Hw : wdra_amount ?c = None |- context [handle_data ?ad ?st ?cu ?c] =>
      pose proof (handle_data_not_wdra ad st cu c _ Hw eq_refl) as (? & ? & ?); clear Hw
  | Hsv : save_accounts _ = Ok _ |- _ => pose proof (save_accounts_Ok _ _ Hsv) as (? & ? & ? & ?); clear Hsv
  | Hsv : save_accounts _ = Raise _ |- _ => pose proof (save_accounts_Raise _ _ Hsv); clear Hsv
  end; simpl in *; rewrite ?save_failed_accounts, ?save_failed_fs.

Lemma user_account_Some st cu u acct :
  user_account st cu = Some (u, acct) <-> cu = Some u /\ accounts st !! u = Some acct.
Proof.
  unfold user_account. split; [|by intros [-> ->]].
  destruct cu as [v|]; [|done]. destruct (accounts st !! v) eqn:E; [|done].
  by intros [= <- <-].
Qed.

Lemma pc_ok_accounts st st' t :
  accounts st' = accounts st -> pc_ok st t -> pc_ok st' t.
Proof. intros Heq. unfold pc_ok, user_account. by rewrite Heq. Qed.

Lemma pc_ok_out st t : in_cs (t_pc t) = false -> pc_ok st t.
Proof. unfold pc_ok. by destruct (t_pc t). Qed.

Lemma check_inv_put w tid t' st l c :
  pc_ok st t' -> (forall j tj, j <> tid -> w_threads w !! j = Some tj -> pc_ok st tj) ->
  check_inv (put_thread w tid t' st l c).
Proof.
  intros Ht Ho j tj. simpl. rewrite lookup_insert. case_decide; [by intros [= <-]|].
  by apply Ho.
Qed.

(** A step that leaves the accounts as they were. *)
Lemma check_inv_frame w tid t' st l c :
  check_inv w -> accounts st = accounts (w_store w) -> pc_ok st t' ->
  check_inv (put_thread w tid t' st l c).
Proof.
  intros Hc Ha Ht. apply check_inv_put; [done|]. intros j tj _ Hj.
  eapply pc_ok_accounts; [done|]. by eapply Hc.
Qed.

(** A step of the thread in the block: no other thread is in it. *)
Lemma check_inv_excl w tid t t' st l c :
  lock_inv w -> w_threads w !! tid = Some t -> in_cs (t_pc t) = true -> pc_ok st t' ->
  check_inv (put_thread w tid t' st l c).
Proof.
  intros Hl Ht Hin Ht'. apply check_inv_put; [done|]. intros j tj Hne Hj.
  apply pc_ok_out. destruct (in_cs (t_pc tj)) eqn:Hj'; [|done].
  destruct Hne. by eapply (lock_inv_unique w j tid).
Qed.

(** Every step keeps what the threads in the block know of the ledger. *)
Lemma thread_step_check_inv w tid w' :
  lock_inv w -> check_inv w -> thread_step w tid = Some w' -> check_inv w'.
Proof.
  intros Hl Hc Hs. pose proof Hc as Hc'. step_cases Hs t Ht Hp; store_facts;
    first [ eapply check_inv_excl; [done|exact Ht|by rewrite Hp|]
          | eapply check_inv_frame; [done|done|] ];
    unfold pc_ok; simpl; try done; try by eexists; split.
  (* [PLoad]: the check made before still holds. *)
  pose proof (Hc' tid t Ht) as Hk. unfold pc_ok in Hk. rewrite Hp in Hk.
  destruct Hk as (ua & Hua & Hge). simplify_eq/=. eauto.
Qed.

Lemma replay_snoc m ds d : replay m (ds ++ [d]) = apply_debit (replay m ds) d.
Proof. unfold replay. by rewrite fold_left_app. Qed.

Lemma covered_snoc m ds d :
  covered m (ds ++ [d]) =
    covered m ds && match replay m ds !! d.1 with
                    | Some acct => amt_ge (balance acct) d.2
                    | None => false
                    end.
Proof.
  revert m. induction ds as [|d' ds IH]; intros m; cbn [covered app].
  - unfold replay; simpl. by destruct (m !! d.1); rewrite ?andb_true_r.
  - change (replay m (d' :: ds)) with (replay (apply_debit m d') ds).
    destruct (m !! d'.1); [|done]. by rewrite IH, andb_assoc.
Qed.

(** The debit of [PStore], as the account it rewrites shows it. *)
Lemma apply_debit_lookup m u acct a :
  m !! u = Some acct ->
  apply_debit m (u, a) = <[u := set_balance acct (amt_sub (balance acct) a)]> m.
Proof. unfold apply_debit. simpl. by intros ->. Qed.

(** Every step keeps the ledger equal to the debits replayed in the
    order they were stored, each covered by its balance. *)
Lemma thread_step_ledger w tid w' m0 :
  lock_inv w -> check_inv w ->
  accounts (w_store w) = replay m0 (w_committed w) -> covered m0 (w_committed w) = true ->
  thread_step w tid = Some w' ->
  accounts (w_store w') = replay m0 (w_committed w') /\ covered m0 (w_committed w') = true.
Proof.
  intros Hl Hc Hr Hcov Hs. pose proof Hc as Hc'. step_cases Hs t Ht Hp; store_facts;
    try by (split; [congruence|done]).
  (* [PStore]: the debit replays on the ledger the thread read. *)
  pose proof (Hc' tid t Ht) as Hk. unfold pc_ok in Hk. rewrite Hp in Hk.
  destruct Hk as (ua & Hua & <- & Hge). simplify_eq/=.
  match goal with Hx : user_account _ _ = Some (_, _) |- _ =>
    apply user_account_Some in Hx as [_ Hu] end.
  rewrite replay_snoc, covered_snoc, <- Hr, Hcov. simpl. rewrite Hu.
  by rewrite (apply_debit_lookup _ _ _ _ Hu).
Qed.

(** The file-system mode never changes. *)
Lemma thread_step_fs w tid w' :
  thread_step w tid = Some w' -> fs (w_store w') = fs (w_store w).
Proof. intros Hs. step_cases Hs t Ht Hp; store_facts; congruence. Qed.

Lemma synced_frame w tid t t' st l c :
  synced w -> w_threads w !! tid = Some t -> (forall a, t_pc t <> PSave a) ->
  accounts st = accounts (w_store w) -> disk st = disk (w_store w) ->
  synced (put_thread w tid t' st l c).
Proof.
  unfold synced. simpl. intros Hs Ht Hn Ha Hd Hno. rewrite Ha, Hd. apply Hs.
  intros j tj a Hj. destruct (decide (j = tid)) as [->|Hne].
  - rewrite Ht in Hj. simplify_eq. apply Hn.
  - apply (Hno j tj a). by rewrite lookup_insert_ne.
Qed.

Lemma synced_saving w tid t' st l c a :
  t_pc t' = PSave a -> synced (put_thread w tid t' st l c).
Proof.
  unfold synced. simpl. intros Hp Hno. exfalso. apply (Hno tid t' a); [|done].
  by rewrite lookup_insert_eq.
Qed.

Lemma synced_saved w tid t' st l c :
  disk st = DiskData (accounts st) -> synced (put_thread w tid t' st l c).
Proof. by intros Hd _. Qed.

(** While the writes succeed, the file holds the ledger except while a
    thread is between its store and its save. *)
Lemma thread_step_synced w tid w' :
  fs (w_store w) = FsOk -> synced w -> thread_step w tid = Some w' -> synced w'.
Proof.
  intros Hfs Hsy Hs. step_cases Hs t Ht Hp; store_facts; try congruence;
    first [ by eapply synced_saving
          | by eapply synced_saved; congruence
          | eapply synced_frame; [done|exact Ht|rewrite Hp; discriminate|
                                   first [reflexivity|congruence]..] ].
Qed.

Lemma quiescent_conc_inv w0 : quiescent w0 -> conc_inv w0 w0.
Proof.
  intros (Hl & Hidle & Hc). unfold conc_inv, lock_inv. rewrite Hc, Hl.
  assert (Hout : forall j tj, w_threads w0 !! j = Some tj -> in_cs (t_pc tj) = false)
    by (intros j tj Hj; by rewrite (Hidle j tj Hj)).
  split_and!; try done.
  - intros j tj Hj. by rewrite (Hout j tj Hj).
  - intros j tj Hj. apply pc_ok_out. by eapply Hout.
  - by intros _ Hd _.
Qed.

Lemma thread_step_conc_inv w0 w tid w' :
  conc_inv w0 w -> thread_step w tid = Some w' -> conc_inv w0 w'.
Proof.
  intros (Hl & Hc & Hr & Hcov & Hfs & Hsy) Hs.
  destruct (thread_step_ledger w tid w' _ Hl Hc Hr Hcov Hs) as [Hr' Hcov'].
  pose proof (thread_step_fs w tid w' Hs) as Hfs'.
  split_and!; try done.
  - by eapply thread_step_lock_inv.
  - by eapply thread_step_check_inv.
  - congruence.
  - intros Hok Hd. apply (thread_step_synced w tid w'); [congruence|by apply Hsy|done].
Qed.

Lemma reachable_conc_inv w0 w : quiescent w0 -> reachable w0 w -> conc_inv w0 w.
Proof.
  intros Hq Hr. induction Hr as [|w w' _ IH Hst].
  - by apply quiescent_conc_inv.
  - inversion Hst as [? ? tid Hs]; subst. by apply (thread_step_conc_inv w0 w tid w').
Qed.

Lemma run_schedule_reachable w0 w sched :
  reachable w0 w -> reachable w0 (run_schedule w sched).
Proof.
  revert w. induction sched as [|tid sched IH]; intros w Hr; simpl; [done|].
  destruct (thread_step w tid) eqn:Hs; apply IH; [|done].
  by eapply reach_step; [|econstructor].
Qed.

Lemma initial_world_quiescent st conns : quiescent (initial_world st conns).
Proof.
  split_and!; [done| |done]. intros i t Hi. simpl in Hi.
  apply elem_of_list_to_map_2, elem_of_lookup_imap in Hi as (j & c & [= _ Hc] & _).
  by subst t.
Qed.

(** The world the program starts serving in is quiescent. *)
Lemma server_main_quiescent d mode conns w :
  server_main d mode conns = Ok w -> quiescent w.
Proof.
  unfold server_main, init_store. destruct (load_accounts d); intros [= <-].
  apply initial_world_quiescent.
Qed.

(** A withdrawal line with a number: the iteration is the critical
    section of [do_wdra]. *)
Lemma handle_data_wdra addr st cu c a :
  wdra_amount c = Some a ->
  handle_data addr st cu c =
    match withdraw_locked st cu a with
    | WdDone st' true =>
        SContinue (log st' (log_line addr (py_str_user cu)
                             ("Withdraw " ++ amt_str a ++ " OK"))) cu [OK]
    | WdDone st' false => SContinue st' cu [ERROR]
    | WdRaised st' e => SRaise st' [] e
    end.
Proof.
  unfold wdra_amount. rewrite py_split_strip.
  destruct (py_split c) as [|cmd [|arg rest]] eqn:E; try done.
  destruct (String.eqb_spec cmd "WDRA") as [->|]; [|done].
  destruct (py_float arg) eqn:F; [|done]. intros [= <-].
  rewrite (handle_data_words _ _ _ _ _ _ E), dispatch_WDRA. by apply do_wdra_amount.
Qed.

Lemma put_thread_put w tid t1 st1 l1 c1 t2 st2 l2 c2 :
  put_thread (put_thread w tid t1 st1 l1 c1) tid t2 st2 l2 c2 = put_thread w tid t2 st2 l2 c2.
Proof. unfold put_thread. simpl. by rewrite insert_insert_eq. Qed.

Lemma put_thread_store w tid t st l c : w_store (put_thread w tid t st l c) = st.
Proof. done. Qed.
Lemma put_thread_lock w tid t st l c : w_lock (put_thread w tid t st l c) = l.
Proof. done. Qed.
Lemma put_thread_committed w tid t st l c : w_committed (put_thread w tid t st l c) = c.
Proof. done. Qed.
Lemma put_thread_self w tid t st l c : w_threads (put_thread w tid t st l c) !! tid = Some t.
Proof. unfold put_thread. simpl. apply lookup_insert_eq. Qed.

Lemma put_thread_other w tid tid' t st l c :
  tid' <> tid -> w_threads (put_thread w tid t st l c) !! tid' = w_threads w !! tid'.
Proof. intros Hne. unfold put_thread. simpl. by apply lookup_insert_ne. Qed.

Lemma thread_step_put w tid t st l c :
  thread_step (put_thread w tid t st l c) tid = thread_step_at (put_thread w tid t st l c) tid t.
Proof. unfold thread_step. by rewrite put_thread_self. Qed.

Lemma thread_step_Some w tid t :
  w_threads w !! tid = Some t -> thread_step w tid = thread_step_at w tid t.
Proof. unfold thread_step. by intros ->. Qed.

Lemma set_pc_mk addr cu inbox sent (p q : @pc A) :
  set_pc (mkThread addr cu inbox sent p) q = mkThread addr cu inbox sent q.
Proof. done. Qed.

Lemma send_reply_mk addr cu inbox sent (p q : @pc A) r :
  send_reply (mkThread addr cu inbox sent p) r q = mkThread addr cu inbox (sent ++ [r]) q.
Proof. done. Qed.

(** One step of the thread a solo run follows, on a world the run built. *)
Ltac solo_step :=
  cbn [run_solo]; rewrite thread_step_put; unfold thread_step_at;
  rewrite ?put_thread_store, ?put_thread_lock, ?put_thread_committed;
  cbn [t_pc t_user t_addr t_sent t_inbox].

Ltac solo_next :=
  rewrite ?set_pc_mk, ?send_reply_mk, ?put_thread_put, ?put_thread_self;
  cbn [settled t_pc].

Ltac solo_run :=
  repeat progress (solo_next; try solo_step;
    repeat match goal with Hx : user_account _ _ = Some _ |- context [user_account _ _] =>
      rewrite Hx end).

Ltac solo_close :=
  eexists; unfold iteration_thread; cbn [step_store];
  repeat match goal with H : t_user _ = _ |- _ => rewrite H end; rewrite ?app_nil_r; reflexivity.

(** A withdrawal run alone takes at most eight steps and ends where the
    handler's iteration ends. *)
Lemma run_solo_wdra w tid t c cs a :
  w_lock w = None -> w_threads w !! tid = Some t -> t_pc t = PIdle -> t_inbox t = c :: cs ->
  wdra_amount c = Some a ->
  let o := handle_data (t_addr t) (w_store w) (t_user t) c in
  exists cm, run_solo w tid 8 = put_thread w tid (iteration_thread t cs o) (step_store o) None cm.
Proof.
  intros Hl Ht Hp Hi Hw o. subst o. rewrite (handle_data_wdra _ _ _ _ _ Hw).
  cbn [run_solo]. rewrite (thread_step_Some _ _ _ Ht). unfold thread_step_at. rewrite Hp.
  unfold idle_step. rewrite Hi, Hw. solo_next.
  solo_step. rewrite Hl. solo_next. solo_step.
  unfold user_account, withdraw_locked.
  destruct (t_user t) as [u|] eqn:Hu; [|solo_next; solo_close].
  destruct (accounts (w_store w) !! u) as [acct|] eqn:Ha; [|solo_next; solo_close].
  assert (Hua : user_account (w_store w) (Some u) = Some (u, acct))
    by (by apply user_account_Some).
  destruct (amt_ge (balance acct) a) eqn:Hge; solo_run; [|solo_close].
  destruct (save_accounts _); solo_run; solo_close.
Qed.

Lemma settled_iteration_thread (t : Thread A) cs o : settled (iteration_thread t cs o) = true.
Proof. by destruct o. Qed.

(** The thread holding the lock can always step: it either releases the
    lock and is back in [recv] or finished, or keeps it and gets closer
    to the release. *)
Lemma holder_step w h (t : Thread A) :
  lock_inv w -> w_lock w = Some h -> w_threads w !! h = Some t ->
  exists w' t', thread_step w h = Some w' /\ w_threads w' !! h = Some t' /\
    ((w_lock w' = None /\ settled t' = true) \/
     (w_lock w' = Some h /\ in_cs (t_pc t') = true /\ (cs_rank (t_pc t') < cs_rank (t_pc t))%nat)).
Proof.
  intros [_ Hl2] Hl Ht. destruct (Hl2 h Hl) as (t0 & Ht0 & Hin).
  assert (t0 = t) as -> by congruence.
  rewrite (thread_step_Some _ _ _ Ht). unfold thread_step_at.
  destruct (t_pc t) eqn:Hp; try discriminate Hin; repeat case_match;
    eexists _, _; (split; [reflexivity|]); (split; [apply put_thread_self|]);
    rewrite ?put_thread_lock, ?Hp; cbn; auto with lia.
Qed.

Lemma in_cs_rank (p : @pc A) : in_cs p = true -> (1 <= cs_rank p)%nat.
Proof. destruct p; simpl; lia || discriminate. Qed.

Lemma cs_rank_le (p : @pc A) : (cs_rank p <= 6)%nat.
Proof. destruct p; simpl; lia. Qed.

Lemma in_cs_unsettled (t : Thread A) : in_cs (t_pc t) = true -> settled t = false.
Proof. unfold settled. by destruct (t_pc t). Qed.

(** Running the holder alone for as many steps as its rank frees the
    lock. *)
Lemma run_solo_releases n w h (t : Thread A) :
  lock_inv w -> w_lock w = Some h -> w_threads w !! h = Some t -> (cs_rank (t_pc t) <= n)%nat ->
  w_lock (run_solo w h n) = None.
Proof.
  revert w t. induction n as [|n IH]; intros w t Hinv Hl Ht Hn.
  { destruct (proj2 Hinv h Hl) as (t0 & Ht0 & Hin). assert (t0 = t) as -> by congruence.
    pose proof (in_cs_rank _ Hin). lia. }
  destruct (holder_step w h t Hinv Hl Ht) as (w' & t' & Hs & Ht' & [[Hl' Hst]|(Hl' & Hin & Hlt)]);
    cbn [run_solo]; rewrite Hs, Ht'.
  - by rewrite Hst.
  - rewrite in_cs_unsettled by done.
    apply (IH w' t'); [by eapply thread_step_lock_inv|done|done|lia].
Qed.

(** A runnable thread that is not waiting for a held lock can step. *)
Lemma thread_step_progress w tid (t : Thread A) :
  w_threads w !! tid = Some t -> runnable t = true ->
  (forall a, t_pc t = PAcquire a -> w_lock w = None) ->
  exists w', thread_step w tid = Some w'.
Proof.
  intros Ht Hr Hacq. rewrite (thread_step_Some _ _ _ Ht). unfold runnable in Hr.
  unfold thread_step_at. destruct (t_pc t) eqn:Hp; try discriminate Hr.
  { unfold idle_step. destruct (t_inbox t); [discriminate|]. case_match; eauto. }
  { rewrite (Hacq _ eq_refl). eauto. }
  all: repeat case_match; eauto.
Qed.

End ConcurrentLemmas.

(** ** Properties *)

Section ConcurrentProps.
Context {A : Type} `{Amount A}.
Implicit Types (w : World A).

(** C25. Mutual exclusion: in every world reachable from one where no
    withdrawal has started, two threads inside [with self.lock:] are the
    same thread. *)
Theorem withdraw_mutual_exclusion w0 w i j ti tj :
  quiescent w0 -> reachable w0 w ->
  w_threads w !! i = Some ti -> w_threads w !! j = Some tj ->
  in_cs (t_pc ti) = true -> in_cs (t_pc tj) = true -> i = j.
Proof.
  intros Hq Hr. destruct (reachable_conc_inv w0 w Hq Hr) as [Hl _].
  by apply lock_inv_unique.
Qed.

(** C26. No lost update: however the threads interleave, the ledger is
    the starting ledger with every stored debit applied in order. *)
Theorem no_lost_update w0 w :
  quiescent w0 -> reachable w0 w ->
  accounts (w_store w) = replay (accounts (w_store w0)) (w_committed w).
Proof. intros Hq Hr. by destruct (reachable_conc_inv w0 w Hq Hr) as (_ & _ & ? & _). Qed.

(** C27. No overdraft by interleaving: every stored debit was at most
    the balance it was taken from when it was stored. *)
Theorem debits_covered_under_interleaving w0 w :
  quiescent w0 -> reachable w0 w ->
  covered (accounts (w_store w0)) (w_committed w) = true.
Proof. intros Hq Hr. by destruct (reachable_conc_inv w0 w Hq Hr) as (_ & _ & _ & ? & _). Qed.

(** C28. While every write succeeds, [accounts.json] holds the ledger
    whenever no thread is between its debit and its [save_accounts]. *)
Theorem disk_synced_between_saves w0 w :
  quiescent w0 -> fs (w_store w0) = FsOk ->
  disk (w_store w0) = DiskData (accounts (w_store w0)) ->
  reachable w0 w -> synced w.
Proof.
  intros Hq Hok Hd Hr. destruct (reachable_conc_inv w0 w Hq Hr) as (_ & _ & _ & _ & _ & Hs).
  by apply Hs.
Qed.

(** C29. Refinement of the handler: a thread that runs one received
    chunk alone from [recv] ends, within eight steps, in the store,
    replies, current user and loop state of [handle_data], with the lock
    free. *)
Theorem solo_run_refines_handle_data w tid t c cs :
  w_lock w = None -> w_threads w !! tid = Some t -> t_pc t = PIdle -> t_inbox t = c :: cs ->
  let o := handle_data (t_addr t) (w_store w) (t_user t) c in
  exists cm, run_solo w tid 8 = put_thread w tid (iteration_thread t cs o) (step_store o) None cm.
Proof.
  intros Hl Ht Hp Hi o. destruct (wdra_amount c) as [a|] eqn:Hw; [by eapply run_solo_wdra|].
  exists (w_committed w). cbn [run_solo]. rewrite (thread_step_Some _ _ _ Ht).
  unfold thread_step_at. rewrite Hp. unfold idle_step. rewrite Hi, Hw, put_thread_self.
  by rewrite settled_iteration_thread, Hl.
Qed.

(** C35. The lock is always given back: in every world reachable from
    a quiescent one, the thread holding [self.lock], run alone, leaves
    the [with] block within six steps (the check, the read, the store,
    [save_accounts], the reply and the release, or the exception that
    ends the block), so a thread waiting at the lock is never blocked
    for ever by a holder that is scheduled. *)
Theorem lock_always_released w0 w h :
  quiescent w0 -> reachable w0 w -> w_lock w = Some h -> w_lock (run_solo w h 6) = None.
Proof.
  intros Hq Hr Hl. destruct (reachable_conc_inv w0 w Hq Hr) as [Hinv _].
  destruct (proj2 Hinv h Hl) as (t & Ht & _).
  apply (run_solo_releases 6 w h t Hinv Hl Ht (cs_rank_le _)).
Qed.

(** C36. No deadlock: in every world reachable from a quiescent one in
    which some thread still has something to do, some thread can take a
    step (the lock holder when the lock is held, else that thread). *)
Theorem no_deadlock w0 w tid t :
  quiescent w0 -> reachable w0 w -> w_threads w !! tid = Some t -> runnable t = true ->
  exists j w', thread_step w j = Some w'.
Proof.
  intros Hq Hr Ht Hrun. destruct (reachable_conc_inv w0 w Hq Hr) as [Hinv _].
  destruct (w_lock w) as [h|] eqn:Hl.
  - destruct (proj2 Hinv h Hl) as (th & Hth & _).
    destruct (holder_step w h th Hinv Hl Hth) as (w' & _ & Hs & _). eauto.
  - destruct (thread_step_progress w tid t Ht Hrun) as [w' Hs]; [done|]. eauto.
Qed.


(** C37. A save that fails in the write leaves a server that cannot
    start again: [open(ACCOUNTS_FILE, 'w')] truncated the file and
    [json.dump] failed, so the debit is in memory only, the client gets
    no reply, and the next [BankServer()] raises in [load_accounts]
    ([json.load] of a truncated file) before it listens.  The ledger is
    lost until the file is repaired by hand. *)
Theorem failed_save_blocks_restart addr st u acct c arg rest a mode conns :
  py_split c = "WDRA" :: arg :: rest -> py_float arg = Ok a ->
  accounts st !! u = Some acct -> amt_ge (balance acct) a = true -> fs st = FsWriteFails ->
  exists st', handle_data addr st (Some u) c = SRaise st' [] OSError /\
    accounts st' !! u = Some (set_balance acct (amt_sub (balance acct) a)) /\
    server_main (disk st') mode conns = Raise ValueError.
Proof.
  intros Hc Ha Hu Hge Hfs. step_line Hc.
  rewrite (do_wdra_amount _ _ _ _ _ _ Ha), (withdraw_locked_save_fails _ _ acct)
    by (rewrite ?Hfs; done).
  eexists; split; [reflexivity|]. unfold save_failed. simpl. rewrite Hfs. simpl.
  split; [by rewrite lookup_insert_eq|reflexivity].
Qed.

End ConcurrentProps.

(** ** Witnesses on the two-client race *)

Lemma withdraw_mutual_exclusion_witness :
  exists t0, w_threads (run_schedule race_world race_prefix) !! 0%nat = Some t0 /\
    in_cs (t_pc t0) = true /\ 0%nat = 0%nat.
Proof.
  destruct (w_threads (run_schedule race_world race_prefix) !! 0%nat) as [t0|] eqn:E;
    [|vm_compute in E; discriminate].
  assert (Hin : in_cs (t_pc t0) = true) by (vm_compute in E; by injection E as <-).
  exists t0. split_and!; [done|done|].
  apply (withdraw_mutual_exclusion race_world (run_schedule race_world race_prefix) 0 0 t0 t0);
    [apply initial_world_quiescent | apply run_schedule_reachable, reach_refl | done..].
Defined.

Lemma no_lost_update_witness :
  accounts (w_store race_end) = replay (accounts (w_store race_world)) (w_committed race_end).
Proof.
  apply no_lost_update; [apply initial_world_quiescent | apply run_schedule_reachable, reach_refl].
Defined.

Lemma debits_covered_under_interleaving_witness :
  covered (accounts (w_store race_world)) (w_committed race_end) = true.
Proof.
  apply debits_covered_under_interleaving;
    [apply initial_world_quiescent | apply run_schedule_reachable, reach_refl].
Defined.

Lemma disk_synced_between_saves_witness : synced race_end.
Proof.
  apply (disk_synced_between_saves race_world);
    [apply initial_world_quiescent | reflexivity | reflexivity |
     apply run_schedule_reachable, reach_refl].
Defined.

Lemma solo_run_refines_handle_data_witness :
  let w := run_schedule race_world [0; 0]%nat in
  exists t cm, w_threads w !! 0%nat = Some t /\
    let o := handle_data (t_addr t) (w_store w) (t_user t) "WDRA 60" in
    run_solo w 0 8 = put_thread w 0 (iteration_thread t [] o) (step_store o) None cm.
Proof.
  intros w. destruct (w_threads w !! 0%nat) as [t0|] eqn:E; [|vm_compute in E; discriminate].
  assert (Hp : t_pc t0 = PIdle) by (vm_compute in E; by injection E as <-).
  assert (Hi : t_inbox t0 = ["WDRA 60"]) by (vm_compute in E; by injection E as <-).
  destruct (solo_run_refines_handle_data w 0 t0 "WDRA 60" [] eq_refl E Hp Hi) as [cm Hcm].
  exists t0, cm. split; [reflexivity|exact Hcm].
Defined.

Lemma lock_always_released_witness :
  w_lock (run_schedule race_world race_prefix) = Some 0%nat /\
  w_lock (run_solo (run_schedule race_world race_prefix) 0 6) = None.
Proof.
  assert (Hl : w_lock (run_schedule race_world race_prefix) = Some 0%nat) by (vm_compute; reflexivity).
  split; [exact Hl|].
  apply (lock_always_released race_world);
    [apply initial_world_quiescent | apply run_schedule_reachable, reach_refl | exact Hl].
Defined.

Lemma no_deadlock_witness :
  exists t0, w_threads (run_schedule race_world race_prefix) !! 1%nat = Some t0 /\
    runnable t0 = true /\ exists j w', thread_step (run_schedule race_world race_prefix) j = Some w'.
Proof.
  destruct (w_threads (run_schedule race_world race_prefix) !! 1%nat) as [t0|] eqn:E;
    [|vm_compute in E; discriminate].
  assert (Hrun : runnable t0 = true) by (vm_compute in E; by injection E as <-).
  exists t0. split_and!; [done|done|].
  apply (no_deadlock race_world _ 1 t0);
    [apply initial_world_quiescent | apply run_schedule_reachable, reach_refl | done | done].
Defined.


Lemma failed_save_blocks_restart_witness :
  exists st', handle_data "a" demo_store_full_disk (Some "alice") "WDRA 40" = SRaise st' [] OSError /\
    accounts st' !! "alice" = Some (set_balance (mkAccount "secret" 100%Q) (amt_sub 100%Q (Q_of_finite false 40 0))) /\
    server_main (disk st') FsOk [] = Raise ValueError.
Proof.
  apply (failed_save_blocks_restart "a" demo_store_full_disk "alice" (mkAccount "secret" 100%Q)
           "WDRA 40" "40" [] (Q_of_finite false 40 0) FsOk []); vm_compute; reflexivity.
Defined.

