(* ===== verification/FloatSub.v ===== *)
(** * FloatSub: what [balance -= amount] does on binary64 floats

    Line 71 of src/code/server.py, [self.accounts[current_user]['balance']
    -= amount], is a binary64 subtraction, which Rocq's primitive floats
    compute and [FloatAxioms.sub_spec] relates to [SpecFloat.SFsub]:
    the exact difference of the two floats, aligned at the smaller
    exponent ([shl_align]), rounded to nearest-even by
    [binary_normalize] / [binary_round_aux] (a right shift [shr] to the
    format's exponent [fexp], then [round_nearest_even]).  This file
    proves the two facts of that rounding the withdrawal theorems need,
    by following those definitions:
    - a non-negative exact difference rounds to a non-negative float,
      never a NaN ([normalize_nonneg]); with line 70's check
      [balance >= amount] this keeps [b - a >= 0] for [0 <= a <= b]
      finite ([sub_nonneg]);
    - a difference at least a float [b] rounds to a float at least [b]
      ([normalize_ge]); so [b - a >= b] when [a < 0] ([sub_neg_ge]).
    The only facts taken about floats are Rocq's axioms of the
    primitive operations ([leb_spec], [ltb_spec], [sub_spec],
    [Prim2SF_valid]). *)

From Stdlib Require Import Bool ZArith Lia Floats.

Local Open Scope Z_scope.

(** A result of rounding with sign [s]: a zero, finite or infinite
    float of that sign, never a NaN. *)
Definition signed_as (s : bool) (x : spec_float) : Prop :=
  match x with
  | S754_zero s' | S754_infinity s' | S754_finite s' _ _ => s' = s
  | S754_nan => False
  end.

(** ** Digits, shifts and alignment *)

Lemma digits2_pos_bound p :
  2 ^ (Zpos (digits2_pos p) - 1) <= Zpos p < 2 ^ Zpos (digits2_pos p).
Proof.
  induction p as [p IH|p IH|]; cbn [digits2_pos]; [| |simpl; lia];
    rewrite Pos2Z.inj_succ; [rewrite (Pos2Z.inj_xI p)|rewrite (Pos2Z.inj_xO p)];
    set (d := Zpos (digits2_pos p)) in *;
    assert (Hd : 2 ^ d = 2 * 2 ^ (d - 1))
      by (rewrite <- Z.pow_succ_r by lia; f_equal; lia);
    replace (Z.succ d - 1) with d by lia; rewrite Z.pow_succ_r by lia; lia.
Qed.

Lemma iter_pos_iter {X} (f : X -> X) p x : iter_pos f p x = Pos.iter f x p.
Proof.
  revert x. induction p as [p IH|p IH|]; intros x; cbn [iter_pos]; rewrite ?IH;
    [|reflexivity|reflexivity].
  rewrite !Pos.iter_swap. reflexivity.
Qed.

Lemma shr_1_m r : 0 <= shr_m r -> shr_m (shr_1 r) = shr_m r / 2.
Proof.
  destruct r as [m rr s]; cbn [shr_m]. intros Hm.
  destruct m as [|[p|p|]|p]; cbn [shr_1 shr_m]; try lia; try reflexivity.
  - apply Z.div_unique with 1; [lia|]. rewrite (Pos2Z.inj_xI p). lia.
  - apply Z.div_unique with 0; [lia|]. rewrite (Pos2Z.inj_xO p). lia.
Qed.

Lemma iter_shr_1_m p r :
  0 <= shr_m r -> shr_m (Pos.iter shr_1 r p) = shr_m r / 2 ^ Zpos p.
Proof.
  intros Hr. induction p as [|p IH] using Pos.peano_ind.
  - simpl. apply shr_1_m, Hr.
  - assert (Hp : 0 < 2 ^ Zpos p) by (apply Z.pow_pos_nonneg; lia).
    rewrite Pos.iter_succ, shr_1_m by (rewrite IH; apply Z.div_pos; lia).
    rewrite IH, Z.div_div by lia. f_equal.
    rewrite Pos2Z.inj_succ, Z.pow_succ_r by lia. ring.
Qed.

(** [shr r e n] shifts by [n] when it is positive: the mantissa is
    divided by [2^n] (rounded down) and the exponent grows by [n]. *)
Lemma shr_spec r e n :
  0 <= shr_m r ->
  snd (shr r e n) = e + Z.max 0 n /\ shr_m (fst (shr r e n)) = shr_m r / 2 ^ Z.max 0 n.
Proof.
  intros Hr. destruct n as [|p|p]; cbn [shr fst snd].
  - rewrite Z.div_1_r. split; [lia|reflexivity].
  - rewrite iter_pos_iter, iter_shr_1_m by assumption. split; reflexivity.
  - rewrite Z.div_1_r. split; [lia|reflexivity].
Qed.

Lemma shr_record_of_loc_m m l : shr_m (shr_record_of_loc m l) = m.
Proof. destruct l as [|[]]; reflexivity. Qed.

Lemma round_nearest_even_bound m l : m <= round_nearest_even m l <= m + 1.
Proof. unfold round_nearest_even; destruct l as [|[]]; try destruct (Z.even m); lia. Qed.

Lemma iter_xO p d : Zpos (Pos.iter xO p d) = Zpos p * 2 ^ Zpos d.
Proof.
  induction d as [|d IH] using Pos.peano_ind; [simpl; lia|].
  rewrite Pos.iter_succ, Pos2Z.inj_xO, IH, Pos2Z.inj_succ, Z.pow_succ_r by lia. lia.
Qed.

(** Aligning a mantissa down to exponent [min ex ex'] keeps its value. *)
Lemma shl_align_spec m ex ex' :
  snd (shl_align m ex ex') = Z.min ex ex' /\
  Zpos (fst (shl_align m ex ex')) = Zpos m * 2 ^ (ex - Z.min ex ex').
Proof.
  unfold shl_align. destruct (ex' - ex) as [|d|d] eqn:E; cbn [fst snd].
  - replace (Z.min ex ex') with ex by lia. rewrite Z.sub_diag. split; [reflexivity|lia].
  - replace (Z.min ex ex') with ex by lia. rewrite Z.sub_diag. split; [reflexivity|lia].
  - replace (Z.min ex ex') with ex' by lia. rewrite iter_xO.
    split; [reflexivity|]. do 3 f_equal. lia.
Qed.

(** ** Valid binary64 floats *)

Lemma valid_finite s m e :
  valid_binary (S754_finite s m e) = true ->
  -1074 <= e <= 971 /\ Zpos (digits2_pos m) <= 53 /\ (-1074 < e -> Zpos (digits2_pos m) = 53).
Proof.
  cbn [valid_binary]. unfold bounded, canonical_mantissa, fexp, SpecFloat.emin.
  cbv [prec emax]. rewrite andb_true_iff, Z.eqb_eq, Z.leb_le. lia.
Qed.

Lemma valid_mantissa_bounds s m e :
  valid_binary (S754_finite s m e) = true ->
  Zpos m < 2 ^ 53 /\ (-1074 < e -> 2 ^ 52 <= Zpos m).
Proof.
  intros Hv. destruct (valid_finite _ _ _ Hv) as (He & Hd & Hn).
  pose proof (digits2_pos_bound m) as [Hlo Hhi]. split.
  - eapply Z.lt_le_trans; [exact Hhi|]. apply Z.pow_le_mono_r; lia.
  - intros Hlt. rewrite (Hn Hlt) in Hlo. exact Hlo.
Qed.

(** ** Rounding keeps the sign *)

Lemma shr_fexp_nonneg m e l :
  0 <= m -> 0 <= shr_m (fst (shr_fexp prec emax m e l)).
Proof.
  intros Hm. unfold shr_fexp.
  destruct (shr_spec (shr_record_of_loc m l) e
              (fexp prec emax (Zdigits2 m + e) - e)) as [_ Hs];
    rewrite shr_record_of_loc_m in *; [assumption|].
  rewrite Hs. apply Z.div_pos; [lia|]. apply Z.pow_pos_nonneg; lia.
Qed.

Lemma binary_round_aux_signed s m e l :
  0 <= m -> signed_as s (binary_round_aux prec emax s m e l).
Proof.
  intros Hm. unfold binary_round_aux.
  pose proof (shr_fexp_nonneg m e l Hm) as H1.
  destruct (shr_fexp prec emax m e l) as [r1 e1]. cbn [fst] in H1.
  pose proof (round_nearest_even_bound (shr_m r1) (loc_of_shr_record r1)) as H2.
  pose proof (shr_fexp_nonneg (round_nearest_even (shr_m r1) (loc_of_shr_record r1)) e1 loc_Exact
                ltac:(lia)) as H3.
  destruct (shr_fexp _ _ _ e1 loc_Exact) as [r2 e2]. cbn [fst] in H3.
  destruct (shr_m r2); [reflexivity| |lia]. destruct Z.leb; reflexivity.
Qed.

(** A non-negative exact value rounds to a non-negative float. *)
Lemma normalize_nonneg m e :
  0 <= m -> signed_as false (binary_normalize prec emax m e false).
Proof.
  intros Hm. destruct m as [|p|p]; [reflexivity| |lia]. cbn [binary_normalize].
  unfold binary_round. destruct (shl_align _ _ _). apply binary_round_aux_signed; lia.
Qed.

(** ** Rounding is bounded below by a float below the exact value *)

Lemma div_pow_ge_1 m k :
  0 <= k -> 2 ^ k <= m -> 1 <= m / 2 ^ k.
Proof.
  intros Hk Hm. apply Z.div_le_lower_bound; [apply Z.pow_pos_nonneg; lia|lia].
Qed.

(** A mantissa [m] at exponent [e] whose value is at least the float
    [mb * 2^eb] has at least as many binary digits above [2^0]. *)
Lemma digits_ge mb eb m e :
  e <= eb -> 1 <= Zpos mb -> Zpos mb * 2 ^ (eb - e) <= m ->
  Zpos (digits2_pos mb) + eb <= Zdigits2 m + e.
Proof.
  intros He Hmb Hm. destruct m as [|p|p]; [nia| |nia]. cbn [Zdigits2].
  pose proof (digits2_pos_bound mb) as [Hb _]. pose proof (digits2_pos_bound p) as [_ Hp].
  assert (Hpow : 2 ^ (Zpos (digits2_pos mb) - 1 + (eb - e)) < 2 ^ Zpos (digits2_pos p)).
  { rewrite Z.pow_add_r by lia.
    pose proof (Z.pow_pos_nonneg 2 (eb - e) ltac:(lia) ltac:(lia)). nia. }
  apply Z.pow_lt_mono_r_iff in Hpow; lia.
Qed.

(** [fexp] gives a valid float's own exponent back, and is monotone. *)
Lemma fexp_valid s mb eb :
  valid_binary (S754_finite s mb eb) = true ->
  fexp prec emax (Zpos (digits2_pos mb) + eb) = eb.
Proof.
  cbn [valid_binary]. unfold bounded, canonical_mantissa.
  rewrite andb_true_iff, Z.eqb_eq. tauto.
Qed.

Lemma fexp_mono x y : x <= y -> fexp prec emax x <= fexp prec emax y.
Proof. unfold fexp. lia. Qed.

Lemma fexp_bounds x : -1074 <= fexp prec emax x /\ x - 53 <= fexp prec emax x.
Proof. unfold fexp, SpecFloat.emin. cbv [prec emax]. lia. Qed.

(** The first shift of [binary_round_aux]: exponent [e1] at least the
    float's exponent, mantissa at least 1, and at least the float's
    mantissa when the exponents agree. *)
Lemma first_shift_ge mb eb m e :
  valid_binary (S754_finite false mb eb) = true ->
  e <= eb -> Zpos mb * 2 ^ (eb - e) <= m ->
  let r := shr_fexp prec emax m e loc_Exact in
  eb <= snd r /\ 1 <= shr_m (fst r) /\ (snd r = eb -> Zpos mb <= shr_m (fst r)).
Proof.
  intros Hv He Hm r. subst r. unfold shr_fexp.
  pose proof (fexp_valid _ _ _ Hv) as Hf.
  pose proof (digits_ge mb eb m e He ltac:(lia) Hm) as Hd.
  pose proof (fexp_mono _ _ Hd) as Hmono. rewrite Hf in Hmono.
  pose proof (Z.pow_pos_nonneg 2 (eb - e) ltac:(lia) ltac:(lia)).
  assert (Hm0 : 0 < m) by nia.
  destruct (shr_spec (shr_record_of_loc m loc_Exact) e (fexp prec emax (Zdigits2 m + e) - e))
    as [Hs1 Hs2]; rewrite shr_record_of_loc_m in *; [lia|].
  rewrite Hs1, Hs2. split; [lia|]. split.
  - destruct m as [|p|p]; [lia| |lia]. cbn [Zdigits2] in *.
    pose proof (digits2_pos_bound p) as [Hp _].
    pose proof (fexp_bounds (Zpos (digits2_pos p) + e)) as [Hlo _].
    destruct (valid_finite _ _ _ Hv) as (Heb & _).
    apply div_pow_ge_1; [lia|].
    eapply Z.le_trans; [|exact Hp]. apply Z.pow_le_mono_r; [lia|].
    unfold fexp, SpecFloat.emin in *. cbv [prec emax] in *. lia.
  - intros Heq. apply Z.div_le_lower_bound; [apply Z.pow_pos_nonneg; lia|].
    replace (Z.max 0 (fexp prec emax (Zdigits2 m + e) - e)) with (eb - e) by lia. lia.
Qed.

(** The second shift of [binary_round_aux] (renormalising after a
    carry) keeps a mantissa of at least 1, so the rounded value of a
    mantissa at least a float's is at least that float. *)
Lemma binary_round_aux_ge mb eb m e :
  valid_binary (S754_finite false mb eb) = true ->
  e <= eb -> Zpos mb * 2 ^ (eb - e) <= m ->
  SFleb (S754_finite false mb eb) (binary_round_aux prec emax false m e loc_Exact) = true.
Proof.
  intros Hv He Hm. unfold binary_round_aux.
  pose proof (first_shift_ge mb eb m e Hv He Hm) as (H1 & H2 & H3).
  destruct (shr_fexp prec emax m e loc_Exact) as [r1 e1]. cbn [fst snd] in *.
  pose proof (round_nearest_even_bound (shr_m r1) (loc_of_shr_record r1)) as Hr.
  set (m1 := round_nearest_even (shr_m r1) (loc_of_shr_record r1)) in *.
  destruct (valid_finite _ _ _ Hv) as (Heb & _).
  unfold shr_fexp.
  destruct (shr_spec (shr_record_of_loc m1 loc_Exact) e1 (fexp prec emax (Zdigits2 m1 + e1) - e1))
    as [Hs1 Hs2]; rewrite shr_record_of_loc_m in *; [lia|].
  destruct (shr _ e1 _) as [r2 e2]. cbn [fst snd] in Hs1, Hs2.
  assert (Hn : Z.max 0 (fexp prec emax (Zdigits2 m1 + e1) - e1) <= Zdigits2 m1 - 1 /\
               2 ^ (Zdigits2 m1 - 1) <= m1).
  { destruct m1 as [|q|q]; [lia| |lia]. cbn [Zdigits2].
    pose proof (digits2_pos_bound q) as [Hq _].
    unfold fexp, SpecFloat.emin. cbv [prec emax]. split; [lia|exact Hq]. }
  assert (Hm2 : 1 <= shr_m r2).
  { rewrite Hs2. apply div_pow_ge_1; [lia|]. eapply Z.le_trans; [|apply Hn].
    apply Z.pow_le_mono_r; lia. }
  destruct (shr_m r2) as [|q|q] eqn:Eq2; [lia| |lia].
  destruct (Z.leb e2 (emax - prec)); [|reflexivity].
  unfold SFleb, SFcompare. destruct (Z.compare_spec eb e2) as [Hq|Hq|Hq]; [|reflexivity|lia].
  subst e2. assert (Hz : Z.max 0 (fexp prec emax (Zdigits2 m1 + e1) - e1) = 0) by lia.
  rewrite Hz, Z.div_1_r in Hs2.
  change (Pos.compare_cont Eq mb q) with (Pos.compare mb q).
  destruct (Pos.compare_spec mb q); [reflexivity|reflexivity|lia].
Qed.

(** A positive exact value at least a positive float rounds to a float
    at least that float. *)
Lemma normalize_ge mb eb p e :
  valid_binary (S754_finite false mb eb) = true ->
  e <= eb -> Zpos mb * 2 ^ (eb - e) <= Zpos p ->
  SFleb (S754_finite false mb eb) (binary_normalize prec emax (Zpos p) e false) = true.
Proof.
  intros Hv He Hp. cbn [binary_normalize]. unfold binary_round.
  destruct (shl_align_spec p e (fexp prec emax (Zpos (digits2_pos p) + e))) as [Hs Hm].
  destruct (shl_align _ _ _) as [mz ez]. cbn [fst snd] in Hs, Hm. subst ez.
  apply binary_round_aux_ge; [exact Hv|lia|]. rewrite Hm.
  set (k := Z.min e (fexp prec emax (Zpos (digits2_pos p) + e))).
  replace (eb - k) with ((eb - e) + (e - k)) by lia.
  rewrite Z.pow_add_r by lia.
  pose proof (Z.pow_pos_nonneg 2 (e - k) ltac:(lia) ltac:(lia)). nia.
Qed.

(** ** Subtraction *)

Lemma signed_nonneg x : signed_as false x -> SFleb (S754_zero false) x = true.
Proof. destruct x as [s|s| |s m e]; cbn; intros H; try subst s; try contradiction; reflexivity. Qed.

(** Two positive floats compared by [SFcompare] compare as their
    mantissas aligned at the smaller exponent. *)
Lemma aligned_le ma ea mb eb :
  valid_binary (S754_finite false ma ea) = true -> valid_binary (S754_finite false mb eb) = true ->
  SFleb (S754_finite false ma ea) (S754_finite false mb eb) = true ->
  Zpos ma * 2 ^ (ea - Z.min eb ea) <= Zpos mb * 2 ^ (eb - Z.min eb ea).
Proof.
  intros Hva Hvb. unfold SFleb, SFcompare.
  destruct (valid_finite _ _ _ Hva) as (Hea & _). destruct (valid_mantissa_bounds _ _ _ Hva) as [Ha _].
  destruct (valid_mantissa_bounds _ _ _ Hvb) as [_ Hb].
  destruct (Z.compare_spec ea eb) as [He|He|He]; intros Hc; [|clear Hc|discriminate].
  - subst ea. rewrite Z.min_id, Z.sub_diag, Z.pow_0_r.
    change (Pos.compare_cont Eq ma mb) with (Pos.compare ma mb) in Hc.
    destruct (Pos.compare_spec ma mb); try discriminate; lia.
  - replace (Z.min eb ea) with ea by lia. rewrite Z.sub_diag, Z.pow_0_r.
    assert (H2 : 2 ^ 1 <= 2 ^ (eb - ea)) by (apply Z.pow_le_mono_r; lia).
    specialize (Hb ltac:(lia)).
    assert (Zpos mb * 2 ^ 1 <= Zpos mb * 2 ^ (eb - ea)) by (apply Z.mul_le_mono_nonneg_l; lia).
    rewrite Z.pow_1_r in *. cbn in Ha, Hb. lia.
Qed.

(** Line 71 after line 70's check: [0 <= a <= b] with [a] not [inf]
    gives [b - a >= 0] (a NaN [a] fails the check). *)
Lemma SFsub_nonneg b a :
  valid_binary b = true -> valid_binary a = true ->
  SFleb (S754_zero false) b = true -> SFltb a (S754_zero false) = false ->
  a <> S754_infinity false -> SFleb a b = true ->
  SFleb (S754_zero false) (SF64sub b a) = true.
Proof.
  intros Hvb Hva Hb Ha Hinf Hab. unfold SF64sub.
  destruct b as [sb|sb| |sb mb eb]; destruct a as [sa|sa| |sa ma ea];
    try destruct sb; try destruct sa; cbn in Hb, Ha, Hab |- *;
    try discriminate; try reflexivity; try congruence.
  apply signed_nonneg, normalize_nonneg.
  pose proof (aligned_le ma ea mb eb Hva Hvb Hab).
  destruct (shl_align_spec mb eb (Z.min eb ea)) as [_ Hmb].
  destruct (shl_align_spec ma ea (Z.min eb ea)) as [_ Hma].
  rewrite (Z.min_r ea (Z.min eb ea)) in Hma by lia.
  rewrite (Z.min_r eb (Z.min eb ea)) in Hmb by lia.
  match goal with |- context [Z.pos_sub ?x ?y] => change (Z.pos_sub x y) with (Zpos x - Zpos y) end.
  lia.
Qed.

(** A negative amount passes line 70's check against a non-negative
    balance, and line 71 then leaves at least the balance. *)
Lemma SFsub_neg_ge b a :
  valid_binary b = true -> valid_binary a = true ->
  SFleb (S754_zero false) b = true -> SFltb a (S754_zero false) = true ->
  SFleb a b = true /\ SFleb b (SF64sub b a) = true.
Proof.
  intros Hvb Hva Hb Ha. unfold SF64sub.
  destruct b as [sb|sb| |sb mb eb]; destruct a as [sa|sa| |sa ma ea];
    try destruct sb; try destruct sa; cbn in Hb, Ha |- *;
    try discriminate; try (split; reflexivity).
  split; [reflexivity|].
  destruct (shl_align_spec mb eb (Z.min eb ea)) as [_ Hmb].
  destruct (shl_align_spec ma ea (Z.min eb ea)) as [_ Hma].
  destruct (shl_align mb eb (Z.min eb ea)) as [pb ?]; destruct (shl_align ma ea (Z.min eb ea)) as [pa ?].
  cbn [fst] in *.
  change (binary_round prec emax false (pb + pa) (Z.min eb ea))
    with (binary_normalize prec emax (Zpos (pb + pa)) (Z.min eb ea) false).
  rewrite (Z.min_r ea (Z.min eb ea)) in Hma by lia.
  rewrite (Z.min_r eb (Z.min eb ea)) in Hmb by lia.
  apply normalize_ge; [exact Hvb|lia|]. rewrite Pos2Z.inj_add. lia.
Qed.

(** ** On Rocq's primitive floats *)

Local Open Scope float_scope.

Lemma Prim2SF_zero : Prim2SF 0 = S754_zero false.
Proof. reflexivity. Qed.

(** [balance -= amount] after [balance >= amount], for a non-negative
    balance and an amount that is not negative and not [inf]. *)
Lemma float_sub_nonneg (b a : float) :
  (0 <=? b) = true -> (a <? 0) = false -> a <> infinity -> (a <=? b) = true ->
  (0 <=? b - a) = true.
Proof.
  rewrite !leb_spec, ltb_spec, sub_spec, Prim2SF_zero. intros Hb Ha Hinf Hab.
  apply SFsub_nonneg; try apply Prim2SF_valid; try assumption.
  intros E. apply Hinf, Prim2SF_inj. rewrite E. reflexivity.
Qed.

(** A negative amount passes [balance >= amount] against a non-negative
    balance, and [balance -= amount] does not lower it. *)
Lemma float_sub_neg (b a : float) :
  (0 <=? b) = true -> (a <? 0) = true -> (a <=? b) = true /\ (b <=? b - a) = true.
Proof.
  rewrite !leb_spec, ltb_spec, sub_spec, Prim2SF_zero. intros Hb Ha.
  apply SFsub_neg_ge; try apply Prim2SF_valid; assumption.
Qed.
