(* ===== verification/Float64.v ===== *)
(** * Float64: the server on Python floats

    [float(parts[1])] (server.py line 68) produces a Python [float], an
    IEEE 754 binary64 number; [json.load] gives floats for the balances
    of [accounts.json] written with a fraction (["balance": 100.0]);
    [>=] and [-=] (lines 70-71) are the IEEE comparison and rounded
    subtraction; [str(x)] in [f"AMNT:{balance}"] (line 64) and in the
    log line (line 74) is [repr(x)].  This file gives the instance
    [float_amount] of [Amount] on Rocq's primitive floats:
    - [float_of_literal]: CPython's [float()] rounds the decimal value
      of the text to the nearest binary64 (ties to even), overflowing
      to [inf]; [sf_of_decimal] computes that rounding exactly with the
      rounding functions of [SpecFloat] ([binary_round] for an integer
      value, the quotient core [SFdiv_core_binary] and [binary_round_aux]
      for [m / 10^k]);
    - [py_repr]: CPython's [repr], the shortest decimal string that
      reads back as the same float (the nearest such when two have the
      same length), written in positional notation when the decimal
      point position is in [-3 .. 16] and in scientific notation
      otherwise ([format_repr]);
    - [>=] is [PrimFloat.leb] with its arguments swapped (false when
      either side is a NaN), [-] is [PrimFloat.sub].
    The theorems: the invariant that balances stay non-negative, with
    the amounts it needs excluded ([inf], whose [inf - inf] is a NaN),
    and that a negative amount is always paid out and never lowers the
    balance, both from [FloatSub]'s facts on [SFsub]; the examples show
    the spec's scenario and where binary64 departs from exact decimal
    arithmetic. *)

From S2P Require Import Prelude Wire Amount Ledger Handler FloatSub.
From Stdlib Require Import Floats ZArith String.
From stdpp Require Import pretty.

Open Scope string_scope.

(** ** [float()]: decimal to binary64, correctly rounded *)

(** [m * 10^e] rounded to binary64, with sign [neg]. *)
Definition sf_of_decimal (neg : bool) (m : N) (e : Z) : spec_float :=
  match m with
  | N0 => S754_zero neg
  | Npos p =>
      match e with
      | Z0 => binary_round prec emax neg p 0
      | Zpos k => binary_round prec emax neg (p * 10 ^ k)%positive 0
      | Zneg k =>
          let '(q, e', l) := SFdiv_core_binary prec emax (Zpos p) 0 (10 ^ Zpos k)%Z 0 in
          binary_round_aux prec emax neg q e' l
      end
  end.

(** Drop the trailing zeros of the digits [d] of [d * 10^k], at most [n]. *)
Fixpoint strip_zeros (d k : Z) (n : nat) : Z * Z :=
  match n with
  | O => (d, k)
  | S n' =>
      if (0 <? d)%Z && (d mod 10 =? 0)%Z then strip_zeros (d / 10) (k + 1) n' else (d, k)
  end.

(** Enough steps for every trailing zero of [d]: [log2 d + 1]. *)
Definition zfuel (d : Z) : nat := S (Z.to_nat (Z.log2 d)).

(** The significand without its trailing zeros, as [_Py_dg_strtod]
    strips them before rounding. *)
Definition norm_decimal (m : N) (e : Z) : N * Z :=
  let '(d, k) := strip_zeros (Z.of_N m) e (zfuel (Z.of_N m)) in (Z.to_N d, k).

(** The float of a lexed literal: the magnitude rounded, then the sign
    ([float("-0")] is [-0.0]); [inf], [infinity] and [nan] in any case. *)
Definition float_of_literal (l : literal) : float :=
  match l with
  | LFinite neg m e =>
      let '(m', e') := norm_decimal m e in
      let f := SF2Prim (sf_of_decimal false m' e') in
      if neg then PrimFloat.opp f else f
  | LInf neg => if neg then neg_infinity else infinity
  | LNaN => nan
  end.

(** ** [repr()]: the shortest round-tripping decimal *)

(** The number of decimal digits of a positive integer. *)
Definition ndigits (n : Z) : Z := Z.of_nat (String.length (pretty n)).

(** [num / den >= 10^d] *)
Definition ge_pow10 (num den d : Z) : bool :=
  if (0 <=? d)%Z then (den * 10 ^ d <=? num)%Z else (den <=? num * 10 ^ (- d))%Z.

(** The decimal point position [decpt] of [num / den > 0]:
    [10^(decpt-1) <= num / den < 10^decpt]. *)
Definition decpt_of (num den : Z) : Z :=
  let d := (ndigits num - ndigits den)%Z in if ge_pow10 num den d then (d + 1)%Z else d.

(** [floor(num / den / 10^k)] *)
Definition scaled_floor (num den k : Z) : Z :=
  if (0 <=? k)%Z then (num / (den * 10 ^ k))%Z else (num * 10 ^ (- k) / den)%Z.

(** [num / den] against the midpoint [(d + 1/2) * 10^k]. *)
Definition cmp_mid (num den d k : Z) : comparison :=
  if (0 <=? k)%Z then Z.compare (2 * num) ((2 * d + 1) * 10 ^ k * den)
  else Z.compare (2 * num * 10 ^ (- k)) ((2 * d + 1) * den).

(** [d * 10^k] reads back as [x]. *)
Definition roundtrips (x : float) (d k : Z) : bool :=
  match d with
  | Zpos p => PrimFloat.Leibniz.eqb (float_of_literal (LFinite false (Npos p) k)) x
  | _ => false
  end.

(** The [p]-digit decimal nearest to [x = num / den] (ties to even). *)
Definition nearest_at (num den dp p : Z) : Z * Z :=
  let k := (dp - p)%Z in
  let lo := scaled_floor num den k in
  match cmp_mid num den lo k with
  | Lt => (lo, k)
  | Gt => (lo + 1, k)%Z
  | Eq => if Z.even lo then (lo, k) else (lo + 1, k)%Z
  end.

(** The [p]-digit decimals around [x] that read back as [x]: the
    nearest when both do.  Any other [p]-digit decimal is farther from
    [x] than one of these on its side. *)
Definition candidate (x : float) (num den dp p : Z) : option (Z * Z) :=
  let k := (dp - p)%Z in
  let lo := scaled_floor num den k in
  match roundtrips x lo k, roundtrips x (lo + 1) k with
  | true, true => Some (nearest_at num den dp p)
  | true, false => Some (lo, k)
  | false, true => Some (lo + 1, k)%Z
  | false, false => None
  end.

(** Try [p], [p + 1], ... digits, [n] lengths in all. *)
Fixpoint search (x : float) (num den dp p : Z) (n : nat) : option (Z * Z) :=
  match n with
  | O => None
  | S n' =>
      match candidate x num den dp p with
      | Some c => Some c
      | None => search x num den dp (p + 1) n'
      end
  end.

(** The shortest decimal [d * 10^k] that reads back as [x = m * 2^e > 0],
    among 1 to 17 digits. *)
Definition shortest_search (x : float) (m : positive) (e : Z) : option (Z * Z) :=
  let num := if (0 <=? e)%Z then (Zpos m * 2 ^ e)%Z else Zpos m in
  let den := if (0 <=? e)%Z then 1%Z else (2 ^ (- e))%Z in
  search x num den (decpt_of num den) 1 17.

(** The digits [d] and power [k] of [x]: the shortest round-tripping
    decimal (17 digits always suffice for binary64; the nearest 17-digit
    decimal keeps the function total), without trailing zeros. *)
Definition shortest_digits (x : float) (m : positive) (e : Z) : Z * Z :=
  let num := if (0 <=? e)%Z then (Zpos m * 2 ^ e)%Z else Zpos m in
  let den := if (0 <=? e)%Z then 1%Z else (2 ^ (- e))%Z in
  let '(d, k) := default (nearest_at num den (decpt_of num den) 17) (shortest_search x m e) in
  strip_zeros d k (zfuel d).

Fixpoint zeros (n : nat) : string :=
  match n with O => "" | S n' => "0" ++ zeros n' end.

(** The exponent of scientific notation: a sign and at least two digits. *)
Definition exp_text (e : Z) : string :=
  (if (e <? 0)%Z then "-" else "+") ++ (if (Z.abs e <? 10)%Z then "0" else "") ++
    pretty (Z.abs e).

(** [repr]'s layout of the digits [ds] with the decimal point after
    [decpt] digits ([format_float_short] with mode ['r']). *)
Definition format_repr (ds : string) (decpt : Z) : string :=
  let n := String.length ds in
  if (decpt <=? -4)%Z || (16 <? decpt)%Z then
    String.substring 0 1 ds ++
      (if (1 <? n)%nat then "." ++ String.substring 1 (n - 1) ds else "") ++
      "e" ++ exp_text (decpt - 1)
  else if (decpt <=? 0)%Z then "0." ++ zeros (Z.to_nat (- decpt)) ++ ds
  else if (Z.of_nat n <=? decpt)%Z then ds ++ zeros (Z.to_nat decpt - n) ++ ".0"
  else String.substring 0 (Z.to_nat decpt) ds ++ "." ++
       String.substring (Z.to_nat decpt) (n - Z.to_nat decpt) ds.

(** [repr(x)] *)
Definition py_repr (x : float) : string :=
  match Prim2SF x with
  | S754_nan => "nan"
  | S754_infinity s => if s then "-inf" else "inf"
  | S754_zero s => if s then "-0.0" else "0.0"
  | S754_finite s m e =>
      let '(d, k) := shortest_digits (PrimFloat.abs x) m e in
      let ds := pretty d in
      (if s then "-" else "") ++ format_repr ds (k + Z.of_nat (String.length ds))
  end.

#[export] Instance float_amount : Amount float := {
  amt_ge x y := PrimFloat.leb y x;
  amt_sub x y := PrimFloat.sub x y;
  amt_of_literal l := Some (float_of_literal l);
  amt_str := py_repr
}.

(** The amounts for which line 71 keeps a balance non-negative: not
    negative (a NaN is allowed, since it fails line 70's check) and not
    [inf]. *)
Definition float_safe (a : float) : Prop := (a <? 0)%float = false /\ a <> infinity.

(** ** Fixtures *)

(** The account of the specification's scenario: [alice], password
    [secret], balance [100.00] in the file. *)
Definition alice_store : Store float :=
  let m := {[ "alice" := mkAccount "secret" 100%float ]} in mkStore m (DiskData m) FsOk [].

(** The scenario of the specification, section 8. *)
Definition spec_scenario : list string :=
  ["HELO alice"; "PASS secret"; "BALA"; "WDRA 40"; "BALA"; "WDRA 1000"; "BALA"; "BYE"].

(** Three withdrawals of [100 / 3], each typed as [repr(100 / 3)], then
    a balance query. *)
Definition thirds_session : list string :=
  ["HELO alice"; "PASS secret"; "WDRA 33.333333333333336"; "WDRA 33.333333333333336";
   "WDRA 33.333333333333336"; "BALA"].

(** A session that withdraws [-inf], then [inf], then [1]. *)
Definition infinite_session : list string :=
  ["HELO alice"; "PASS secret"; "WDRA -inf"; "BALA"; "WDRA inf"; "BALA"; "WDRA 1"; "BALA"].

(** ** Lemmas *)

(** [Prim2SF] tells floats apart. *)
Lemma Prim2SF_inj x y : Prim2SF x = Prim2SF y -> x = y.
Proof. intros Hxy. by rewrite <- (SF2Prim_Prim2SF x), Hxy, SF2Prim_Prim2SF. Qed.

Lemma float_amt_zero : @amt_zero float float_amount = Some 0%float.
Proof. vm_compute. reflexivity. Qed.

Lemma float_nonneg_iff (x : float) : amt_nonneg x <-> (0 <=? x)%float = true.
Proof.
  unfold amt_nonneg. rewrite float_amt_zero. split.
  - by intros (z & [= <-] & Hz).
  - intros Hx. by eexists.
Qed.

#[export] Instance float_amount_laws : AmountLaws float float_safe.
Proof.
  intros b a Hb [Ha Hinf] Hab. apply float_nonneg_iff in Hb. apply float_nonneg_iff.
  by apply float_sub_nonneg.
Qed.

Lemma float_balances_nonneg_iff (m : gmap string (Account float)) :
  balances_nonneg m <-> map_Forall (fun _ acct => (0 <=? balance acct)%float = true) m.
Proof.
  unfold balances_nonneg. split; intros H; (eapply map_Forall_impl; [exact H|]);
    intros ? ? Hx; by apply float_nonneg_iff.
Qed.

(** ** Properties *)

(** The scenario of the specification on Python floats: with
    [alice] holding [100.0], the session HELO, PASS, BALA, WDRA 40, BALA,
    WDRA 1000, BALA, BYE receives exactly the replies the specification
    lists ([AMNT:100.0], then [AMNT:60.0] twice), ends closed, and
    leaves [60.0] in memory and in [accounts.json]. *)
Example spec_scenario_on_floats :
  let r := handle_client "10.0.0.1" alice_store spec_scenario in
  run_sent r = [AUTH_REQUIRE; OK; "AMNT:100.0"; OK; "AMNT:60.0"; ERROR; "AMNT:60.0"; BYE] /\
  run_end r = Closed /\
  accounts (run_store r) = {[ "alice" := mkAccount "secret" 60%float ]} /\
  disk (run_store r) = DiskData (accounts (run_store r)).
Proof. vm_compute. repeat split. Qed.

(** Three withdrawals of [B / 3] do not exhaust [B]: from
    [100.0], the amount [33.333333333333336] ([repr(100 / 3)]) is paid
    twice, the third withdrawal is refused although three thirds make
    the balance, and [33.33333333333332] is left, where the
    specification requires a final balance of 0. *)
Example thirds_do_not_exhaust_balance :
  run_sent (handle_client "10.0.0.1" alice_store thirds_session) =
    [AUTH_REQUIRE; OK; OK; OK; ERROR; "AMNT:33.33333333333332"].
Proof. vm_compute. reflexivity. Qed.

(** Non-finite amounts poison the ledger: [WDRA -inf] passes the
    check and makes the balance [inf]; [WDRA inf] then passes too and
    makes it [inf - inf], a NaN, after which every withdrawal is
    refused; each state is saved to [accounts.json]. *)
Example infinite_amounts_poison_balance :
  let r := handle_client "10.0.0.1" alice_store infinite_session in
  run_sent r = [AUTH_REQUIRE; OK; OK; "AMNT:inf"; OK; "AMNT:nan"; ERROR; "AMNT:nan"] /\
  disk (run_store r) = DiskData (accounts (run_store r)).
Proof. vm_compute. split; reflexivity. Qed.

(** C5. Balances stay non-negative on Python floats: over any
    sequence of received chunks in which no word parses as a negative
    number or as [inf], a store whose balances are all [>= 0] keeps
    them [>= 0] (in particular never a NaN).  The exclusion of [inf]
    is needed: [WDRA inf] on a balance [inf] passes [>=] and leaves
    [inf - inf], a NaN.  A NaN amount is allowed: it fails line 70. *)
Theorem balances_stay_nonneg addr (st : Store float) cs :
  map_Forall (fun _ acct => (0 <=? balance acct)%float = true) (accounts st) ->
  Forall (fun c => forall w a, w ∈ py_split c -> @py_float float float_amount w = Ok a ->
                               (a <? 0)%float = false /\ a <> infinity) cs ->
  map_Forall (fun _ acct => (0 <=? balance acct)%float = true)
    (accounts (run_store (handle_client addr st cs))).
Proof.
  intros Hb Hcs. apply float_balances_nonneg_iff.
  apply (run_balances_nonneg float_safe); [by apply float_balances_nonneg_iff|exact Hcs].
Qed.

(** C6. A negative withdrawal is always paid out and never lowers the
    balance: on a non-negative balance, [WDRA] of a negative amount
    passes [balance >= amount], replies [525 OK!] and stores
    [balance - amount], which is at least the old balance.  (Not always
    more: [1e20 - (-1)] rounds back to [1e20].) *)
Theorem negative_withdrawal_credits addr (st : Store float) u acct c arg rest (a : float) :
  py_split c = "WDRA" :: arg :: rest -> @py_float float float_amount arg = Ok a ->
  accounts st !! u = Some acct -> (0 <=? balance acct)%float = true -> (a <? 0)%float = true ->
  fs st = FsOk ->
  exists st' acct', handle_data addr st (Some u) c = SContinue st' (Some u) [OK] /\
    accounts st' !! u = Some acct' /\ balance acct' = (balance acct - a)%float /\
    (balance acct <=? balance acct')%float = true.
Proof.
  intros Hc Ha Hu Hb Hneg Hfs.
  destruct (float_sub_neg (balance acct) a Hb Hneg) as [Hge Hup].
  step_line Hc. rewrite (do_wdra_amount _ _ _ _ _ _ Ha), (withdraw_locked_accept _ _ acct) by done.
  do 2 eexists. split; [reflexivity|]. simpl. rewrite lookup_insert_eq. by split_and!.
Qed.

(** ** Witnesses *)

Lemma balances_stay_nonneg_witness :
  map_Forall (fun _ acct => (0 <=? balance acct)%float = true)
    (accounts (run_store (handle_client "10.0.0.1" alice_store ["HELO alice"; "WDRA 40"]))).
Proof.
  apply balances_stay_nonneg.
  - apply map_Forall_singleton. reflexivity.
  - apply Forall_cons_2; [|apply Forall_cons_2; [|apply Forall_nil_2]];
      intros w a Hw Ha; apply list_elem_of_In in Hw; vm_compute in Hw;
      destruct Hw as [<-|[<-|[]]]; vm_compute in Ha; try discriminate.
    injection Ha as <-. split; [reflexivity|]. discriminate.
Defined.

Lemma negative_withdrawal_credits_witness :
  exists st' acct', handle_data "10.0.0.1" alice_store (Some "alice") "WDRA -50" =
                      SContinue st' (Some "alice") [OK] /\
    accounts st' !! "alice" = Some acct' /\ balance acct' = (100 - (-50))%float /\
    (100 <=? balance acct')%float = true.
Proof.
  apply (negative_withdrawal_credits _ _ _ (mkAccount "secret" 100%float) _ "-50" [] (-50)%float);
    reflexivity.
Defined.
