(* ===== verification/FloatRoundtrip.v ===== *)
(** * FloatRoundtrip: [float(repr(x)) == x]

    [json.dump] writes a float balance as [repr(balance)] and
    [json.load] reads it back with [float()]; the reply [AMNT:...] is
    [repr(balance)] too.  This file proves that the text [py_repr]
    produces is read back by [py_float] as the same float, for every
    float whose shortest round-tripping decimal the search of
    [Float64.shortest_search] finds (binary64 needs at most 17 digits;
    the search tries 1 to 17), and for the zeros, infinities and NaN.

    The proof follows the text: the digits of [pretty d] ([digits] and
    their value [dval]), the four layouts of [format_repr] read by the
    lexer of [Amount] ([lex_number], [lex_exponent]), and the
    normalisation of the significand that [float_of_literal] applies
    ([norm_decimal]), which makes the lexed literal equal to the digits
    the search checked. *)

From S2P Require Import Prelude Wire Amount Ledger Handler Float64.
From Stdlib Require Import Floats ZArith String Ascii.
From stdpp Require Import pretty.

(** The value of a digit string read from the left, starting from [acc]. *)
Definition dval (acc : N) (cs : list ascii) : N :=
  fold_left (fun a c => (a * 10 + digit_val c)%N) cs acc.

Abbreviation digits cs := (Forall (fun c => is_digit c = true) cs).

(** Where reading a digit part stops: the end, or a character that is
    neither a digit nor [_]. *)
Definition stops (r : list ascii) : Prop :=
  match r with [] => True | c :: _ => is_digit c = false /\ c <> "_"%char end.

(** The number part and exponent of [r] read as the literal whose
    significand without trailing zeros is [d] and whose power is [k]. *)
Definition lexes_to (r : list ascii) (d k : Z) : Prop :=
  exists m e1 r' e2, lex_number r = Some (m, e1, r') /\ lex_exponent r' = Some e2 /\
    norm_decimal m (e1 + e2) = (Z.to_N d, k).

(** [repr] found the shortest round-tripping decimal of [x] within 17
    digits (always the case for binary64), or [x] is not a non-zero
    finite float. *)
Definition repr_found (x : float) : bool :=
  match Prim2SF x with
  | S754_finite _ m e =>
      match shortest_search (PrimFloat.abs x) m e with Some _ => true | None => false end
  | _ => true
  end.

(** ** Strings as lists of characters *)

Lemma las_app s1 s2 :
  list_ascii_of_string (s1 ++ s2)%string = list_ascii_of_string s1 ++ list_ascii_of_string s2.
Proof. induction s1 as [|c s1 IH]; [done|]. rewrite append_String. simpl. by rewrite IH. Qed.

Lemma las_length s : String.length s = length (list_ascii_of_string s).
Proof. induction s as [|c s IH]; simpl; auto. Qed.

Lemma las_substring n m s :
  list_ascii_of_string (String.substring n m s) = take m (drop n (list_ascii_of_string s)).
Proof.
  revert n m. induction s as [|c s IH]; intros [|n] [|m]; simpl; rewrite ?IH, ?take_nil; auto.
Qed.

Lemma las_zeros n : list_ascii_of_string (zeros n) = repeat "0"%char n.
Proof. induction n as [|n IH]; [done|]. cbn [zeros]. by rewrite las_app, IH. Qed.

(** ** Digit strings *)

Lemma digits_go_app cs r acc n :
  digits cs -> digits_go (cs ++ r) acc n = digits_go r (dval acc cs) (n + length cs).
Proof.
  revert acc n. induction cs as [|c cs IH]; intros acc n Hd; simpl.
  - by rewrite Nat.add_0_r.
  - apply Forall_cons in Hd as [Hc Hd]. rewrite Hc, IH by done. f_equal. lia.
Qed.

(** Reading stops at a character that is neither a digit nor [_]. *)
Lemma digits_go_stop r acc n : stops r -> digits_go r acc n = (acc, n, r).
Proof.
  destruct r as [|c r]; [done|]. intros [Hc Hu]. simpl. rewrite Hc.
  destruct (Ascii.eqb_spec c "_"%char); [done|]. reflexivity.
Qed.

Lemma dval_app acc xs ys : dval acc (xs ++ ys) = dval (dval acc xs) ys.
Proof. apply fold_left_app. Qed.

Lemma dval_acc acc xs : dval acc xs = (acc * 10 ^ N.of_nat (length xs) + dval 0 xs)%N.
Proof.
  revert acc. induction xs as [|c xs IH]; intros acc; simpl; [lia|].
  unfold dval in *. simpl. rewrite IH, (IH (0 * 10 + digit_val c)%N).
  rewrite Nat2N.inj_succ, N.pow_succ_r'. lia.
Qed.

Lemma dval_zeros acc n : dval acc (repeat "0"%char n) = (acc * 10 ^ N.of_nat n)%N.
Proof.
  revert acc. induction n as [|n IH]; intros acc; simpl; [lia|].
  unfold dval in *. simpl. rewrite IH. rewrite Nat2N.inj_succ, N.pow_succ_r'.
  change (digit_val "0") with 0%N. lia.
Qed.

Lemma digits_zeros n : digits (repeat "0"%char n).
Proof. induction n; simpl; constructor; auto. Qed.

Lemma pretty_N_char_digit r :
  (r < 10)%N -> is_digit (pretty_N_char r) = true /\ digit_val (pretty_N_char r) = r.
Proof.
  intros Hr. assert (r = 0 \/ r = 1 \/ r = 2 \/ r = 3 \/ r = 4 \/ r = 5 \/ r = 6 \/
    r = 7 \/ r = 8 \/ r = 9)%N as Hcases by lia.
  repeat destruct Hcases as [->|Hcases]; [..|subst]; split; reflexivity.
Qed.

(** [pretty_N_go x s] writes the digits of [x] in front of [s]. *)
Lemma pretty_N_go_las x s :
  exists cs, list_ascii_of_string (pretty_N_go x s) = cs ++ list_ascii_of_string s /\
    digits cs /\ dval 0 cs = x /\ ((0 < x)%N -> cs <> []).
Proof.
  revert s. induction (N.lt_wf_0 x) as [x _ IH]; intros s.
  destruct (decide (x = 0%N)) as [->|Hx].
  { exists []. rewrite pretty_N_go_0. split_and!; done || lia. }
  rewrite pretty_N_go_step by lia.
  destruct (IH (x `div` 10)%N ltac:(apply N.div_lt; lia)
              (String (pretty_N_char (x `mod` 10)) s)) as (cs & Hl & Hd & Hv & _).
  destruct (pretty_N_char_digit (x `mod` 10)%N) as [Hcd Hcv]; [apply N.mod_lt; lia|].
  exists (cs ++ [pretty_N_char (x `mod` 10)]). split_and!.
  - rewrite Hl, <- app_assoc. reflexivity.
  - apply Forall_app. split; [done|]. by apply Forall_singleton.
  - rewrite dval_app, Hv. unfold dval. simpl. rewrite Hcv.
    rewrite (N.div_mod x 10) at 3 by lia. lia.
  - intros _. by destruct cs.
Qed.

(** The digits of a non-negative integer. *)
Lemma pretty_Z_las (z : Z) :
  (0 <= z)%Z ->
  exists cs, list_ascii_of_string (pretty z) = cs /\ digits cs /\ dval 0 cs = Z.to_N z /\ cs <> [].
Proof.
  intros Hz. destruct z as [|p|p]; [|..|lia].
  - exists ["0"%char]. split_and!; [done|by repeat constructor|done|done].
  - unfold pretty, pretty_Z, pretty, pretty_positive, pretty, pretty_N.
    rewrite decide_False by done.
    destruct (pretty_N_go_las (Npos p) "") as (cs & Hl & Hd & Hv & Hne).
    exists cs. rewrite Hl, app_nil_r. split_and!; try done. apply Hne. lia.
Qed.

(** ** Trailing zeros *)

(** A significand without a trailing zero is left as it is. *)
Lemma strip_zeros_canon d k n : (d mod 10 <> 0)%Z -> strip_zeros d k n = (d, k).
Proof. intros Hd. destruct n; simpl; [done|]. by rewrite (proj2 (Z.eqb_neq _ _) Hd), andb_false_r. Qed.

(** [d * 10^j] loses exactly its [j] zeros when [n] allows [j] steps. *)
Lemma strip_zeros_pow d k j n :
  (0 < d)%Z -> (d mod 10 <> 0)%Z -> (j <= n)%nat ->
  strip_zeros (d * 10 ^ Z.of_nat j) (k - Z.of_nat j) n = (d, k).
Proof.
  intros Hd Hm. revert n. induction j as [|j IH]; intros n Hj.
  { rewrite Z.mul_1_r, Z.sub_0_r. by apply strip_zeros_canon. }
  destruct n as [|n]; [lia|]. simpl.
  assert (H10 : (d * 10 ^ Z.of_nat (S j) = (d * 10 ^ Z.of_nat j) * 10)%Z)
    by (rewrite Nat2Z.inj_succ, Z.pow_succ_r by lia; lia).
  rewrite H10, Z.mod_mul, Z.div_mul by lia.
  assert (Hpos : (0 < d * 10 ^ Z.of_nat j * 10)%Z) by (pose proof (Z.pow_pos_nonneg 10 (Z.of_nat j)); nia).
  rewrite (proj2 (Z.ltb_lt _ _) Hpos). simpl.
  replace (k - Z.of_nat (S j) + 1)%Z with (k - Z.of_nat j)%Z by lia. apply IH. lia.
Qed.

(** [zfuel] gives enough steps for the zeros of [d * 10^j]. *)
Lemma zfuel_pow d j : (0 < d)%Z -> (j <= zfuel (d * 10 ^ Z.of_nat j))%nat.
Proof.
  intros Hd. unfold zfuel.
  assert (Z.of_nat j <= Z.log2 (d * 10 ^ Z.of_nat j))%Z; [|lia].
  rewrite <- (Z.log2_pow2 (Z.of_nat j)) at 1 by lia. apply Z.log2_le_mono.
  transitivity (10 ^ Z.of_nat j)%Z; [apply Z.pow_le_mono_l; lia|].
  pose proof (Z.pow_pos_nonneg 10 (Z.of_nat j)). nia.
Qed.

(** [strip_zeros] with enough steps ends on a significand without a
    trailing zero, of which [d] is a multiple by a power of ten. *)
Lemma strip_zeros_spec d k n :
  (0 < d)%Z -> (Z.log2 d < Z.of_nat n)%Z ->
  exists d' j, strip_zeros d k n = (d', k + Z.of_nat j)%Z /\ (0 < d')%Z /\
    (d' mod 10 <> 0)%Z /\ d = (d' * 10 ^ Z.of_nat j)%Z.
Proof.
  revert d k. induction n as [|n IH]; intros d k Hd Hn; [pose proof (Z.log2_nonneg d); lia|]. simpl.
  destruct (Z.eqb_spec (d mod 10) 0) as [Hm|Hm]; rewrite (proj2 (Z.ltb_lt _ _) Hd); simpl.
  - assert (Hd10 : d = (d / 10 * 10)%Z) by (rewrite (Z.div_mod d 10) at 1 by lia; lia).
    assert (Hq : (0 < d / 10)%Z) by (apply Z.div_str_pos; pose proof (Z.mod_pos_bound d 10); lia).
    destruct (IH (d / 10) (k + 1) Hq)%Z as (d' & j & Hs & Hp & Hm' & He).
    { rewrite Nat2Z.inj_succ in Hn.
      assert (Z.succ (Z.log2 (d / 10)) <= Z.log2 d)%Z; [|lia].
      rewrite <- Z.log2_double by done. apply Z.log2_le_mono. lia. }
    exists d', (S j). rewrite Hs. split_and!; [f_equal; lia|done|done|].
    rewrite Hd10, He, Nat2Z.inj_succ, Z.pow_succ_r by lia. lia.
  - exists d, 0%nat. rewrite Z.add_0_r, Z.mul_1_r. done.
Qed.

(** ** The literal read back *)

Lemma zfuel_log2 d : (Z.log2 d < Z.of_nat (zfuel d))%Z.
Proof. unfold zfuel. pose proof (Z.log2_nonneg d). rewrite Nat2Z.inj_succ, Z2Nat.id; lia. Qed.

(** Trailing zeros do not change the normalised literal. *)
Lemma norm_decimal_pow d k j :
  (0 < d)%Z -> (d mod 10 <> 0)%Z ->
  norm_decimal (Z.to_N (d * 10 ^ Z.of_nat j)) (k - Z.of_nat j) = (Z.to_N d, k).
Proof.
  intros Hd Hm. unfold norm_decimal.
  rewrite Z2N.id by (pose proof (Z.pow_pos_nonneg 10 (Z.of_nat j)); lia).
  by rewrite strip_zeros_pow by auto using zfuel_pow.
Qed.

Lemma norm_decimal_canon d k :
  (0 < d)%Z -> (d mod 10 <> 0)%Z -> norm_decimal (Z.to_N d) k = (Z.to_N d, k).
Proof.
  intros Hd Hm. pose proof (norm_decimal_pow d k 0 Hd Hm) as H0.
  by rewrite Z.mul_1_r, Z.sub_0_r in H0.
Qed.

(** The float of a literal depends on its normalised form only. *)
Lemma float_of_literal_norm s m e m' e' :
  norm_decimal m e = norm_decimal m' e' ->
  float_of_literal (LFinite s m e) = float_of_literal (LFinite s m' e').
Proof. intros Hn. simpl. by rewrite Hn. Qed.

(** What [roundtrips] checked. *)
Lemma roundtrips_spec x d k :
  roundtrips x d k = true -> (0 < d)%Z /\ float_of_literal (LFinite false (Z.to_N d) k) = x.
Proof.
  destruct d as [|p|p]; simpl; try discriminate.
  intros Hx%FloatAxioms.Leibniz.eqb_spec. split; [lia|done].
Qed.

Lemma candidate_roundtrips x num den dp p d k :
  candidate x num den dp p = Some (d, k) -> roundtrips x d k = true.
Proof.
  unfold candidate, nearest_at.
  destruct (roundtrips x _ _) eqn:Hlo, (roundtrips x (_ + 1) _) eqn:Hhi; try discriminate;
    repeat case_match; by intros [= <- <-].
Qed.

Lemma search_roundtrips x num den dp p n d k :
  search x num den dp p n = Some (d, k) -> roundtrips x d k = true.
Proof.
  revert p. induction n as [|n IH]; intros p; simpl; [discriminate|].
  destruct (candidate x num den dp p) as [[d0 k0]|] eqn:Hc.
  - intros [= <- <-]. by eapply candidate_roundtrips.
  - apply IH.
Qed.

(** The digits [py_repr] prints read back as the float, have no
    trailing zero, and are positive. *)
Lemma shortest_digits_spec x m e c :
  shortest_search x m e = Some c ->
  let '(d, k) := shortest_digits x m e in
  (0 < d)%Z /\ (d mod 10 <> 0)%Z /\ float_of_literal (LFinite false (Z.to_N d) k) = x.
Proof.
  intros Hs. unfold shortest_digits. rewrite Hs. destruct c as [d0 k0]. cbn -[strip_zeros zfuel float_of_literal].
  destruct (roundtrips_spec x d0 k0) as [Hd0 Hx]; [by eapply search_roundtrips|].
  destruct (strip_zeros_spec d0 k0 (zfuel d0) Hd0 (zfuel_log2 d0)) as (d & j & -> & Hd & Hm & ->).
  split_and!; [done|done|]. rewrite <- Hx. apply float_of_literal_norm.
  rewrite norm_decimal_canon by done.
  replace k0 with (k0 + Z.of_nat j - Z.of_nat j)%Z at 2 by lia.
  by rewrite norm_decimal_pow.
Qed.

(** ** Reading the digits back *)

Lemma stops_nil : stops [].
Proof. done. Qed.
Lemma stops_char c r : is_digit c = false -> c <> "_"%char -> stops (c :: r).
Proof. by split. Qed.

Lemma opt_digitpart_digits cs r :
  cs <> [] -> digits cs -> stops r -> opt_digitpart (cs ++ r) = (dval 0 cs, length cs, r).
Proof.
  destruct cs as [|c cs']; [done|]. intros _ Hd Hr.
  pose proof (Forall_inv Hd) as Hc. cbv beta in Hc. unfold opt_digitpart. cbn [app]. rewrite Hc.
  change (c :: cs' ++ r) with ((c :: cs') ++ r). by rewrite digits_go_app, digits_go_stop.
Qed.

Lemma opt_digitpart_all cs :
  cs <> [] -> digits cs -> opt_digitpart cs = (dval 0 cs, length cs, []).
Proof. intros ? ?. rewrite <- (app_nil_r cs) at 1. by apply opt_digitpart_digits. Qed.

Lemma dval_take_drop i cs :
  dval 0 cs = (dval 0 (take i cs) * 10 ^ N.of_nat (length (drop i cs)) + dval 0 (drop i cs))%N.
Proof. rewrite <- (take_drop i cs) at 1. by rewrite dval_app, dval_acc. Qed.

(** The layout [ds[:decpt] + "." + ds[decpt:]]. *)
Lemma lexes_split cs d i :
  digits cs -> dval 0 cs = Z.to_N d -> (0 < d)%Z -> (d mod 10 <> 0)%Z ->
  (0 < i < length cs)%nat ->
  lexes_to (take i cs ++ "."%char :: drop i cs) d (Z.of_nat i - Z.of_nat (length cs)).
Proof.
  intros Hd Hv Hpos Hm Hi.
  assert (Ht : take i cs <> []) by (intros Ht; apply (f_equal length) in Ht; rewrite length_take in Ht; simpl in Ht; lia).
  assert (Hdr : drop i cs <> []) by (intros Hz; apply (f_equal length) in Hz; rewrite length_drop in Hz; simpl in Hz; lia).
  exists (Z.to_N d), (- Z.of_nat (length (drop i cs)))%Z, [], 0%Z. unfold lex_number.
  rewrite opt_digitpart_digits by (auto using Forall_take, stops_char).
  rewrite opt_digitpart_all by auto using Forall_drop.
  rewrite length_take, length_drop. split_and!; [|done|].
  - rewrite Nat.min_l by lia.
    destruct (Nat.eqb_spec (i + (length cs - i)) 0); [lia|]. do 3 f_equal.
    rewrite <- Hv, (dval_take_drop i cs), length_drop. lia.
  - rewrite norm_decimal_canon by done. f_equal. lia.
Qed.

(** The layout ["0." + "0" * z + ds]. *)
Lemma lexes_small cs d z :
  digits cs -> cs <> [] -> dval 0 cs = Z.to_N d -> (0 < d)%Z -> (d mod 10 <> 0)%Z ->
  lexes_to ("0"%char :: "."%char :: repeat "0"%char z ++ cs) d
    (- Z.of_nat z - Z.of_nat (length cs)).
Proof.
  intros Hd Hne Hv Hpos Hm.
  exists (Z.to_N d), (- Z.of_nat (z + length cs))%Z, [], 0%Z. unfold lex_number.
  change ("0"%char :: "."%char :: repeat "0"%char z ++ cs)
    with (["0"%char] ++ "."%char :: repeat "0"%char z ++ cs).
  rewrite opt_digitpart_digits by first [done | by apply stops_char | by repeat constructor].
  rewrite opt_digitpart_all
    by first [by intros [_ ?]%app_eq_nil | apply Forall_app_2; [apply digits_zeros|done]].
  rewrite length_app, repeat_length. split_and!; [|done|].
  - simpl. destruct (Nat.eqb_spec (S (z + length cs)) 0); [lia|]. do 3 f_equal.
    rewrite dval_app, dval_zeros, dval_acc, Hv. change (digit_val "0") with 0%N. lia.
  - rewrite norm_decimal_canon by done. f_equal. lia.
Qed.

(** The layout [ds + "0" * z + ".0"]. *)
Lemma lexes_large cs d z :
  digits cs -> cs <> [] -> dval 0 cs = Z.to_N d -> (0 < d)%Z -> (d mod 10 <> 0)%Z ->
  lexes_to ((cs ++ repeat "0"%char z) ++ ["."%char; "0"%char]) d (Z.of_nat z).
Proof.
  intros Hd Hne Hv Hpos Hm.
  exists (Z.to_N (d * 10 ^ Z.of_nat (S z))), (-1)%Z, [], 0%Z. unfold lex_number.
  rewrite opt_digitpart_digits
    by first [by apply stops_char | by intros [? _]%app_eq_nil
             | apply Forall_app_2; [done|apply digits_zeros]].
  rewrite (opt_digitpart_all ["0"%char]) by first [done | repeat constructor].
  split_and!; [|done|].
  - rewrite length_app, repeat_length. simpl.
    destruct (Nat.eqb_spec (length cs + z + 1) 0); [lia|]. do 3 f_equal.
    rewrite dval_app, dval_acc, dval_zeros, Hv, Nat2Z.inj_succ, Z.pow_succ_r by lia.
    rewrite Z2N.inj_mul, Z2N.inj_mul, Z2N.inj_pow by (try apply Z.pow_nonneg; lia).
    rewrite repeat_length. replace (Z.to_N (Z.of_nat z)) with (N.of_nat z) by lia. change (digit_val "0") with 0%N. change (Z.to_N 10) with 10%N.
    rewrite N.pow_1_r. lia.
  - replace (-1 + 0)%Z with (Z.of_nat z - Z.of_nat (S z))%Z by lia.
    by apply norm_decimal_pow.
Qed.

(** The exponent [e+XX] / [e-XX] reads back as [E]. *)
Lemma las_exp_text E :
  exists ecs, list_ascii_of_string (exp_text E) =
    (if (E <? 0)%Z then "-"%char else "+"%char) ::
      (if (Z.abs E <? 10)%Z then ["0"%char] else []) ++ ecs /\
    digits ecs /\ ecs <> [] /\ dval 0 ecs = Z.to_N (Z.abs E).
Proof.
  destruct (pretty_Z_las (Z.abs E)) as (ecs & Hl & Hd & Hv & Hne); [lia|].
  exists ecs. unfold exp_text. rewrite !las_app, Hl.
  split_and!; try done. by destruct (E <? 0)%Z, (Z.abs E <? 10)%Z.
Qed.

(** A non-empty digit string read to its end. *)
Lemma digits_go_all ys :
  digits ys -> digits_go ys 0 0 = (dval 0 ys, length ys, []).
Proof. intros Hd. rewrite <- (app_nil_r ys) at 1. by rewrite digits_go_app, digits_go_stop. Qed.

Lemma lex_exponent_text E : lex_exponent ("e"%char :: list_ascii_of_string (exp_text E)) = Some E.
Proof.
  destruct (las_exp_text E) as (ecs & -> & Hd & Hne & Hv).
  set (pad := if (Z.abs E <? 10)%Z then ["0"%char] else []).
  assert (Hpd : digits (pad ++ ecs)) by (apply Forall_app_2; [by subst pad; case_match; repeat constructor|done]).
  assert (Hpv : dval 0 (pad ++ ecs) = Z.to_N (Z.abs E)) by (rewrite dval_app; subst pad; by case_match).
  cbn [lex_exponent Ascii.eqb orb].
  replace (lex_sign _) with (bool_decide (E < 0)%Z, pad ++ ecs)
    by (unfold lex_sign; destruct (Z.ltb_spec E 0); by rewrite ?bool_decide_true, ?bool_decide_false by lia).
  destruct (pad ++ ecs) as [|c ys] eqn:Hys; [by destruct pad, ecs|].
  rewrite (Forall_inv Hpd), digits_go_all, Hpv by done. f_equal.
  case_bool_decide; lia.
Qed.

(** The layout [d1 + "." + d2...dn + "e" + exponent] ([d1 + "e" + exponent]
    for one digit). *)
Lemma lexes_exp c0 tl d E :
  digits (c0 :: tl) -> dval 0 (c0 :: tl) = Z.to_N d -> (0 < d)%Z -> (d mod 10 <> 0)%Z ->
  lexes_to ([c0] ++ (if (1 <? S (length tl))%nat then "."%char :: tl else []) ++
              "e"%char :: list_ascii_of_string (exp_text E)) d (E + 1 - Z.of_nat (S (length tl))).
Proof.
  intros Hd Hv Hpos Hm. pose proof (Forall_inv Hd) as Hc. pose proof (Forall_inv_tail Hd) as Htl.
  cbv beta in Hc. unfold lexes_to, lex_number.
  destruct tl as [|t tl'].
  - exists (Z.to_N d), 0%Z, ("e"%char :: list_ascii_of_string (exp_text E)), E.
    rewrite opt_digitpart_digits by first [done | by apply stops_char].
    split_and!; [|apply lex_exponent_text|].
    + simpl. by rewrite <- Hv.
    + rewrite norm_decimal_canon by done. f_equal. simpl length. lia.
  - exists (Z.to_N d), (- Z.of_nat (length (t :: tl')))%Z,
      ("e"%char :: list_ascii_of_string (exp_text E)), E.
    replace (1 <? S (length (t :: tl')))%nat with true
      by (symmetry; apply Nat.ltb_lt; simpl; lia).
    cbv iota.
    change (("."%char :: ?Y) ++ ?X) with ("."%char :: Y ++ X).
    rewrite opt_digitpart_digits by first [done | by apply stops_char | by repeat constructor].
    change (t :: tl' ++ ?X) with ((t :: tl') ++ X).
    rewrite opt_digitpart_digits by first [done | by apply stops_char].
    split_and!; [|apply lex_exponent_text|].
    + simpl (length [c0]). destruct (Nat.eqb_spec (1 + length (t :: tl')) 0); [lia|].
      do 3 f_equal. rewrite <- Hv. change (c0 :: t :: tl') with ([c0] ++ t :: tl').
      by rewrite (dval_app 0 [c0]), (dval_acc (dval 0 [c0])).
    + rewrite norm_decimal_canon by done. f_equal. simpl length. lia.
Qed.

(** The characters of [format_repr ds decpt], layout by layout. *)
Lemma las_format_repr ds c0 tl decpt :
  list_ascii_of_string ds = c0 :: tl ->
  let n := S (length tl) in
  list_ascii_of_string (format_repr ds decpt) =
    if (decpt <=? -4)%Z || (16 <? decpt)%Z then
      [c0] ++ (if (1 <? n)%nat then "."%char :: tl else []) ++
        "e"%char :: list_ascii_of_string (exp_text (decpt - 1))
    else if (decpt <=? 0)%Z then
      "0"%char :: "."%char :: repeat "0"%char (Z.to_nat (- decpt)) ++ c0 :: tl
    else if (Z.of_nat n <=? decpt)%Z then
      ((c0 :: tl) ++ repeat "0"%char (Z.to_nat decpt - n)) ++ ["."%char; "0"%char]
    else take (Z.to_nat decpt) (c0 :: tl) ++ "."%char :: drop (Z.to_nat decpt) (c0 :: tl).
Proof.
  intros Hcs n. subst n. unfold format_repr. rewrite las_length, Hcs. cbn [length].
  destruct ((decpt <=? -4)%Z || (16 <? decpt)%Z).
  { rewrite !las_app, !las_substring, Hcs. cbn [drop take]. rewrite take_0.
    destruct (1 <? S (length tl))%nat; [|done].
    rewrite las_app, las_substring, Hcs. simpl. by rewrite Nat.sub_0_r, take_ge. }
  destruct (decpt <=? 0)%Z; [by rewrite !las_app, las_zeros, Hcs|].
  destruct (Z.of_nat (S (length tl)) <=? decpt)%Z; [by rewrite !las_app, las_zeros, Hcs, app_assoc|].
  rewrite !las_app, !las_substring, Hcs, drop_0, (take_ge (drop _ _)); [done|].
  rewrite length_drop. simpl. lia.
Qed.

(** Every layout of [format_repr] reads back as the digits with the
    decimal point after [decpt] of them. *)
Lemma format_repr_lexes ds c0 tl d decpt :
  list_ascii_of_string ds = c0 :: tl ->
  digits (c0 :: tl) -> dval 0 (c0 :: tl) = Z.to_N d -> (0 < d)%Z -> (d mod 10 <> 0)%Z ->
  lexes_to (list_ascii_of_string (format_repr ds decpt)) d (decpt - Z.of_nat (S (length tl))).
Proof.
  intros Hcs Hd Hv Hpos Hm. rewrite (las_format_repr ds c0 tl decpt Hcs).
  destruct ((decpt <=? -4)%Z || (16 <? decpt)%Z).
  { replace (decpt - Z.of_nat (S (length tl)))%Z
      with (decpt - 1 + 1 - Z.of_nat (S (length tl)))%Z by lia.
    by apply lexes_exp. }
  destruct (Z.leb_spec decpt 0) as [Hle|Hgt].
  { replace (decpt - Z.of_nat (S (length tl)))%Z
      with (- Z.of_nat (Z.to_nat (- decpt)) - Z.of_nat (length (c0 :: tl)))%Z by (simpl; lia).
    by apply lexes_small. }
  destruct (Z.leb_spec (Z.of_nat (S (length tl))) decpt) as [Hge|Hlt].
  { replace (decpt - Z.of_nat (S (length tl)))%Z
      with (Z.of_nat (Z.to_nat decpt - S (length tl))) by lia.
    by apply lexes_large. }
  replace (decpt - Z.of_nat (S (length tl)))%Z
    with (Z.of_nat (Z.to_nat decpt) - Z.of_nat (length (c0 :: tl)))%Z by (simpl; lia).
  apply lexes_split; auto. simpl. lia.
Qed.

(** ** The text as [float()] sees it *)

Lemma digit_facts c :
  is_digit c = true ->
  lower c = c /\ is_space c = false /\ c <> "i"%char /\ c <> "n"%char /\
  c <> "+"%char /\ c <> "-"%char.
Proof.
  intros H. destruct c as [[] [] [] [] [] [] [] []]; vm_compute in H; try discriminate H;
    split_and!; (reflexivity || discriminate).
Qed.

Lemma digits_nonspace cs : digits cs -> Forall (fun c => is_space c = false) cs.
Proof. intros Hd. eapply Forall_impl; [exact Hd|]. intros c Hc. by apply digit_facts. Qed.

(** A text without white space is its own [strip()]. *)
Lemma strip_nonspace s : Forall (fun c => is_space c = false) (list_ascii_of_string s) -> strip s = s.
Proof.
  intros Hs. unfold strip. assert (Hl : lstrip s = s).
  { destruct s as [|c s]; [done|]. simpl. by rewrite (Forall_inv Hs). }
  rewrite Hl. clear Hl. induction s as [|c s IH]; [done|].
  simpl in Hs |- *. rewrite (Forall_inv Hs), IH by exact (Forall_inv_tail Hs). done.
Qed.

Lemma exp_text_nonspace E :
  Forall (fun c => is_space c = false) (list_ascii_of_string (exp_text E)).
Proof.
  destruct (las_exp_text E) as (ecs & -> & Hd & _ & _).
  constructor; [by case_match|]. apply Forall_app_2; [case_match; by repeat constructor|].
  by apply digits_nonspace.
Qed.

(** The text of [format_repr] has no white space and starts with a digit. *)
Lemma format_repr_text ds c0 tl decpt :
  list_ascii_of_string ds = c0 :: tl -> digits (c0 :: tl) ->
  Forall (fun c => is_space c = false) (list_ascii_of_string (format_repr ds decpt)) /\
  exists c r, list_ascii_of_string (format_repr ds decpt) = c :: r /\ is_digit c = true.
Proof.
  intros Hcs Hd. pose proof (digits_nonspace _ Hd) as Hn.
  pose proof (Forall_inv Hd) as Hc. cbv beta in Hc.
  rewrite (las_format_repr ds c0 tl decpt Hcs).
  destruct ((decpt <=? -4)%Z || (16 <? decpt)%Z).
  { split; [|by eexists _, _]. apply Forall_app_2; [by constructor; [apply (Forall_inv Hn)|]|].
    apply Forall_app_2; [case_match; [by constructor; [|apply (Forall_inv_tail Hn)]|done]|].
    constructor; [done|apply exp_text_nonspace]. }
  destruct (Z.leb_spec decpt 0) as [Hle|Hgt].
  { split; [|by eexists _, _]. repeat constructor.
    apply Forall_app_2; [apply digits_nonspace, digits_zeros|done]. }
  destruct (Z.of_nat (S (length tl)) <=? decpt)%Z.
  { split; [|by eexists _, _]. apply Forall_app_2; [|by repeat constructor].
    apply Forall_app_2; [done|apply digits_nonspace, digits_zeros]. }
  split.
  - apply Forall_app_2; [by apply Forall_take|]. constructor; [done|by apply Forall_drop].
  - destruct (Z.to_nat decpt) as [|i] eqn:Hi; [lia|]. by eexists _, _.
Qed.

(** [float()] on a text without white space whose body starts with a
    digit: the number part and the exponent. *)
Lemma lex_float_text (neg : bool) s c r :
  list_ascii_of_string s = c :: r -> is_digit c = true ->
  Forall (fun c => is_space c = false) (list_ascii_of_string s) ->
  lex_float ((if neg then "-" else "") ++ s)%string =
    match lex_number (c :: r) with
    | Some (m, e1, r') =>
        match lex_exponent r' with
        | Some e2 => Some (LFinite neg m (e1 + e2)%Z)
        | None => None
        end
    | None => None
    end.
Proof.
  intros Hs Hc Hn. destruct (digit_facts c Hc) as (Hlow & _ & Hi & Hna & Hp & Hm).
  unfold lex_float. rewrite strip_nonspace
    by (rewrite las_app; apply Forall_app_2; [by destruct neg; repeat constructor|done]).
  rewrite las_app, Hs.
  replace (lex_sign _) with (neg, c :: r)
    by (destruct neg; [done|]; simpl; by destruct c as [[] [] [] [] [] [] [] []]).
  cbn [map]. rewrite Hlow.
  rewrite !bool_decide_false by (unfold lit_text; simpl; congruence). done.
Qed.

(** ** Signs *)

Lemma float_of_literal_neg m e :
  float_of_literal (LFinite true m e) = PrimFloat.opp (float_of_literal (LFinite false m e)).
Proof. simpl. by destruct (norm_decimal m e). Qed.

(** A finite float is its magnitude with its sign. *)
Lemma float_sign_abs x s m e :
  Prim2SF x = S754_finite s m e ->
  Prim2SF (PrimFloat.abs x) = S754_finite false m e /\
  x = if s then PrimFloat.opp (PrimFloat.abs x) else PrimFloat.abs x.
Proof.
  intros Hx. assert (Ha : Prim2SF (PrimFloat.abs x) = S754_finite false m e)
    by (by rewrite abs_spec, Hx).
  split; [done|]. apply Prim2SF_inj. destruct s; [rewrite opp_spec|]; by rewrite Ha, Hx.
Qed.

(** ** The round trip *)

(** [float()] reads back the text of [repr]. *)
Lemma py_repr_reads_back (x : float) : repr_found x = true -> py_float (py_repr x) = Ok x.
Proof.
  unfold repr_found, py_repr. intros Hf. destruct (Prim2SF x) as [s|s| |s m e] eqn:Hx.
  1-3: try destruct s; vm_compute; f_equal; apply Prim2SF_inj; by rewrite Hx.
  destruct (shortest_search (PrimFloat.abs x) m e) as [c|] eqn:Hs; [|discriminate].
  pose proof (shortest_digits_spec (PrimFloat.abs x) m e c Hs) as Hsp.
  destruct (shortest_digits (PrimFloat.abs x) m e) as [d k].
  destruct Hsp as (Hpos & Hm & Hfl).
  destruct (pretty_Z_las d) as ([|c0 tl] & Hcs & Hdg & Hv & Hne); [lia|done|].
  rewrite las_length, Hcs.
  destruct (format_repr_text (pretty d) c0 tl (k + Z.of_nat (length (c0 :: tl))) Hcs Hdg)
    as (Hns & c1 & r & Hr & Hcd).
  destruct (format_repr_lexes (pretty d) c0 tl d (k + Z.of_nat (length (c0 :: tl))) Hcs Hdg Hv Hpos Hm)
    as (m' & e1 & r' & e2 & Hlex & Hexp & Hnorm).
  unfold py_float. rewrite (lex_float_text s _ c1 r Hr Hcd Hns), <- Hr, Hlex, Hexp.
  cbn [amt_of_literal float_amount]. f_equal.
  rewrite (float_of_literal_norm s m' (e1 + e2) (Z.to_N d) k)
    by (rewrite Hnorm, norm_decimal_canon by done; f_equal; simpl; lia).
  destruct (float_sign_abs x s m e Hx) as [_ Hsx]. rewrite Hsx.
  destruct s; [rewrite float_of_literal_neg|]; by rewrite Hfl.
Qed.

