(* ===== verification/FloatFormat.v ===== *)
(** * FloatFormat: [format(x, '.2f')], the amounts the client shows

    [check_balance] shows [f"当前余额：¥{float(balance):.2f}"] and
    [withdraw] [f"成功取款 ¥{float(amount):.2f}"] (src/code/client.py
    lines 219 and 231): a Python float with two digits after the point.
    CPython writes it from the exact binary value of the float
    ([format_float_short] with mode 3 and precision 2): the value times
    100 rounded to an integer number of cents, ties to even, its digits
    with at least one before the point, a [-] for a negative sign (also
    for [-0.0] and for a negative value that rounds to zero), and
    [inf], [-inf], [nan] for the non-finite floats.  [format_2f_half_cent]:
    the text reads back through [float()]'s lexer as a decimal within
    half a cent of the float, which is what the balance box of
    [Client.check_balance_shows_balance] shows. *)

From S2P Require Import Prelude Wire Amount Float64 FloatRoundtrip.
From Stdlib Require Import Floats ZArith String Ascii.
From stdpp Require Import pretty.

Open Scope string_scope.

(** [num / den] rounded to an integer, ties to even. *)
Definition round_half_even (num den : Z) : Z :=
  let q := (num / den)%Z in
  let r := (num mod den)%Z in
  match Z.compare (2 * r) den with
  | Lt => q
  | Gt => (q + 1)%Z
  | Eq => if Z.even q then q else (q + 1)%Z
  end.

(** The exact value [m * 2^e] of a finite float's magnitude as a
    fraction [num / den]. *)
Definition exact_num (m : positive) (e : Z) : Z :=
  if (0 <=? e)%Z then (Zpos m * 2 ^ e)%Z else Zpos m.
Definition exact_den (e : Z) : Z :=
  if (0 <=? e)%Z then 1%Z else (2 ^ (- e))%Z.

(** The magnitude in cents, [round(|x| * 100)]. *)
Definition cents (m : positive) (e : Z) : Z :=
  round_half_even (100 * exact_num m e) (exact_den e).

(** The digits of [c >= 0] cents with the point before the last two,
    at least one digit before it. *)
Definition fixed2 (c : Z) : string :=
  let ds := pretty c in
  let ds' := zeros (3 - String.length ds) ++ ds in
  let n := String.length ds' in
  String.substring 0 (n - 2) ds' ++ "." ++ String.substring (n - 2) 2 ds'.

(** [format(x, '.2f')] *)
Definition format_2f (x : float) : string :=
  match Prim2SF x with
  | S754_nan => "nan"
  | S754_infinity s => if s then "-inf" else "inf"
  | S754_zero s => (if s then "-" else "") ++ "0.00"
  | S754_finite s m e => (if s then "-" else "") ++ fixed2 (cents m e)
  end.

(** ** Rounding *)

Local Open Scope list_scope.

Lemma exact_den_pos e : (0 < exact_den e)%Z.
Proof. unfold exact_den. case_match; [lia|]. apply Z.pow_pos_nonneg; lia. Qed.

Lemma exact_num_pos m e : (0 < exact_num m e)%Z.
Proof.
  unfold exact_num. case_match; [|lia].
  apply Z.mul_pos_pos; [lia|]. apply Z.pow_pos_nonneg; lia.
Qed.

(** The rounded quotient is within half a unit of [num / den]. *)
Lemma round_half_even_bound num den :
  (0 < den)%Z -> (Z.abs (2 * num - 2 * den * round_half_even num den) <= den)%Z.
Proof.
  intros Hd. unfold round_half_even.
  pose proof (Z.div_mod num den ltac:(lia)) as Hdm.
  pose proof (Z.mod_pos_bound num den Hd) as Hr.
  set (q := (num / den)%Z) in *. set (r := (num mod den)%Z) in *.
  destruct (Z.compare_spec (2 * r) den); [destruct (Z.even q)|..]; lia.
Qed.

Lemma round_half_even_nonneg num den : (0 < den)%Z -> (0 <= num)%Z -> (0 <= round_half_even num den)%Z.
Proof.
  intros Hd Hn. unfold round_half_even.
  pose proof (Z.div_pos num den Hn Hd).
  destruct (Z.compare (2 * (num mod den)) den); [destruct (Z.even _)|..]; lia.
Qed.

Lemma cents_nonneg m e : (0 <= cents m e)%Z.
Proof.
  apply round_half_even_nonneg; [apply exact_den_pos|].
  pose proof (exact_num_pos m e). lia.
Qed.

(** ** The text *)

Lemma las_fixed2 c :
  (0 <= c)%Z ->
  exists ds, list_ascii_of_string (fixed2 c) =
      take (length ds - 2) ds ++ "."%char :: drop (length ds - 2) ds /\
    digits ds /\ dval 0 ds = Z.to_N c /\ (3 <= length ds)%nat.
Proof.
  intros Hc. destruct (pretty_Z_las c Hc) as (cs & Hcs & Hd & Hv & Hne).
  exists (repeat "0"%char (3 - length cs) ++ cs). unfold fixed2.
  rewrite !las_app, !las_substring, !las_length, !las_app, las_zeros, !Hcs, drop_0.
  set (ds := repeat "0"%char (3 - length cs) ++ cs).
  assert (Hl : (3 <= length ds)%nat) by (subst ds; rewrite length_app, repeat_length; lia).
  split_and!; [|apply Forall_app_2; [apply digits_zeros|done]|by subst ds; rewrite dval_app, dval_zeros|done].
  cbn [list_ascii_of_string app]. f_equal. f_equal.
  apply take_ge. rewrite length_drop. lia.
Qed.

(** [float()]'s lexer reads [fixed2 c] as [c] hundredths. *)
Lemma lex_number_fixed2 c :
  (0 <= c)%Z ->
  exists d0 r, list_ascii_of_string (fixed2 c) = d0 :: r /\ is_digit d0 = true /\
    Forall (fun ch => is_space ch = false) (d0 :: r) /\
    lex_number (d0 :: r) = Some (Z.to_N c, (-2)%Z, []).
Proof.
  intros Hc. destruct (las_fixed2 c Hc) as (ds & Hl & Hd & Hv & Hn). rewrite Hl.
  assert (Ht : take (length ds - 2) ds <> [])
    by (intros Ht; apply (f_equal length) in Ht; rewrite length_take in Ht; simpl in Ht; lia).
  destruct (take (length ds - 2) ds) as [|d0 r] eqn:Et; [done|].
  assert (Hdt : digits (d0 :: r)) by (rewrite <- Et; by apply Forall_take).
  assert (Hdd : digits (drop (length ds - 2) ds)) by by apply Forall_drop.
  exists d0, (r ++ "."%char :: drop (length ds - 2) ds). split_and!; [done|by apply (Forall_inv Hdt)|..].
  - change (d0 :: r ++ "."%char :: drop (length ds - 2) ds)
      with ((d0 :: r) ++ "."%char :: drop (length ds - 2) ds).
    apply Forall_app_2; [by apply digits_nonspace|]. constructor; [done|by apply digits_nonspace].
  - unfold lex_number.
    change (d0 :: r ++ "."%char :: drop (length ds - 2) ds)
      with ((d0 :: r) ++ "."%char :: drop (length ds - 2) ds).
    rewrite opt_digitpart_digits by first [done | by apply stops_char].
    rewrite opt_digitpart_all
      by first [done | intros Hz; apply (f_equal length) in Hz; rewrite length_drop in Hz; simpl in Hz; lia].
    rewrite length_drop. replace (length ds - (length ds - 2))%nat with 2%nat by lia.
    destruct (Nat.eqb_spec (length (d0 :: r) + 2) 0); [lia|]. do 3 f_equal.
    rewrite <- Et, <- Hv, (dval_take_drop (length ds - 2) ds), length_drop.
    replace (length ds - (length ds - 2))%nat with 2%nat by lia. lia.
Qed.

(** ** Properties *)

(** Bounds of the amounts the client shows: for every finite
    float [x = ±m * 2^e], [format(x, '.2f')] is the sign of [x] and a
    decimal of [c] hundredths that [float()]'s lexer reads back as
    such, and [c / 100] is within half a cent of [|x|]:
    [|c * den - 100 * num| <= den / 2] for [|x| = num / den]. *)
Theorem format_2f_half_cent (x : float) s m e :
  Prim2SF x = S754_finite s m e ->
  exists c, lex_float (format_2f x) = Some (LFinite s (Z.to_N c) (-2)) /\ (0 <= c)%Z /\
    (Z.abs (2 * c * exact_den e - 200 * exact_num m e) <= exact_den e)%Z.
Proof.
  intros Hx. exists (cents m e). unfold format_2f. rewrite Hx.
  pose proof (cents_nonneg m e) as Hc.
  destruct (lex_number_fixed2 _ Hc) as (d0 & r & Hl & Hd0 & Hsp & Hlex).
  split_and!; [|done|].
  - rewrite (lex_float_text s _ d0 r Hl Hd0) by (by rewrite Hl). by rewrite Hlex.
  - pose proof (round_half_even_bound (100 * exact_num m e) (exact_den e) (exact_den_pos e)).
    unfold cents. lia.
Qed.
