(* ===== verification/Json.v ===== *)
(** * Json: the text of [accounts.json]

    [load_accounts] reads the ledger with [json.load(f)] (server.py
    line 20) and [save_accounts] writes it with [json.dump(self.accounts,
    f)] (line 26).  This file models the two functions of Python's
    [json] module at the text level, with their default settings:
    - [json_dump]: [", "] between items, [": "] after a key, strings
      with [ensure_ascii] (backslash-quote, [\\], [\n], [\r], [\t], [\b], [\f] and
      [\u00XX] for every other character outside [' ' .. '~']), floats
      by [float.__repr__] ([py_repr]) and [NaN], [Infinity],
      [-Infinity] for the non-finite ones;
    - [json_loads]: the scanner of [json.decoder]: white space
      [' \t\n\r'], objects, arrays, strings with their escapes (a raw
      control character is an error), the number grammar
      [-?(0|[1-9][0-9]* )(\.[0-9]+)?([eE][-+]?[0-9]+)?] read as [int] or,
      with a fraction or an exponent, as [float(text)], the constants
      [true], [false], [null], [NaN], [Infinity], [-Infinity]; nothing
      but white space may follow the value.  Errors are
      [JSONDecodeError], a [ValueError].
    Strings are Rocq strings of 8-bit characters; a [\uXXXX] escape
    above 0xff has no such character and is refused here (Python
    accepts it).  [ledger_json] is the JSON value of the accounts
    dictionary and [accounts_of_json] the dictionary [json.load] gives
    back, with a later duplicate key replacing an earlier one. *)

From S2P Require Import Prelude Wire Amount Ledger Float64.
From Stdlib Require Import Floats ZArith String Ascii.
From stdpp Require Import pretty.

Open Scope string_scope.

(** A JSON value as [json] builds it in Python. *)
Inductive jvalue :=
| JNull
| JBool (b : bool)
| JInt (z : Z)
| JFloat (f : float)
| JStr (s : string)
| JArr (l : list jvalue)
| JObj (l : list (string * jvalue)).

(** ** [json.dump] *)

Definition dquote : ascii := "034"%char.
Definition bslash : ascii := "092"%char.

Definition hex_digit (n : nat) : ascii :=
  if (n <? 10)%nat then ascii_of_nat (48 + n) else ascii_of_nat (87 + n).

(** The escape of one character under [ensure_ascii]. *)
Definition escape_char (c : ascii) : string :=
  let n := nat_of_ascii c in
  if Ascii.eqb c dquote then String bslash (String dquote EmptyString)
  else if Ascii.eqb c bslash then String bslash (String bslash EmptyString)
  else if (n =? 10)%nat then String bslash "n"
  else if (n =? 13)%nat then String bslash "r"
  else if (n =? 9)%nat then String bslash "t"
  else if (n =? 8)%nat then String bslash "b"
  else if (n =? 12)%nat then String bslash "f"
  else if (n <? 32)%nat || (126 <? n)%nat then
    String bslash ("u00" ++ String (hex_digit (n / 16)) (String (hex_digit (n mod 16)) EmptyString))
  else String c EmptyString.

Fixpoint escape (s : string) : string :=
  match s with
  | EmptyString => EmptyString
  | String c s' => escape_char c ++ escape s'
  end.

(** [py_encode_basestring_ascii] *)
Definition json_str (s : string) : string :=
  String dquote (escape s ++ String dquote EmptyString).

(** [float.__repr__], with [allow_nan]'s constants. *)
Definition json_float (f : float) : string :=
  match Prim2SF f with
  | S754_nan => "NaN"
  | S754_infinity false => "Infinity"
  | S754_infinity true => "-Infinity"
  | _ => py_repr f
  end.

Fixpoint str_join (sep : string) (l : list string) : string :=
  match l with
  | [] => EmptyString
  | [x] => x
  | x :: l' => x ++ sep ++ str_join sep l'
  end.

(** [json.dumps(v)] *)
Fixpoint json_dump (v : jvalue) : string :=
  match v with
  | JNull => "null"
  | JBool true => "true"
  | JBool false => "false"
  | JInt z => pretty z
  | JFloat f => json_float f
  | JStr s => json_str s
  | JArr l => "[" ++ str_join ", " (map json_dump l) ++ "]"
  | JObj l => "{" ++ str_join ", " (map (fun kv => json_str kv.1 ++ ": " ++ json_dump kv.2) l) ++ "}"
  end.

(** ** [json.loads] *)

Definition is_ws (c : ascii) : bool :=
  let n := nat_of_ascii c in ((n =? 32) || (n =? 9) || (n =? 10) || (n =? 13))%nat.

Fixpoint skip_ws (s : list ascii) : list ascii :=
  match s with
  | c :: s' => if is_ws c then skip_ws s' else s
  | [] => []
  end.

Definition hex_val (c : ascii) : option nat :=
  let n := nat_of_ascii c in
  if ((48 <=? n) && (n <=? 57))%nat then Some (n - 48)%nat
  else if ((97 <=? n) && (n <=? 102))%nat then Some (n - 87)%nat
  else if ((65 <=? n) && (n <=? 70))%nat then Some (n - 55)%nat
  else None.

(** The character of an escape after the backslash, and the rest. *)
Definition unescape (s : list ascii) : option (ascii * list ascii) :=
  match s with
  | "u"%char :: a :: b :: c :: d :: r =>
      match hex_val a, hex_val b, hex_val c, hex_val d with
      | Some a, Some b, Some c, Some d =>
          let n := (((a * 16 + b) * 16 + c) * 16 + d)%nat in
          if (n <? 256)%nat then Some (ascii_of_nat n, r) else None
      | _, _, _, _ => None
      end
  | e :: r =>
      if Ascii.eqb e dquote then Some (dquote, r)
      else if Ascii.eqb e bslash then Some (bslash, r)
      else if Ascii.eqb e "/" then Some ("/"%char, r)
      else if Ascii.eqb e "b" then Some (ascii_of_nat 8, r)
      else if Ascii.eqb e "f" then Some (ascii_of_nat 12, r)
      else if Ascii.eqb e "n" then Some (ascii_of_nat 10, r)
      else if Ascii.eqb e "r" then Some (ascii_of_nat 13, r)
      else if Ascii.eqb e "t" then Some (ascii_of_nat 9, r)
      else None
  | [] => None
  end.

(** [scanstring]: the characters after the opening quote up to the
    closing one; raw control characters are refused. *)
Fixpoint parse_string_go (fuel : nat) (s : list ascii) : option (list ascii * list ascii) :=
  match fuel with
  | O => None
  | S fuel' =>
      match s with
      | [] => None
      | c :: r =>
          if Ascii.eqb c dquote then Some ([], r)
          else if Ascii.eqb c bslash then
            match unescape r with
            | Some (c', r') =>
                match parse_string_go fuel' r' with
                | Some (cs, r'') => Some (c' :: cs, r'')
                | None => None
                end
            | None => None
            end
          else if (nat_of_ascii c <? 32)%nat then None
          else
            match parse_string_go fuel' r with
            | Some (cs, r') => Some (c :: cs, r')
            | None => None
            end
      end
  end.

Definition parse_string (s : list ascii) : option (string * list ascii) :=
  match parse_string_go (S (length s)) s with
  | Some (cs, r) => Some (string_of_list_ascii cs, r)
  | None => None
  end.

(** The longest run of digits. *)
Fixpoint span_digits (s : list ascii) : list ascii * list ascii :=
  match s with
  | c :: r => if is_digit c then let '(ds, r') := span_digits r in (c :: ds, r') else ([], s)
  | [] => ([], [])
  end.

(** [(-?(?:0|[1-9]\d* ))]: the integer part. *)
Definition match_int (s : list ascii) : option (list ascii * list ascii) :=
  let '(sgn, s1) := match s with "-"%char :: r => (["-"%char], r) | _ => ([], s) end in
  match s1 with
  | "0"%char :: r => Some (app sgn ["0"%char], r)
  | c :: _ =>
      if is_digit c then let '(ds, r) := span_digits s1 in Some (app sgn ds, r) else None
  | [] => None
  end.

(** [(\.\d+)?] *)
Definition match_frac (s : list ascii) : list ascii * list ascii :=
  match s with
  | "."%char :: r =>
      match span_digits r with
      | ([], _) => ([], s)
      | (ds, r') => ("."%char :: ds, r')
      end
  | _ => ([], s)
  end.

(** [([eE][-+]?\d+)?] *)
Definition match_exp (s : list ascii) : list ascii * list ascii :=
  match s with
  | e :: r =>
      if Ascii.eqb e "e" || Ascii.eqb e "E" then
        let '(sg, r1) := match r with
                         | "-"%char :: r1 => (["-"%char], r1)
                         | "+"%char :: r1 => (["+"%char], r1)
                         | _ => ([], r)
                         end in
        match span_digits r1 with
        | ([], _) => ([], s)
        | (ds, r') => (e :: app sg ds, r')
        end
      else ([], s)
  | [] => ([], [])
  end.

(** The value of a decimal integer text with an optional minus. *)
Definition int_of_text (t : list ascii) : Z :=
  match t with
  | "-"%char :: ds => (- Z.of_N (fst (fst (digits_go ds 0 0))))%Z
  | _ => Z.of_N (fst (fst (digits_go t 0 0)))
  end.

(** [NUMBER_RE] and [match_number]: an [int] without fraction and
    exponent, else [float(integer + frac + exp)]. *)
Definition parse_number (s : list ascii) : option (jvalue * list ascii) :=
  match match_int s with
  | None => None
  | Some (int, r1) =>
      let '(frac, r2) := match_frac r1 in
      let '(ex, r3) := match_exp r2 in
      match frac, ex with
      | [], [] => Some (JInt (int_of_text int), r3)
      | _, _ =>
          match py_float (string_of_list_ascii (app int (app frac ex))) with
          | Ok f => Some (JFloat f, r3)
          | Raise _ => None
          end
      end
  end.

(** [scan_once], [JSONObject] and [JSONArray]; [fuel] bounds the
    nesting and the items, each of which takes at least one
    character. *)
Fixpoint parse_value (fuel : nat) (s : list ascii) : option (jvalue * list ascii) :=
  match fuel with
  | O => None
  | S fuel' =>
      match s with
      | c :: r =>
          if Ascii.eqb c dquote then
            match parse_string r with Some (str, r') => Some (JStr str, r') | None => None end
          else if Ascii.eqb c "{" then
            match skip_ws r with
            | c' :: r' =>
                if Ascii.eqb c' "}" then Some (JObj [], r')
                else if Ascii.eqb c' dquote then
                  match parse_members fuel' (c' :: r') with
                  | Some (kvs, r'') => Some (JObj kvs, r'')
                  | None => None
                  end
                else None
            | [] => None
            end
          else if Ascii.eqb c "[" then
            match skip_ws r with
            | "]"%char :: r' => Some (JArr [], r')
            | r1 =>
                match parse_elements fuel' r1 with
                | Some (vs, r'') => Some (JArr vs, r'')
                | None => None
                end
            end
          else
            match s with
            | "n"%char :: "u"%char :: "l"%char :: "l"%char :: r' => Some (JNull, r')
            | "t"%char :: "r"%char :: "u"%char :: "e"%char :: r' => Some (JBool true, r')
            | "f"%char :: "a"%char :: "l"%char :: "s"%char :: "e"%char :: r' => Some (JBool false, r')
            | "N"%char :: "a"%char :: "N"%char :: r' => Some (JFloat nan, r')
            | "I"%char :: "n"%char :: "f"%char :: "i"%char :: "n"%char :: "i"%char :: "t"%char
                :: "y"%char :: r' => Some (JFloat infinity, r')
            | "-"%char :: "I"%char :: "n"%char :: "f"%char :: "i"%char :: "n"%char :: "i"%char
                :: "t"%char :: "y"%char :: r' => Some (JFloat neg_infinity, r')
            | _ => parse_number s
            end
      | [] => None
      end
  end

(** Members after [{], from the first key's quote to the closing [}]. *)
with parse_members (fuel : nat) (s : list ascii) : option (list (string * jvalue) * list ascii) :=
  match fuel with
  | O => None
  | S fuel' =>
      match s with
      | q :: r =>
          if Ascii.eqb q dquote then
            match parse_string r with
            | Some (k, r1) =>
                match skip_ws r1 with
                | ":"%char :: r2 =>
                    match parse_value fuel' (skip_ws r2) with
                    | Some (v, r3) =>
                        match skip_ws r3 with
                        | "}"%char :: r4 => Some ([(k, v)], r4)
                        | ","%char :: r4 =>
                            match parse_members fuel' (skip_ws r4) with
                            | Some (kvs, r5) => Some ((k, v) :: kvs, r5)
                            | None => None
                            end
                        | _ => None
                        end
                    | None => None
                    end
                | _ => None
                end
            | None => None
            end
          else None
      | [] => None
      end
  end

(** Elements after [\[], from the first value to the closing [\]]. *)
with parse_elements (fuel : nat) (s : list ascii) : option (list jvalue * list ascii) :=
  match fuel with
  | O => None
  | S fuel' =>
      match parse_value fuel' s with
      | Some (v, r1) =>
          match skip_ws r1 with
          | "]"%char :: r2 => Some ([v], r2)
          | ","%char :: r2 =>
              match parse_elements fuel' (skip_ws r2) with
              | Some (vs, r3) => Some (v :: vs, r3)
              | None => None
              end
          | _ => None
          end
      | None => None
      end
  end.

(** [json.loads(text)]: a value between white space, [ValueError]
    otherwise. *)
Definition json_loads (text : string) : res jvalue :=
  let s := skip_ws (list_ascii_of_string text) in
  match parse_value (S (length s)) s with
  | Some (v, r) => if bool_decide (skip_ws r = []) then Ok v else Raise ValueError
  | None => Raise ValueError
  end.

(** ** The ledger as JSON *)

(** The object with keys password and balance for one account. *)
Definition account_json (a : Account float) : jvalue :=
  JObj [("password", JStr (password a)); ("balance", JFloat (balance a))].

(** The accounts dictionary in its iteration order. *)
Definition ledger_json (l : list (string * Account float)) : jvalue :=
  JObj (map (fun ua => (ua.1, account_json ua.2)) l).

(** [d[k]] on the pairs of a parsed object: the last one wins. *)
Definition obj_get (kvs : list (string * jvalue)) (k : string) : option jvalue :=
  fold_left (fun acc kv => if String.eqb kv.1 k then Some kv.2 else acc) kvs None.

(** An account record as the server reads it: [acct['password']] and
    [acct['balance']] (a float). *)
Definition account_of_json (v : jvalue) : option (Account float) :=
  match v with
  | JObj kvs =>
      match obj_get kvs "password", obj_get kvs "balance" with
      | Some (JStr p), Some (JFloat b) => Some (mkAccount p b)
      | _, _ => None
      end
  | _ => None
  end.

(** The dictionary [json.load] returns for a ledger file. *)
Definition accounts_of_json (v : jvalue) : option (gmap string (Account float)) :=
  match v with
  | JObj kvs =>
      fold_left (fun acc kv =>
        match acc, account_of_json kv.2 with
        | Some m, Some a => Some (<[kv.1 := a]> m)
        | _, _ => None
        end) kvs (Some ∅)
  | _ => None
  end.

(** ** Lemmas: every scanner step consumes its input *)

Lemma skip_ws_length s : length (skip_ws s) <= length s.
Proof. induction s as [|c s IH]; simpl; [lia|]. case_match; simpl; lia. Qed.

Lemma unescape_length s c r : unescape s = Some (c, r) -> length r < length s.
Proof. unfold unescape. intros H. repeat case_match; simplify_eq/=; lia. Qed.

Lemma parse_string_go_length f s cs r : parse_string_go f s = Some (cs, r) -> length r < length s.
Proof.
  revert s cs. induction f as [|f IH]; intros s cs H; simpl in H; [discriminate|].
  destruct s as [|c s]; [discriminate|]. repeat case_match; simplify_eq/=;
    repeat match goal with
    | Hu : unescape _ = Some _ |- _ => apply unescape_length in Hu
    | Hp : parse_string_go _ _ = Some _ |- _ => apply IH in Hp
    end; lia.
Qed.

Lemma parse_string_length s x r : parse_string s = Some (x, r) -> length r < length s.
Proof. unfold parse_string. intros H. case_match; [|discriminate]. destruct p. simplify_eq. by eapply parse_string_go_length. Qed.

Lemma span_digits_length s : length (span_digits s).2 <= length s.
Proof.
  induction s as [|c s IH]; simpl; [lia|].
  destruct (is_digit c); [destruct (span_digits s) as [ds r']|]; simpl in *; lia.
Qed.

Lemma sign_split_length s sg s1 :
  match s with "-"%char :: r => (["-"%char], r) | _ => ([], s) end = (sg, s1) ->
  length s1 <= length s.
Proof. intros H. repeat case_match; simplify_eq/=; lia. Qed.

Lemma match_int_length s t r : match_int s = Some (t, r) -> length r < length s.
Proof.
  unfold match_int. intros H.
  destruct (match s with "-"%char :: r => (["-"%char], r) | _ => ([], s) end) as [sg s1] eqn:E.
  apply sign_split_length in E. destruct s1 as [|c l]; [discriminate|]. simpl in E.
  destruct c as [[] [] [] [] [] [] [] []]; simpl in H; try discriminate H;
    first [ injection H as _ <-; lia
          | destruct (span_digits l) as [ds r'] eqn:E2; injection H as _ <-;
            pose proof (span_digits_length l) as Hl; rewrite E2 in Hl; simpl in Hl; lia ].
Qed.

Lemma match_frac_length s : length (match_frac s).2 <= length s.
Proof.
  unfold match_frac. repeat case_match; simplify_eq/=; try lia;
    repeat match goal with E : span_digits ?x = _ |- _ =>
      pose proof (span_digits_length x); rewrite E in *; clear E end; simpl in *; lia.
Qed.

Lemma match_exp_length s : length (match_exp s).2 <= length s.
Proof.
  unfold match_exp. destruct s as [|e r]; [simpl; lia|].
  destruct (Ascii.eqb e "e" || Ascii.eqb e "E"); [|simpl; lia].
  destruct (match r with "-"%char :: r1 => (["-"%char], r1) | "+"%char :: r1 => (["+"%char], r1)
            | _ => ([], r) end) as [sg r1] eqn:E.
  assert (Hr1 : length r1 <= length r) by (revert E; repeat case_match; intros; simplify_eq/=; lia).
  pose proof (span_digits_length r1) as Hs. destruct (span_digits r1) as [[|d ds] r'];
    simpl in *; lia.
Qed.

Lemma parse_number_length s v r : parse_number s = Some (v, r) -> length r < length s.
Proof.
  unfold parse_number. intros H.
  destruct (match_int s) as [[it r1]|] eqn:E1; [|discriminate]. apply match_int_length in E1.
  pose proof (match_frac_length r1) as E2. destruct (match_frac r1) as [fr r2].
  pose proof (match_exp_length r2) as E3. destruct (match_exp r2) as [ex r3]. simpl in *.
  repeat case_match; simplify_eq/=; lia.
Qed.

(** Turn the facts a scanner branch leaves into lengths. *)
Ltac scan_lengths :=
  repeat match goal with
  | H : parse_string ?x = Some _ |- _ => apply parse_string_length in H
  | H : parse_number ?x = Some _ |- _ => apply parse_number_length in H
  | H : context [skip_ws ?x] |- _ =>
      let y := fresh "y" in let E := fresh "E" in
      pose proof (skip_ws_length x); remember (skip_ws x) as y eqn:E; clear E
  | IH : forall s v r, parse_value ?f s = Some (v, r) -> _, H : parse_value ?f _ = Some _ |- _ =>
      apply IH in H
  | IH : forall s v r, parse_members ?f s = Some (v, r) -> _, H : parse_members ?f _ = Some _ |- _ =>
      apply IH in H
  | IH : forall s v r, parse_elements ?f s = Some (v, r) -> _, H : parse_elements ?f _ = Some _ |- _ =>
      apply IH in H
  end; subst; simpl in *; lia.

Lemma parse_length f :
  (forall s v r, parse_value f s = Some (v, r) -> length r < length s) /\
  (forall s v r, parse_members f s = Some (v, r) -> length r < length s) /\
  (forall s v r, parse_elements f s = Some (v, r) -> length r < length s).
Proof.
  induction f as [|f (IHv & IHm & IHe)]; [split_and!; discriminate|].
  split_and!; intros s v r H; simpl in H; repeat case_match; simplify_eq/=; subst; scan_lengths.
Qed.

(** Destruct every test a scanner branch made in [H], in [H] and the goal. *)
Ltac destr_hyp H :=
  repeat match type of H with
  | context [match ?x with _ => _ end] => destruct x eqn:?; try discriminate H
  end.

(** A parse that succeeds with some fuel succeeds with any fuel at least
    the number of characters it consumed. *)
Lemma parse_fuel f :
  (forall s v r f', parse_value f s = Some (v, r) -> length s - length r <= f' ->
     parse_value f' s = Some (v, r)) /\
  (forall s v r f', parse_members f s = Some (v, r) -> length s - length r <= f' ->
     parse_members f' s = Some (v, r)) /\
  (forall s v r f', parse_elements f s = Some (v, r) -> length s - length r <= f' ->
     parse_elements f' s = Some (v, r)).
Proof.
  induction f as [|f (IHv & IHm & IHe)]; [split_and!; discriminate|].
  pose proof (parse_length (S f)) as (Lv0 & Lm0 & Le0).
  split_and!; intros s v r f' H Hf';
    [pose proof (Lv0 _ _ _ H) | pose proof (Lm0 _ _ _ H) | pose proof (Le0 _ _ _ H)];
    (destruct f' as [|f'']; [lia|]); clear Lv0 Lm0 Le0;
    pose proof (parse_length f) as (Lv & Lm & Le);
    simpl in H |- *; destr_hyp H; simplify_eq/=;
    repeat match goal with
    | E : parse_value f ?y = Some ?p |- context [parse_value f'' ?y] =>
        rewrite (IHv y _ _ f'' E) by scan_lengths
    | E : parse_members f ?y = Some ?p |- context [parse_members f'' ?y] =>
        rewrite (IHm y _ _ f'' E) by scan_lengths
    | E : parse_elements f ?y = Some ?p |- context [parse_elements f'' ?y] =>
        rewrite (IHe y _ _ f'' E) by scan_lengths
    | E : skip_ws ?y = _ |- context [skip_ws ?y] => rewrite E; simpl
    end; first [reflexivity | exact H].
Qed.

(** ** Properties *)

(** Termination of [json.load]'s scanner: the fuel [json_loads]
    gives [parse_value] (the length of the text plus one) is never what
    makes it fail.  A text loads exactly when the scanner, given enough
    fuel, reads one value from it followed by nothing but white space:
    every step of the scanner consumes a character, so a parse that
    succeeds with some fuel succeeds with as much fuel as it consumed
    characters. *)
Theorem json_loads_fuel_adequate text v :
  json_loads text = Ok v <->
  exists f r, parse_value f (skip_ws (list_ascii_of_string text)) = Some (v, r) /\ skip_ws r = [].
Proof.
  unfold json_loads. split.
  - destruct (parse_value _ _) as [[v' r]|] eqn:E; [|discriminate].
    case_bool_decide; intros [= <-]. eauto.
  - intros (f & r & H & Hr). rewrite (proj1 (parse_fuel f) _ _ _ _ H) by lia.
    by rewrite bool_decide_true.
Qed.
