(* ===== verification/JsonRoundtrip.v ===== *)
(** * JsonRoundtrip: [json.load] reads back what [json.dump] wrote

    The text [json_dump] writes is read back by [json_loads] as the
    same value, for every value whose floats [repr] writes with at most
    17 digits ([json_ok]): strings with any 8-bit characters (the
    escapes), integers, floats (their [repr] text matches the number
    grammar and [float()] reads it back, [FloatRoundtrip]), [NaN] and
    the infinities, arrays and objects at any nesting.  For the ledger
    this is the persistence round trip of [save_accounts] and
    [load_accounts]: the file written for an accounts dictionary, in
    any iteration order, loads as the same dictionary, which is what
    the abstraction [DiskData] of [Ledger] assumes. *)

From S2P Require Import Prelude Wire Amount Ledger Float64 FloatRoundtrip Json.
From Stdlib Require Import Floats ZArith String Ascii.
From stdpp Require Import gmap pretty.

(** Values whose floats all read back. *)
Fixpoint json_ok (v : jvalue) : bool :=
  match v with
  | JFloat f => repr_found f
  | JArr l => forallb json_ok l
  | JObj kvs => forallb (fun kv => json_ok kv.2) kvs
  | _ => true
  end.

(** What may follow a value in a dumped text: the end, a separator or a
    closing bracket. *)
Definition after_value (r : list ascii) : Prop :=
  match r with
  | [] => True
  | c :: _ => c = ","%char \/ c = "}"%char \/ c = "]"%char
  end.

(** [parse_value] reads [v] back from its text followed by [r], with
    any fuel that is at least the length of the text. *)
Definition reads_back (v : jvalue) : Prop :=
  forall f r, length (list_ascii_of_string (json_dump v)) <= f -> after_value r ->
  parse_value f (list_ascii_of_string (json_dump v) ++ r) = Some (v, r).

(** The text of [v] starts with a character that is no white space and
    does not close an array. *)
Definition text_head (t : list ascii) : Prop :=
  exists c t', t = c :: t' /\ is_ws c = false /\ c <> "]"%char.

Definition dump_head (v : jvalue) : Prop := text_head (list_ascii_of_string (json_dump v)).

(** The text of one member of an object. *)
Abbreviation member_text := (fun kv : string * jvalue => (json_str kv.1 ++ ": " ++ json_dump kv.2)%string).

(** No digit at the head. *)
Definition no_digit (r : list ascii) : Prop :=
  match r with [] => True | c :: _ => is_digit c = false end.

Definition sgn (neg : bool) : list ascii := if neg then ["-"%char] else [].

(** The integer part of [NUMBER_RE]: [0] or a non-zero digit and digits. *)
Definition int_text (ip : list ascii) : Prop :=
  ip = ["0"%char] \/
  exists c ds, ip = c :: ds /\ is_digit c = true /\ c <> "0"%char /\ digits ds.

(** The fraction: nothing or a point and digits. *)
Definition frac_text (fp : list ascii) : Prop :=
  fp = [] \/ exists ds, fp = "."%char :: ds /\ ds <> [] /\ digits ds.

(** The exponent as [repr] writes it: nothing or [e], a sign and digits. *)
Definition exp_shape (ep : list ascii) : Prop :=
  ep = [] \/ exists s ds, ep = "e"%char :: s :: ds /\ (s = "-"%char \/ s = "+"%char) /\
    ds <> [] /\ digits ds.

(** A value with every kind of node: escapes in a string, a negative
    integer, a fraction, NaN and nesting. *)
Definition sample_json : jvalue :=
  JObj [("alice", JObj [("password", JStr (String dquote (String bslash "p" ++ String (ascii_of_nat 10) "")));
                        ("balance", JFloat (float_of_literal (LFinite false 1 (-1))))]);
        ("list", JArr [JInt (-12); JFloat nan; JNull; JBool true; JArr []; JObj []])].

(** The dictionary of the spec's scenario after its withdrawal. *)
Definition scenario_accounts : gmap string (Account float) :=
  {[ "alice" := mkAccount "secret" 60%float ]}.

(** [save_accounts] writing the dictionary whose pairs, in iteration
    order, are [l], then [load_accounts] reading the file back. *)
Definition save_then_load (l : list (string * Account float)) : option (gmap string (Account float)) :=
  match json_loads (json_dump (ledger_json l)) with
  | Ok v => accounts_of_json v
  | Raise _ => None
  end.

(** A printable ASCII character, [' '] to ['~']: what [json.dump] with
    [ensure_ascii] promises to write. *)
Definition printable (c : ascii) : bool := (32 <=? nat_of_ascii c) && (nat_of_ascii c <=? 126).

(** Induction on values through the lists of arrays and objects. *)
Section jvalue_ind'.
Variable P : jvalue -> Prop.
Hypothesis HNull : P JNull.
Hypothesis HBool : forall b, P (JBool b).
Hypothesis HInt : forall z, P (JInt z).
Hypothesis HFloat : forall f, P (JFloat f).
Hypothesis HStr : forall s, P (JStr s).
Hypothesis HArr : forall l, Forall P l -> P (JArr l).
Hypothesis HObj : forall kvs, Forall (fun kv => P kv.2) kvs -> P (JObj kvs).

Fixpoint jvalue_ind' (v : jvalue) : P v :=
  match v with
  | JNull => HNull
  | JBool b => HBool b
  | JInt z => HInt z
  | JFloat f => HFloat f
  | JStr s => HStr s
  | JArr l =>
      HArr l ((fix go (l : list jvalue) : Forall P l :=
                 match l with
                 | [] => @List.Forall_nil _ P
                 | v :: l' => @List.Forall_cons _ P v l' (jvalue_ind' v) (go l')
                 end) l)
  | JObj kvs =>
      HObj kvs ((fix go (kvs : list (string * jvalue)) : Forall (fun kv => P kv.2) kvs :=
                   match kvs with
                   | [] => @List.Forall_nil _ _
                   | kv :: kvs' => @List.Forall_cons _ (fun kv => P kv.2) kv kvs' (jvalue_ind' kv.2) (go kvs')
                   end) kvs)
  end.
End jvalue_ind'.

(** ** Characters *)

Lemma digit_cases c :
  is_digit c = true ->
  c = "0"%char \/ c = "1"%char \/ c = "2"%char \/ c = "3"%char \/ c = "4"%char \/
  c = "5"%char \/ c = "6"%char \/ c = "7"%char \/ c = "8"%char \/ c = "9"%char.
Proof.
  intros H. destruct c as [[] [] [] [] [] [] [] []]; vm_compute in H; try discriminate H;
    repeat (first [left; reflexivity | right]); reflexivity.
Qed.

(** Split a digit [c] with [is_digit c = true] in [H] into its ten values. *)
Ltac digit_split c H :=
  let Hc := fresh "Hc" in
  pose proof (digit_cases c H) as Hc;
  repeat destruct Hc as [->|Hc]; [..|subst c].

Lemma skip_ws_keep c t : is_ws c = false -> skip_ws (c :: t) = c :: t.
Proof. intros H. simpl. by rewrite H. Qed.

Lemma skip_ws_app_keep c t r : is_ws c = false -> skip_ws ((c :: t) ++ r) = (c :: t) ++ r.
Proof. apply skip_ws_keep. Qed.

(** ** Strings *)

(** One escaped character reads back as itself. *)
Lemma parse_string_escape_char c f rest :
  parse_string_go (S f) (list_ascii_of_string (escape_char c) ++ rest) =
    match parse_string_go f rest with Some (cs, r) => Some (c :: cs, r) | None => None end.
Proof. destruct c as [[] [] [] [] [] [] [] []]; reflexivity. Qed.

Lemma escape_char_length c : 1 <= length (list_ascii_of_string (escape_char c)).
Proof. destruct c as [[] [] [] [] [] [] [] []]; simpl; lia. Qed.

Lemma escape_length s : length (list_ascii_of_string s) <= length (list_ascii_of_string (escape s)).
Proof.
  induction s as [|c s IH]; [simpl; lia|]. simpl escape. rewrite las_app, length_app.
  pose proof (escape_char_length c). simpl. lia.
Qed.

Lemma parse_string_go_escape s f r :
  length (list_ascii_of_string s) < f ->
  parse_string_go f (list_ascii_of_string (escape s) ++ dquote :: r) =
    Some (list_ascii_of_string s, r).
Proof.
  revert f. induction s as [|c s IH]; intros [|f] Hf; simpl in Hf; try lia; [done|].
  simpl escape. rewrite las_app, <- app_assoc, parse_string_escape_char, IH by lia. done.
Qed.

Lemma parse_string_escape s r :
  parse_string (list_ascii_of_string (escape s) ++ dquote :: r) = Some (s, r).
Proof.
  unfold parse_string. rewrite parse_string_go_escape.
  - by rewrite string_of_list_ascii_of_string.
  - pose proof (escape_length s). rewrite length_app. simpl. lia.
Qed.

Lemma las_json_str s :
  list_ascii_of_string (json_str s) = dquote :: list_ascii_of_string (escape s) ++ [dquote].
Proof. unfold json_str. simpl. by rewrite las_app. Qed.

(** ** The number grammar *)

Lemma span_digits_app ds r : digits ds -> no_digit r -> span_digits (ds ++ r) = (ds, r).
Proof.
  intros Hd Hr. induction Hd as [|c ds Hc Hds IH]; simpl.
  - destruct r as [|c r]; simpl in *; [done|]. by rewrite Hr.
  - by rewrite Hc, IH.
Qed.

Lemma match_int_text (neg : bool) ip r :
  int_text ip -> no_digit r -> match_int (sgn neg ++ ip ++ r) = Some (sgn neg ++ ip, r).
Proof.
  intros [->|(c & ds & -> & Hc & H0 & Hds)] Hr; [by destruct neg|].
  digit_split c Hc; try congruence; destruct neg; cbn;
    by rewrite span_digits_app.
Qed.

Lemma match_frac_other c t : c <> "."%char -> match_frac (c :: t) = ([], c :: t).
Proof. intros H. destruct c as [[] [] [] [] [] [] [] []]; reflexivity || congruence. Qed.

Lemma match_frac_text fp r :
  frac_text fp -> no_digit r -> (match r with "."%char :: _ => False | _ => True end) ->
  match_frac (fp ++ r) = (fp, r).
Proof.
  intros [->|(ds & -> & Hne & Hds)] Hr Hp.
  - destruct r as [|c r]; [done|]. apply match_frac_other. intros ->. done.
  - cbn. rewrite span_digits_app by done. by destruct ds.
Qed.

Lemma match_exp_text ep r :
  exp_shape ep -> no_digit r ->
  (match r with [] => True | c :: _ => Ascii.eqb c "e" = false /\ Ascii.eqb c "E" = false end) ->
  match_exp (ep ++ r) = (ep, r).
Proof.
  intros [->|(s & ds & -> & Hs & Hne & Hds)] Hr He.
  - destruct r as [|c r]; [done|]. destruct He as [He1 He2]. simpl. by rewrite He1, He2.
  - destruct Hs as [->| ->]; cbn; rewrite span_digits_app by done; by destruct ds.
Qed.

Lemma int_of_text_value (neg : bool) ip :
  int_text ip ->
  int_of_text (sgn neg ++ ip) = (if neg then - Z.of_N (dval 0 ip) else Z.of_N (dval 0 ip))%Z.
Proof.
  intros [->|(c & ds & -> & Hc & H0 & Hds)]; [by destruct neg|].
  assert (Hd : digits (c :: ds)) by (by constructor).
  digit_split c Hc; try congruence; destruct neg; unfold int_of_text; cbn [sgn app];
    by rewrite digits_go_all.
Qed.

Lemma after_value_stop r :
  after_value r ->
  no_digit r /\ (match r with "."%char :: _ => False | _ => True end) /\
  (match r with [] => True | c :: _ => Ascii.eqb c "e" = false /\ Ascii.eqb c "E" = false end).
Proof. destruct r as [|c r]; [done|]. by intros [->|[->| ->]]. Qed.

(** [match_number] on a text of the shape [-?int frac? exp?] followed
    by what may follow a value. *)
Lemma parse_number_text (neg : bool) ip fp ep r :
  int_text ip -> frac_text fp -> exp_shape ep -> after_value r ->
  parse_number (sgn neg ++ ip ++ fp ++ ep ++ r) =
    match fp ++ ep with
    | [] => Some (JInt (int_of_text (sgn neg ++ ip)), r)
    | _ =>
        match py_float (string_of_list_ascii ((sgn neg ++ ip) ++ fp ++ ep)) with
        | Ok f => Some (JFloat f, r)
        | Raise _ => None
        end
    end.
Proof.
  intros Hi Hf He Hr. destruct (after_value_stop r Hr) as (Hd & Hp & Hee).
  assert (Hep : match_exp (ep ++ r) = (ep, r)) by (by apply match_exp_text).
  assert (Hfp : match_frac (fp ++ ep ++ r) = (fp, ep ++ r)).
  { apply match_frac_text; [done|..];
      destruct He as [->|(s & ds & -> & _)]; done. }
  assert (Hnd : no_digit (fp ++ ep ++ r)).
  { destruct Hf as [->|(ds & -> & _)]; [|done]. by destruct He as [->|(s & ds & -> & _)]. }
  unfold parse_number. rewrite match_int_text by done.
  rewrite Hfp, Hep. by destruct fp, ep.
Qed.

(** A value starting with a digit or a minus and a digit is a number. *)
Lemma parse_value_number f (neg : bool) ip rest :
  int_text ip -> parse_value (S f) (sgn neg ++ ip ++ rest) = parse_number (sgn neg ++ ip ++ rest).
Proof.
  intros [->|(c & ds & -> & Hc & H0 & Hds)]; [by destruct neg|].
  digit_split c Hc; try congruence; by destruct neg.
Qed.

(** ** Decimal texts of integers *)

Lemma pretty_N_go_head x s :
  (0 < x)%N -> exists c t, pretty_N_go x s = String c t /\ is_digit c = true /\ c <> "0"%char.
Proof.
  revert s. induction (N.lt_wf_0 x) as [x _ IH]; intros s Hx.
  rewrite pretty_N_go_step by lia.
  destruct (decide (x `div` 10 = 0)%N) as [Hd|Hd].
  - rewrite Hd, pretty_N_go_0. exists (pretty_N_char (x `mod` 10)), s.
    destruct (pretty_N_char_digit (x `mod` 10)%N) as [Hcd Hcv]; [apply N.mod_lt; lia|].
    split_and!; [done|done|]. intros Hc. rewrite Hc in Hcv.
    assert (x `mod` 10 = x)%N by (apply N.mod_small; apply N.div_small_iff; lia).
    change (digit_val "0") with 0%N in Hcv. lia.
  - apply (IH (x `div` 10)%N). { apply N.div_lt; lia. } by apply N.neq_0_lt_0.
Qed.

(** The decimal digits of a positive number: no leading zero. *)
Lemma pretty_pos_text (p : positive) :
  int_text (list_ascii_of_string (pretty (Npos p))) /\
  dval 0 (list_ascii_of_string (pretty (Npos p))) = Npos p.
Proof.
  unfold pretty, pretty_N. rewrite decide_False by done.
  destruct (pretty_N_go_las (Npos p) "") as (cs & Hl & Hd & Hv & _).
  destruct (pretty_N_go_head (Npos p) "") as (c & t & Ht & Hc & H0); [lia|].
  rewrite Hl, app_nil_r. split; [|done]. right.
  rewrite Ht in Hl. simpl in Hl. rewrite app_nil_r in Hl. subst cs.
  exists c, (list_ascii_of_string t). split_and!; try done. by apply Forall_inv_tail in Hd.
Qed.

(** [str(z)]: a sign and an integer part. *)
Lemma pretty_Z_text (z : Z) :
  exists (neg : bool) ip, list_ascii_of_string (pretty z) = sgn neg ++ ip /\ int_text ip /\
    z = (if neg then - Z.of_N (dval 0 ip) else Z.of_N (dval 0 ip))%Z.
Proof.
  destruct z as [|p|p].
  - exists false, ["0"%char]. split_and!; [done|by left|done].
  - destruct (pretty_pos_text p) as [Hi Hv]. exists false, (list_ascii_of_string (pretty (Npos p))). split_and!; [done|exact Hi|].
    rewrite Hv. done.
  - destruct (pretty_pos_text p) as [Hi Hv]. exists true, (list_ascii_of_string (pretty (Npos p))). split_and!; [|exact Hi|].
    + unfold pretty at 1, pretty_Z. by rewrite las_app.
    + rewrite Hv. done.
Qed.

(** ** The text of [repr] matches [NUMBER_RE] *)

(** Each layout of [format_repr] is an integer part, a fraction and an
    exponent, not both empty. *)
Lemma format_repr_shape ds c0 tl decpt :
  list_ascii_of_string ds = c0 :: tl -> digits (c0 :: tl) -> c0 <> "0"%char ->
  exists ip fp ep, list_ascii_of_string (format_repr ds decpt) = ip ++ fp ++ ep /\
    int_text ip /\ frac_text fp /\ exp_shape ep /\ fp ++ ep <> [].
Proof.
  intros Hcs Hd H0. pose proof (Forall_inv Hd) as Hc0. cbv beta in Hc0.
  pose proof (Forall_inv_tail Hd) as Htl.
  assert (Hi0 : forall ds', digits ds' -> int_text (c0 :: ds')) by (intros; right; by eexists _, _).
  rewrite (las_format_repr ds c0 tl decpt Hcs).
  destruct ((decpt <=? -4)%Z || (16 <? decpt)%Z).
  { destruct (las_exp_text (decpt - 1)) as (ecs & He & Hed & Hne & _).
    eexists [c0], _, _. split_and!; [reflexivity|by apply Hi0| |..].
    - destruct tl as [|t tl']; [by left|]. right. by eexists _.
    - right. rewrite He. eexists _, _. split_and!; [reflexivity|by case_match; [left|right]| |].
      + by destruct (if (Z.abs _ <? 10)%Z then _ else _), ecs.
      + apply Forall_app_2; [destruct (Z.abs _ <? 10)%Z; by repeat constructor|done].
    - by destruct (if (1 <? _)%nat then _ else _). }
  destruct (Z.leb_spec decpt 0) as [Hle|Hgt].
  { eexists ["0"%char], _, []. split_and!; [by rewrite app_nil_r|by left|right|by left|done].
    eexists _. split_and!; [reflexivity|by destruct (repeat _ _)|].
    apply Forall_app_2; [apply digits_zeros|done]. }
  destruct (Z.leb_spec (Z.of_nat (S (length tl))) decpt) as [Hge|Hlt].
  { eexists (c0 :: tl ++ repeat "0"%char (Z.to_nat decpt - S (length tl))), [".";"0"]%char, [].
    split_and!; [by rewrite app_nil_r| |right|by left|done].
    - apply Hi0. apply Forall_app_2; [done|apply digits_zeros].
    - eexists _. split_and!; [reflexivity|done|by repeat constructor]. }
  destruct (Z.to_nat decpt) as [|i] eqn:Hi; [lia|].
  eexists (c0 :: take i tl), ("."%char :: drop i tl), []. split_and!; [by rewrite app_nil_r| |right|by left|done].
  - apply Hi0. by apply Forall_take.
  - eexists _. split_and!; [reflexivity| |by apply Forall_drop].
    intros Hn. apply (f_equal length) in Hn. rewrite length_drop in Hn. simpl in Hn. lia.
Qed.

(** The text of [repr] of a zero or a finite float. *)
Lemma py_repr_text x :
  repr_found x = true ->
  match Prim2SF x with S754_zero _ | S754_finite _ _ _ => True | _ => False end ->
  exists (neg : bool) ip fp ep, list_ascii_of_string (py_repr x) = sgn neg ++ ip ++ fp ++ ep /\
    int_text ip /\ frac_text fp /\ exp_shape ep /\ fp ++ ep <> [].
Proof.
  unfold repr_found, py_repr. intros Hf Hk. destruct (Prim2SF x) as [s|s| |s m e] eqn:Hx; try done.
  { exists s, ["0"%char], [".";"0"]%char, []. split_and!; [by destruct s|by left|right|by left|done].
    eexists _. split_and!; [reflexivity|done|by repeat constructor]. }
  destruct (shortest_search (PrimFloat.abs x) m e) as [c|] eqn:Hs; [|discriminate].
  pose proof (shortest_digits_spec (PrimFloat.abs x) m e c Hs) as Hsp.
  destruct (shortest_digits (PrimFloat.abs x) m e) as [d k]. destruct Hsp as (Hpos & _ & _).
  destruct d as [|p|p]; [lia| |lia].
  destruct (pretty_pos_text p) as [[Hz|(c0 & tl & Hcs & Hc0 & H0 & Htl)] Hv].
  { rewrite Hz in Hv. discriminate Hv. }
  change (pretty (Zpos p)) with (pretty (Npos p)).
  destruct (format_repr_shape (pretty (Npos p)) c0 tl (k + Z.of_nat (String.length (pretty (Npos p))))
    Hcs ltac:(by constructor) H0) as (ip & fp & ep & Ht & Hrest).
  exists s, ip, fp, ep. split; [|done]. rewrite las_app, Ht. by destruct s.
Qed.

(** Every character of [repr]'s text satisfies a test that holds of
    the digits, [-], [.], [e], [+] and the letters of [inf] and [nan]. *)
Lemma forallb_py_repr (P : ascii -> bool) x :
  (forall c, is_digit c = true -> P c = true) ->
  forallb P ["-"; "."; "e"; "+"; "i"; "n"; "f"; "a"]%char = true ->
  repr_found x = true -> forallb P (list_ascii_of_string (py_repr x)) = true.
Proof.
  intros Hd Hs Hf. cbn [forallb] in Hs.
  repeat match goal with H : _ && _ = true |- _ => apply andb_prop in H as [? H] end.
  assert (Hds : forall ds, digits ds -> forallb P ds = true).
  { induction 1 as [|c ds Hc _ IH]; [done|]. simpl. by rewrite Hd, IH. }
  assert (Hzero : P "0"%char = true) by (apply Hd; reflexivity).
  destruct (Prim2SF x) as [s|s| |s m e] eqn:Hx.
  2-3: unfold py_repr; rewrite Hx; try destruct s; cbn;
    repeat match goal with H : ?Q ?c = true |- context [?Q ?c] => rewrite H end; reflexivity.
  all: destruct (py_repr_text x Hf) as (neg & ip & fp & ep & -> & Hi & Hfp & He & _);
    [by rewrite Hx|].
  all: destruct Hi as [->|(c & ds & -> & Hc & _ & Hdd)];
    destruct Hfp as [->|(ds' & -> & _ & Hd')];
    destruct He as [->|(sg & es & -> & [-> | ->] & _ & He')];
    destruct neg; rewrite !forallb_app; cbn [sgn forallb];
    rewrite ?Hds by assumption;
    repeat match goal with Hc : is_digit ?c = true |- _ => rewrite (Hd c Hc); clear Hc end;
    repeat match goal with H : ?Q ?c = true |- context [?Q ?c] => rewrite H end; reflexivity.
Qed.

(** ** Atoms *)

Lemma parse_value_int z f r :
  length (list_ascii_of_string (pretty z)) <= f -> after_value r ->
  parse_value f (list_ascii_of_string (pretty z) ++ r) = Some (JInt z, r).
Proof.
  intros Hl Hr. destruct (pretty_Z_text z) as (neg & ip & Ht & Hi & Hz). rewrite Ht in Hl |- *.
  destruct f as [|f].
  { rewrite length_app in Hl. destruct Hi as [->|(c & ds & -> & _)]; simpl in Hl; lia. }
  rewrite <- app_assoc, parse_value_number by done.
  pose proof (parse_number_text neg ip [] [] r Hi (or_introl eq_refl) (or_introl eq_refl) Hr) as Hp.
  cbn [app] in Hp. rewrite Hp, int_of_text_value by done. by rewrite <- Hz.
Qed.

Lemma parse_value_repr x f r :
  repr_found x = true ->
  match Prim2SF x with S754_zero _ | S754_finite _ _ _ => True | _ => False end ->
  length (list_ascii_of_string (py_repr x)) <= f -> after_value r ->
  parse_value f (list_ascii_of_string (py_repr x) ++ r) = Some (JFloat x, r).
Proof.
  intros Hf Hk Hl Hr.
  destruct (py_repr_text x Hf Hk) as (neg & ip & fp & ep & Ht & Hi & Hfr & He & Hne).
  rewrite Ht in Hl |- *. destruct f as [|f].
  { rewrite !length_app in Hl. destruct Hi as [->|(c & ds & -> & _)]; simpl in Hl; lia. }
  rewrite <- !app_assoc, parse_value_number, parse_number_text by done.
  destruct (fp ++ ep) as [|c0 t0] eqn:E; [done|]. rewrite <- app_assoc, <- Ht.
  by rewrite string_of_list_ascii_of_string, py_repr_reads_back.
Qed.

Lemma parse_value_float x f r :
  repr_found x = true ->
  length (list_ascii_of_string (json_float x)) <= f -> after_value r ->
  parse_value f (list_ascii_of_string (json_float x) ++ r) = Some (JFloat x, r).
Proof.
  intros Hf Hl Hr. unfold json_float in *.
  destruct (Prim2SF x) as [s|s| |s m e] eqn:Hx;
    try (apply parse_value_repr; rewrite ?Hx; done).
  - destruct s; (destruct f as [|f]; [simpl in Hl; lia|]); simpl;
      do 3 f_equal; apply Prim2SF_inj; by rewrite Hx.
  - destruct f as [|f]; [simpl in Hl; lia|]. simpl.
    do 3 f_equal; apply Prim2SF_inj; by rewrite Hx.
Qed.

Lemma parse_value_string s f r :
  parse_value (S f) (list_ascii_of_string (json_str s) ++ r) = Some (JStr s, r).
Proof.
  rewrite las_json_str, <- app_comm_cons, <- app_assoc. cbn [app].
  simpl parse_value. by rewrite parse_string_escape.
Qed.

(** ** Heads of dumped texts *)

Lemma digit_head c : is_digit c = true -> is_ws c = false /\ c <> "]"%char.
Proof. intros H. by digit_split c H. Qed.

Lemma number_head (neg : bool) ip rest : int_text ip -> text_head (sgn neg ++ ip ++ rest).
Proof.
  intros [->|(c & ds & -> & Hc & _)]; destruct neg; try by eexists _, _.
  destruct (digit_head c Hc). by eexists _, _.
Qed.

Lemma dump_head_ok v : json_ok v = true -> dump_head v.
Proof.
  unfold dump_head. intros Hok. destruct v as [|[]|z|x|s|l|kvs]; try by eexists _, _.
  - destruct (pretty_Z_text z) as (neg & ip & Ht & Hi & _). simpl. rewrite Ht, <- (app_nil_r ip).
    by apply number_head.
  - simpl in Hok |- *. unfold json_float. destruct (Prim2SF x) eqn:Hx;
      try (destruct s; by eexists _, _);
      try (by eexists _, _);
      (destruct (py_repr_text x Hok) as (neg & ip & fp & ep & Ht & Hi & _); [by rewrite Hx|];
       rewrite Ht; by apply number_head).
Qed.

(** ** Arrays and objects *)

Lemma las_join_cons2 sep x y l :
  list_ascii_of_string (str_join sep (x :: y :: l)) =
    list_ascii_of_string x ++ list_ascii_of_string sep ++ list_ascii_of_string (str_join sep (y :: l)).
Proof. by rewrite <- !las_app. Qed.

Lemma las_join_head sep x l :
  exists t, list_ascii_of_string (str_join sep (x :: l)) = list_ascii_of_string x ++ t.
Proof.
  destruct l as [|y l].
  - exists []. by rewrite app_nil_r.
  - eexists. apply las_join_cons2.
Qed.

Lemma skip_ws_head t r : text_head t -> skip_ws (t ++ r) = t ++ r.
Proof. intros (c & t' & -> & Hc & _). by apply skip_ws_keep. Qed.

Lemma parse_elements_dump l f r :
  Forall (fun v => reads_back v /\ dump_head v) l -> l <> [] ->
  length (list_ascii_of_string (str_join ", " (map json_dump l))) < f ->
  parse_elements f (list_ascii_of_string (str_join ", " (map json_dump l)) ++ "]"%char :: r) = Some (l, r).
Proof.
  revert f. induction l as [|v l IH]; intros f HF Hne Hl; [done|].
  apply Forall_cons in HF as [[Hv _] HF]. destruct f as [|f]; [lia|].
  destruct l as [|v2 l'].
  - cbn [map str_join] in *. simpl parse_elements. rewrite Hv by (lia || by right; right). done.
  - cbn [map] in *. rewrite las_join_cons2 in *. rewrite !length_app in Hl.
    pose proof (Forall_inv HF) as [_ Hh2].
    destruct (las_join_head ", " (json_dump v2) (map json_dump l')) as [t Ht].
    assert (Hk : skip_ws (list_ascii_of_string (str_join ", " (json_dump v2 :: map json_dump l')) ++ "]"%char :: r)
                 = list_ascii_of_string (str_join ", " (json_dump v2 :: map json_dump l')) ++ "]"%char :: r)
      by (rewrite Ht, <- app_assoc; by apply skip_ws_head).
    remember (list_ascii_of_string (str_join ", " (json_dump v2 :: map json_dump l'))) as T eqn:HT.
    rewrite <- !app_assoc. simpl parse_elements.
    rewrite Hv by (simpl in Hl; lia || by left). simpl skip_ws.
    simpl. rewrite Hk. simpl in Hl. subst T. rewrite IH by (done || lia). done.
Qed.

Lemma las_member k v :
  list_ascii_of_string (json_str k ++ ": " ++ json_dump v) =
    dquote :: list_ascii_of_string (escape k) ++ dquote :: ":"%char :: " "%char ::
      list_ascii_of_string (json_dump v).
Proof. rewrite !las_app, las_json_str. simpl. by rewrite <- app_assoc. Qed.

Lemma member_length k v :
  length (list_ascii_of_string (json_str k ++ ": " ++ json_dump v)) =
    4 + length (list_ascii_of_string (escape k)) + length (list_ascii_of_string (json_dump v)).
Proof. rewrite las_member. simpl. rewrite length_app. simpl. lia. Qed.

(** One member [key: value] and what follows it. *)
Lemma parse_members_member k v f rest :
  reads_back v -> dump_head v -> length (list_ascii_of_string (json_dump v)) <= f ->
  after_value rest ->
  parse_members (S f) (list_ascii_of_string (json_str k ++ ": " ++ json_dump v) ++ rest) =
    match skip_ws rest with
    | "}"%char :: r4 => Some ([(k, v)], r4)
    | ","%char :: r4 =>
        match parse_members f (skip_ws r4) with
        | Some (kvs, r5) => Some ((k, v) :: kvs, r5)
        | None => None
        end
    | _ => None
    end.
Proof.
  intros Hv Hh Hl Hr. rewrite las_member, <- app_comm_cons, <- app_assoc. cbn [app].
  simpl parse_members. rewrite parse_string_escape. simpl skip_ws.
  remember (list_ascii_of_string (json_dump v)) as D eqn:HD. simpl. subst D.
  rewrite skip_ws_head, Hv by done. done.
Qed.

Lemma parse_members_dump kvs f r :
  Forall (fun kv => reads_back kv.2 /\ dump_head kv.2) kvs -> kvs <> [] ->
  length (list_ascii_of_string (str_join ", " (map member_text kvs))) < f ->
  parse_members f (list_ascii_of_string (str_join ", " (map member_text kvs)) ++ "}"%char :: r) =
    Some (kvs, r).
Proof.
  revert f. induction kvs as [|[k v] kvs IH]; intros f HF Hne Hl; [done|].
  apply Forall_cons in HF as [[Hv Hh] HF]. destruct f as [|f]; [lia|].
  destruct kvs as [|[k2 v2] kvs'].
  - cbn [map str_join] in *. rewrite member_length in Hl.
    rewrite parse_members_member; [done|exact Hv|exact Hh|simpl in Hl |- *; lia|by right; left].
  - cbn [map fst snd] in *. rewrite las_join_cons2 in *. rewrite !length_app, member_length in Hl.
    cbn [length list_ascii_of_string] in Hl. rewrite <- !app_assoc.
    rewrite parse_members_member; [|exact Hv|exact Hh|simpl; lia|by left].
    destruct (las_join_head ", " (json_str k2 ++ ": " ++ json_dump v2)%string (map member_text kvs'))
      as [t Ht].
    assert (Hk : skip_ws (list_ascii_of_string (str_join ", " ((json_str k2 ++ ": " ++ json_dump v2)%string :: map member_text kvs'))
                  ++ "}"%char :: r)
                 = list_ascii_of_string (str_join ", " ((json_str k2 ++ ": " ++ json_dump v2)%string :: map member_text kvs'))
                  ++ "}"%char :: r)
      by (rewrite Ht, las_member; by apply skip_ws_keep).
    remember (list_ascii_of_string (str_join ", " ((json_str k2 ++ ": " ++ json_dump v2)%string :: map member_text kvs'))) as T eqn:HT.
    simpl. rewrite Hk. subst T. rewrite IH by (done || lia). done.
Qed.

Lemma parse_array_open f c t :
  is_ws c = false -> c <> "]"%char ->
  parse_value (S f) ("["%char :: c :: t) =
    match parse_elements f (c :: t) with Some (vs, r) => Some (JArr vs, r) | None => None end.
Proof.
  intros Hw Hc.
  destruct c as [[] [] [] [] [] [] [] []]; first [reflexivity | exfalso; vm_compute in Hw; congruence].
Qed.

Lemma forallb_Forall {X} (p : X -> bool) (Q : X -> Prop) l :
  forallb p l = true -> Forall (fun x => p x = true -> Q x) l -> Forall (fun x => Q x /\ p x = true) l.
Proof.
  induction l as [|x l IH]; simpl; [by constructor|]. intros [Hx Hl]%andb_prop HF.
  apply Forall_cons in HF as [Hq HF]. constructor; [split; auto|auto].
Qed.

Lemma las_dump_arr l :
  list_ascii_of_string (json_dump (JArr l)) =
    "["%char :: list_ascii_of_string (str_join ", " (map json_dump l)) ++ ["]"%char].
Proof. simpl. by rewrite !las_app. Qed.

Lemma las_dump_obj kvs :
  list_ascii_of_string (json_dump (JObj kvs)) =
    "{"%char :: list_ascii_of_string (str_join ", " (map member_text kvs)) ++ ["}"%char].
Proof. simpl. by rewrite !las_app. Qed.

(** ** The round trip *)

Lemma dump_reads_back v : json_ok v = true -> reads_back v.
Proof.
  induction v as [|b|z|x|s|l IH|kvs IH] using jvalue_ind'; intros Hok f r Hl Hr.
  - destruct f as [|f]; [simpl in Hl; lia|]. reflexivity.
  - destruct b, f as [|f]; simpl in Hl; try lia; reflexivity.
  - by apply parse_value_int.
  - by apply parse_value_float.
  - simpl json_dump in *. destruct f as [|f]; [rewrite las_json_str in Hl; simpl in Hl; lia|].
    apply parse_value_string.
  - simpl in Hok. pose proof (forallb_Forall _ _ _ Hok IH) as HF.
    rewrite las_dump_arr in Hl |- *. cbn [length] in Hl. rewrite length_app in Hl. cbn [length] in Hl.
    destruct f as [|f]; [lia|]. destruct l as [|v0 l0]; [reflexivity|].
    pose proof (Forall_inv HF) as [_ Hok0].
    destruct (las_join_head ", " (json_dump v0) (map json_dump l0)) as [t Ht].
    destruct (dump_head_ok v0 Hok0) as (c & t' & Hc & Hw & Hb).
    rewrite <- app_comm_cons, <- app_assoc. cbn [app map].
    rewrite Ht, Hc, <- app_comm_cons, <- app_comm_cons, parse_array_open by done.
    rewrite app_comm_cons, app_comm_cons, <- Hc, <- Ht.
    change (json_dump v0 :: map json_dump l0) with (map json_dump (v0 :: l0)).
    rewrite parse_elements_dump; [done| |done|lia].
    eapply Forall_impl; [exact HF|]. intros w [Hw' Hok']. split; [done|by apply dump_head_ok].
  - simpl in Hok. pose proof (forallb_Forall _ _ _ Hok IH) as HF.
    rewrite las_dump_obj in Hl |- *. cbn [length] in Hl. rewrite length_app in Hl. cbn [length] in Hl.
    destruct f as [|f]; [lia|]. destruct kvs as [|[k v0] kvs0]; [reflexivity|].
    destruct (las_join_head ", " (member_text (k, v0)) (map member_text kvs0)) as [t Ht].
    cbn [fst snd] in Ht. rewrite las_member in Ht.
    rewrite <- app_comm_cons, <- app_assoc. cbn [app].
    assert (HP : parse_members f (list_ascii_of_string (str_join ", " (map member_text ((k, v0) :: kvs0)))
                   ++ "}"%char :: r) = Some ((k, v0) :: kvs0, r)).
    { apply parse_members_dump; [|done|lia].
      eapply Forall_impl; [exact HF|]. intros w [Hw' Hok']. split; [done|by apply dump_head_ok]. }
    cbn [map fst snd] in HP |- *. rewrite Ht in HP |- *. rewrite <- app_assoc in HP |- *.
    rewrite <- app_comm_cons in HP |- *.
    remember (list_ascii_of_string (escape k) ++ _) as X eqn:HX.
    simpl. by rewrite HP.
Qed.

(** [json.loads] reads back the text of [json.dumps]. *)
Lemma loads_dump v : json_ok v = true -> json_loads (json_dump v) = Ok v.
Proof.
  intros Hok. unfold json_loads.
  destruct (dump_head_ok v Hok) as (c & t & Hc & Hw & _).
  pose proof (dump_reads_back v Hok (S (length (c :: t))) [] ltac:(rewrite Hc; lia) I) as H.
  rewrite app_nil_r, Hc in H. rewrite Hc, skip_ws_keep, H by done.
  by rewrite bool_decide_true.
Qed.

(** ** The ledger file *)

Lemma accounts_of_json_fold (l : list (string * Account float)) (m0 : gmap string (Account float)) :
  fold_left (fun acc kv =>
    match acc, account_of_json kv.2 with
    | Some m, Some a => Some (<[kv.1 := a]> (m : gmap string (Account float)))
    | _, _ => None
    end) (map (fun ua => (ua.1, account_json ua.2)) l) (Some m0) =
  Some (fold_left (fun (m : gmap string (Account float)) ua => <[ua.1 := ua.2]> m) l m0).
Proof.
  revert m0. induction l as [|[u a] l IH]; intros m0; [done|].
  destruct a. simpl. apply IH.
Qed.

(** Inserting the pairs of a list with distinct keys from the left
    gives [list_to_map]. *)
Lemma fold_insert_list_to_map {A} (l : list (string * A)) (m0 : gmap string A) :
  NoDup l.*1 -> fold_left (fun m ua => <[ua.1 := ua.2]> m) l m0 = list_to_map l ∪ m0.
Proof.
  revert m0. induction l as [|[u a] l IH]; intros m0 Hnd; simpl.
  - by rewrite map_empty_union.
  - apply NoDup_cons in Hnd as [Hu Hnd]. rewrite IH by done.
    rewrite <- insert_union_r by (by apply not_elem_of_list_to_map_1).
    by rewrite insert_union_l.
Qed.

Lemma json_ok_ledger (l : list (string * Account float)) :
  Forall (fun ua => repr_found (balance ua.2) = true) l -> json_ok (ledger_json l) = true.
Proof.
  intros Hl. simpl. induction Hl as [|[u a] l Ha Hl IH]; [done|]. simpl in *. by rewrite Ha, IH.
Qed.

(** What [load_accounts] gives back from the text [save_accounts]
    wrote for the pairs [l] of the dictionary. *)
Lemma load_saved_ledger (l : list (string * Account float)) :
  NoDup l.*1 -> Forall (fun ua => repr_found (balance ua.2) = true) l ->
  save_then_load l = Some (list_to_map l).
Proof.
  intros Hnd Hf. unfold save_then_load. rewrite loads_dump by (by apply json_ok_ledger).
  unfold ledger_json. cbn [accounts_of_json].
  rewrite accounts_of_json_fold, fold_insert_list_to_map by done. by rewrite map_union_empty.
Qed.

(** ** Bounds on the characters written *)

Lemma printable_digits ds : digits ds -> forallb printable ds = true.
Proof.
  induction 1 as [|c ds Hc _ IH]; [done|]. simpl. rewrite IH, andb_true_r.
  by digit_split c Hc.
Qed.

Lemma printable_int_text ip : int_text ip -> forallb printable ip = true.
Proof. intros [->|(c & ds & -> & Hc & _ & Hds)]; [done|]. apply printable_digits. by constructor. Qed.

Lemma printable_number (neg : bool) ip fp ep :
  int_text ip -> frac_text fp -> exp_shape ep ->
  forallb printable (sgn neg ++ ip ++ fp ++ ep) = true.
Proof.
  intros Hi [->|(ds & -> & _ & Hd)] [->|(sg & es & -> & Hs & _ & He)];
    rewrite !forallb_app, (printable_int_text ip Hi); destruct neg; simpl;
    rewrite ?printable_digits by done; try destruct Hs as [-> | ->]; done.
Qed.

Lemma printable_escape s : forallb printable (list_ascii_of_string (escape s)) = true.
Proof.
  induction s as [|c s IH]; [done|]. simpl escape. rewrite las_app, forallb_app, IH, andb_true_r.
  destruct c as [[] [] [] [] [] [] [] []]; reflexivity.
Qed.

Lemma printable_float x : repr_found x = true -> forallb printable (list_ascii_of_string (json_float x)) = true.
Proof.
  intros Hf. unfold json_float. destruct (Prim2SF x) as [s|[]| |s m e] eqn:Hx; try reflexivity;
    destruct (py_repr_text x Hf) as (neg & ip & fp & ep & -> & Hi & Hfp & He & _);
    rewrite ?Hx; try done; by apply printable_number.
Qed.

Lemma printable_str_join sep l :
  forallb printable (list_ascii_of_string sep) = true ->
  Forall (fun x => forallb printable (list_ascii_of_string x) = true) l ->
  forallb printable (list_ascii_of_string (str_join sep l)) = true.
Proof.
  intros Hs. induction 1 as [|x l Hx Hl IH]; [done|]. destruct l as [|y l]; [done|].
  rewrite las_join_cons2, !forallb_app, Hx, Hs. exact IH.
Qed.

Lemma printable_member k v :
  forallb printable (list_ascii_of_string (json_dump v)) = true ->
  forallb printable (list_ascii_of_string (json_str k ++ ": " ++ json_dump v)) = true.
Proof.
  intros Hv. rewrite las_member. simpl. rewrite forallb_app, printable_escape. simpl. exact Hv.
Qed.

(** ** Properties *)

(** [json.loads] reads back [json.dumps]: for every JSON value
    whose floats [repr] writes with its shortest round-tripping digits
    (every finite float, and NaN and the infinities, which [json.dump]
    writes as [NaN], [Infinity] and [-Infinity]), loading the text
    [json_dump] writes gives the same value: strings with every 8-bit
    character and their escapes, integers, floats, nested arrays and
    objects. *)
Theorem json_loads_json_dump (v : jvalue) : json_ok v = true -> json_loads (json_dump v) = Ok v.
Proof. exact (loads_dump v). Qed.

(** C34. Persistence round trip ([save_accounts] then
    [load_accounts], spec: persisting and reloading the ledger yields the
    same balances): the file [json.dump] writes for an accounts
    dictionary, whatever its iteration order [l], is loaded by
    [json.load] and read as accounts again into the same dictionary.
    This is the abstraction [DiskData m] of [Ledger]. *)
Theorem save_load_accounts (m : gmap string (Account float)) (l : list (string * Account float)) :
  l ≡ₚ map_to_list m -> map_Forall (fun _ a => repr_found (balance a) = true) m ->
  save_then_load l = Some m.
Proof.
  intros Hp Hm. assert (Hnd : NoDup l.*1) by (rewrite Hp; apply NoDup_fst_map_to_list).
  assert (Hf : Forall (fun ua => repr_found (balance ua.2) = true) l).
  { apply map_Forall_to_list in Hm. rewrite Hp. eapply Forall_impl; [exact Hm|]. by intros [u a]. }
  rewrite load_saved_ledger by done.
  by rewrite (list_to_map_proper l (map_to_list m)), list_to_map_to_list.
Qed.

(** Bounds of [ensure_ascii]: every character of the text
    [json.dump] writes into [accounts.json] is printable ASCII, from
    [' '] (32) to ['~'] (126), whatever the passwords hold (control
    characters, quotes, backslashes and Latin-1 letters are escaped)
    and whatever the balances are (NaN and the infinities included). *)
Theorem json_dump_printable (v : jvalue) :
  json_ok v = true -> forallb printable (list_ascii_of_string (json_dump v)) = true.
Proof.
  induction v as [|b|z|x|s|l IH|kvs IH] using jvalue_ind'; intros Hok; simpl in Hok.
  - reflexivity.
  - by destruct b.
  - destruct (pretty_Z_text z) as (neg & ip & Ht & Hi & _). simpl json_dump. rewrite Ht.
    pose proof (printable_number neg ip [] [] Hi (or_introl eq_refl) (or_introl eq_refl)) as P.
    by rewrite !app_nil_r in P.
  - by apply printable_float.
  - simpl json_dump. rewrite las_json_str. simpl. by rewrite forallb_app, printable_escape.
  - pose proof (forallb_Forall _ _ _ Hok IH) as HF. rewrite las_dump_arr. simpl.
    rewrite forallb_app, printable_str_join; [done|done|]. apply Forall_map.
    eapply Forall_impl; [exact HF|]. by intros w [? _].
  - pose proof (forallb_Forall _ _ _ Hok IH) as HF. rewrite las_dump_obj. simpl.
    rewrite forallb_app, printable_str_join; [done|done|]. apply Forall_map.
    eapply Forall_impl; [exact HF|]. intros [k w] [? _]. by apply printable_member.
Qed.
Lemma save_load_accounts_witness :
  [("alice", mkAccount "secret" 60%float)] ≡ₚ map_to_list scenario_accounts /\
  map_Forall (fun _ a => repr_found (balance a) = true) scenario_accounts /\
  save_then_load [("alice", mkAccount "secret" 60%float)] = Some scenario_accounts.
Proof.
  assert (Hp : [("alice", mkAccount "secret" 60%float)] ≡ₚ map_to_list scenario_accounts)
    by (unfold scenario_accounts; by rewrite map_to_list_singleton).
  assert (Hm : map_Forall (fun _ a => repr_found (balance a) = true) scenario_accounts)
    by (apply map_Forall_singleton; vm_compute; reflexivity).
  split_and!; [exact Hp|exact Hm|]. exact (save_load_accounts _ _ Hp Hm).
Defined.
