(* ===== verification/ClientMonad.v ===== *)
(** * ClientMonad: the effects of [ModernATMClient]'s methods

    A method of the client (src/code/client.py) reads and writes the
    object's attributes and the Tk widgets, talks to the server through
    [self.sock], may wait forever in [self.sock.recv(1024)] for a reply
    that never comes, and may raise: a [TclError] from a widget of a
    destroyed window, a socket error, a [ValueError] from [float()].
    This file gives those effects as a state monad with two abnormal
    outcomes, generic in the state [S] and the exceptions [E]:
    [CDone] (the method returned), [CBlocked] (it is blocked in [recv]
    and never returns) and [CRaise] (an exception left it).  [ccatch]
    is Python's [try ... except], for the exceptions a clause names.
    The notations [x <- m ;; k] and [m ;; k] live in [client_scope].
    [triple P m Q R] is a Hoare triple for the monad: from a state
    satisfying [P], [m] returns [x] in a state satisfying [Q x], or
    blocks or raises in a state satisfying [R]; its rules are proved
    here and used for the invariants of the client's views. *)

From S2P Require Import Prelude.

Inductive cresult (S E X : Type) :=
| CDone (s : S) (x : X)
| CBlocked (s : S)
| CRaise (s : S) (e : E).
Arguments CDone {S E X} s x.
Arguments CBlocked {S E X} s.
Arguments CRaise {S E X} s e.

Definition cm (S E X : Type) : Type := S -> cresult S E X.

Section Monad.
Context {S E : Type}.

(** The state an outcome leaves, however it ended. *)
Definition cres_state {X} (r : cresult S E X) : S :=
  match r with CDone s _ | CBlocked s | CRaise s _ => s end.

Definition cret {X} (x : X) : cm S E X := fun s => CDone s x.

Definition cbind {X Y} (m : cm S E X) (k : X -> cm S E Y) : cm S E Y :=
  fun s =>
    match m s with
    | CDone s' x => k x s'
    | CBlocked s' => CBlocked s'
    | CRaise s' e => CRaise s' e
    end.

Definition craise {X} (e : E) : cm S E X := fun s => CRaise s e.

(** [try: m  except <the exceptions [catches] selects> as e: h(e)] *)
Definition ccatch {X} (catches : E -> bool) (m : cm S E X) (h : E -> cm S E X) : cm S E X :=
  fun s =>
    match m s with
    | CRaise s' e => if catches e then h e s' else CRaise s' e
    | r => r
    end.

Definition cget : cm S E S := fun s => CDone s s.

Definition cmodify (f : S -> S) : cm S E unit := fun s => CDone (f s) tt.

End Monad.

Declare Scope client_scope.
Delimit Scope client_scope with client.

Notation "x <- m ;; k" := (cbind m (fun x => k))
  (at level 100, m at next level, k at level 200, right associativity) : client_scope.
Notation "m ;; k" := (cbind m (fun _ => k))
  (at level 100, k at level 200, right associativity) : client_scope.

(** ** Hoare triples *)

Section Triple.
Context {S E : Type}.
Implicit Types (P R : S -> Prop).

Definition triple {X} P (m : cm S E X) (Q : X -> S -> Prop) R : Prop :=
  forall s, P s ->
    match m s with
    | CDone s' x => Q x s'
    | CBlocked s' | CRaise s' _ => R s'
    end.

(** What holds of the state after [m] in every outcome. *)
Definition post_state {X} (Q : X -> S -> Prop) R (r : cresult S E X) : Prop :=
  match r with
  | CDone s' x => Q x s'
  | CBlocked s' | CRaise s' _ => R s'
  end.

Lemma triple_post {X} P (m : cm S E X) Q R s :
  triple P m Q R -> P s -> post_state Q R (m s).
Proof. intros Ht Hp. unfold post_state. by apply Ht. Qed.

Lemma triple_ret {X} P (x : X) Q R : (forall s, P s -> Q x s) -> triple P (cret x) Q R.
Proof. intros H s Hp. by apply H. Qed.

Lemma triple_raise {X} P (e : E) (Q : X -> S -> Prop) R :
  (forall s, P s -> R s) -> triple P (craise e) Q R.
Proof. intros H s Hp. by apply H. Qed.

Lemma triple_bind {X Y} P (m : cm S E X) (k : X -> cm S E Y) Q' Q R :
  triple P m Q' R -> (forall x, triple (Q' x) (k x) Q R) -> triple P (cbind m k) Q R.
Proof.
  intros Hm Hk s Hp. specialize (Hm s Hp). unfold cbind.
  destruct (m s) as [s' x|s'|s' e]; [by apply Hk|done|done].
Qed.

Lemma triple_catch {X} P (c : E -> bool) (m : cm S E X) h Q R :
  triple P m Q R -> (forall e, triple R (h e) Q R) -> triple P (ccatch c m h) Q R.
Proof.
  intros Hm Hh s Hp. specialize (Hm s Hp). unfold ccatch.
  destruct (m s) as [s' x|s'|s' e]; [done|done|]. destruct (c e); [by apply Hh|done].
Qed.

Lemma triple_conseq {X} P P' (m : cm S E X) Q Q' R R' :
  triple P' m Q' R' ->
  (forall s, P s -> P' s) -> (forall x s, Q' x s -> Q x s) -> (forall s, R' s -> R s) ->
  triple P m Q R.
Proof.
  intros Ht HP HQ HR s Hp. specialize (Ht s (HP s Hp)).
  destruct (m s); auto.
Qed.

Lemma triple_modify P (f : S -> S) Q R :
  (forall s, P s -> Q tt (f s)) -> triple P (cmodify f) Q R.
Proof. intros H s Hp. by apply H. Qed.

Lemma triple_get P Q R : (forall s, P s -> Q s s) -> triple P cget Q R.
Proof. intros H s Hp. by apply H. Qed.

(** A precondition that fixes a value, moved into the context. *)
Lemma triple_pre_exists {X} (P : S -> Prop) (m : cm S E X) Q R :
  (forall s0, P s0 -> triple (fun s => s = s0) m Q R) -> triple P m Q R.
Proof. intros H s Hp. by apply (H s Hp s). Qed.

End Triple.

(** The monad's equations, for computing a method on a concrete state. *)
Section Laws.
Context {S E : Type}.

Lemma cbind_done {X Y} (m : cm S E X) (k : X -> cm S E Y) s s' x :
  m s = CDone s' x -> cbind m k s = k x s'.
Proof. intros Hm. unfold cbind. by rewrite Hm. Qed.

Lemma cbind_blocked {X Y} (m : cm S E X) (k : X -> cm S E Y) s s' :
  m s = CBlocked s' -> cbind m k s = CBlocked s'.
Proof. intros Hm. unfold cbind. by rewrite Hm. Qed.

Lemma cbind_raise {X Y} (m : cm S E X) (k : X -> cm S E Y) s s' e :
  m s = CRaise s' e -> cbind m k s = CRaise s' e.
Proof. intros Hm. unfold cbind. by rewrite Hm. Qed.

Lemma cbind_assoc {X Y Z} (m : cm S E X) (k : X -> cm S E Y) (l : Y -> cm S E Z) s :
  cbind (cbind m k) l s = cbind m (fun x => cbind (k x) l) s.
Proof. unfold cbind. by destruct (m s). Qed.

Lemma cbind_ret_l {X Y} (x : X) (k : X -> cm S E Y) s : cbind (cret x) k s = k x s.
Proof. reflexivity. Qed.

Lemma cbind_ret_r {X} (m : cm S E X) s : cbind m cret s = m s.
Proof. unfold cbind. by destruct (m s). Qed.

(** Inside [try]: a step that returns passes on to the rest of the
    block; a raise goes to the handler when the clause names it. *)
Lemma ccatch_done {X} c (m : cm S E X) h s s' x :
  m s = CDone s' x -> ccatch c m h s = CDone s' x.
Proof. intros Hm. unfold ccatch. by rewrite Hm. Qed.

Lemma ccatch_raise {X} c (m : cm S E X) h s s' e :
  m s = CRaise s' e -> ccatch c m h s = if c e then h e s' else CRaise s' e.
Proof. intros Hm. unfold ccatch. by rewrite Hm. Qed.

Lemma ccatch_cbind_done {X Y} c (m : cm S E X) (k : X -> cm S E Y) h s s' x :
  m s = CDone s' x -> ccatch c (cbind m k) h s = ccatch c (k x) h s'.
Proof. intros Hm. unfold ccatch, cbind. by rewrite Hm. Qed.

Lemma ccatch_cbind_raise {X Y} c (m : cm S E X) (k : X -> cm S E Y) h s s' e :
  m s = CRaise s' e -> ccatch c (cbind m k) h s = if c e then h e s' else CRaise s' e.
Proof. intros Hm. unfold ccatch, cbind. by rewrite Hm. Qed.

End Laws.

Create HintDb client discriminated.
#[export] Hint Resolve triple_ret triple_raise triple_modify triple_get : client.
