(* ===== verification/Client.v ===== *)
(** * Client: [ModernATMClient] against the server

    [src/code/client.py] drives the server through [send_command]
    (lines 248-260): [sendall] the command, [recv(1024)], log both in
    the status monitor and return the reply; on any exception it logs
    "通信错误", shows an error box, destroys the window and returns [""].
    Its handlers [login] (194-211), [check_balance] (213-222),
    [withdraw] (224-239) and [logout] (241-246) decide on substrings of
    the reply and switch the view with [show_main_ui] (141-177) and
    [show_login_ui] (100-139).  [__init__] (11-27) connects
    ([connect_server], 83-93) and shows the login form.

    This file writes each method in the monad of [ClientMonad] over the
    system state [Sys]: the server's shared store and its handler's
    [current_user] (one connection, [Handler.handle_data] per chunk),
    the socket ([conn_state] and the replies not yet read), and the
    window: [self.current_user], the view in [main_container], the
    message boxes shown, the status monitor's lines (time stamps left
    out) and whether [root] is alive.  Every Tk call on a destroyed
    [root] raises [TclError] ([tk]).  One [sendall] arrives as one
    [recv] chunk of the server (commands are short).  The socket
    follows Linux TCP on the loop-back interface: after the server
    closed its end, [recv] returns [b""], one more [sendall] succeeds
    and draws a reset, and the next [sendall] raises [BrokenPipeError]
    (Python ignores SIGPIPE).  A command the server answers with
    nothing leaves the client waiting in [recv] for ever ([CBlocked]).
    The buttons and the event loop are in [ClientUI]. *)

From S2P Require Import Prelude Wire Amount Ledger Handler Float64 FloatRoundtrip FloatFormat JsonRoundtrip ClientMonad.
From Stdlib Require Import Ascii String QArith Floats.

Open Scope string_scope.

(** [substring in text] *)
Fixpoint contains (sub text : string) : bool :=
  String.prefix sub text ||
  match text with
  | EmptyString => false
  | String _ text' => contains sub text'
  end.

(** [text.split(":")] *)
Fixpoint split_colon_go (text : string) : string * list string :=
  match text with
  | EmptyString => (EmptyString, [])
  | String c text' =>
      let '(w, ws) := split_colon_go text' in
      if Ascii.eqb c ":"%char then (EmptyString, w :: ws) else (String c w, ws)
  end.

Definition split_colon (text : string) : list string :=
  let '(w, ws) := split_colon_go text in w :: ws.

(** [SERVER_HOST], [SERVER_PORT] (lines 6-7). *)
Definition SERVER_HOST : string := "localhost".
Definition SERVER_PORT : string := "2540".

(** The message boxes the client shows ([show_info], [show_error],
    [messagebox.showerror]). *)
Inductive ui_event :=
| UiBadPassword               (** "密码错误" *)
| UiBadUser                   (** "无效的用户名" *)
| UiBalance (shown : string)  (** "当前余额：¥" and the balance with two decimals *)
| UiWithdrawOk (shown : string) (** "成功取款 ¥" and the amount with two decimals *)
| UiWithdrawFail              (** "取款失败，请检查余额" *)
| UiBadAmount                 (** "请输入有效的金额" *)
| UiConnLost                  (** "服务器连接已中断" *)
| UiConnectFailed.            (** "无法连接到服务器" *)

(** The client's socket: connected to a running handler; closed by the
    server (its FIN read, replies may still be queued); broken (never
    connected, or reset by the server after a send): [sendall] raises
    [BrokenPipeError]; closed by the client ([on_closing]). *)
Inductive conn_state := ConnOpen | ConnClosedByServer | ConnBroken | ConnClosedByClient.

(** What [main_container] holds: nothing yet, the login form, the main
    screen, or the main screen with the withdraw panel placed over it. *)
Inductive screen := SNone | SLogin | SMain | SWithdraw.

(** The colour tags of the status monitor ([setup_status_bar], lines
    70-73). *)
Inductive status_tag := TagSend | TagRecv | TagError | TagSys.

(** What can leave a method: a [TclError] of a destroyed widget, an
    [OSError] of the socket with its text, or an exception of Python
    code ([ValueError] of [float()], [IndexError] of [split(":")[1]]). *)
Inductive client_exc :=
| TclError
| SockError (msg : string)
| PyExc (e : py_exc).

#[export] Instance client_exc_eq_dec : EqDecision client_exc.
Proof. solve_decision. Defined.

(** [str(e)].  The text of a [TclError] names the widget; it is only
    ever written to a destroyed status monitor, so it is abridged. *)
Definition exc_str (e : client_exc) : string :=
  match e with
  | TclError => "invalid command name"
  | SockError msg => msg
  | PyExc IndexError => "list index out of range"
  | PyExc KeyError => "KeyError"
  | PyExc ValueError => "could not convert string to float"
  | PyExc OSError => "OSError"
  end.

Definition EPIPE : client_exc := SockError "[Errno 32] Broken pipe".
Definition ECONNREFUSED : client_exc := SockError "[Errno 111] Connection refused".
Definition EBADF : client_exc := SockError "[Errno 9] Bad file descriptor".

Section Client.
Context {A : Type} `{Amount A}.

Record Sys := mkSys {
  sys_store : Store A;             (** the server's shared store *)
  sys_session : option string;     (** the handler's [current_user] *)
  sys_conn : conn_state;
  sys_inbox : list string;         (** replies sent and not yet read *)
  sys_client_user : option string; (** the client's [self.current_user] *)
  sys_ui : list ui_event;          (** message boxes shown *)
  sys_status : list (status_tag * string);  (** the status monitor's lines *)
  sys_view : screen;               (** what [main_container] shows *)
  sys_alive : bool                 (** [root] not destroyed *)
}.

Definition set_server (s : Sys) (st : Store A) (cu : option string) (c : conn_state)
    (inbox : list string) : Sys :=
  mkSys st cu c inbox (sys_client_user s) (sys_ui s) (sys_status s) (sys_view s) (sys_alive s).

Definition set_client_user (s : Sys) (u : option string) : Sys :=
  mkSys (sys_store s) (sys_session s) (sys_conn s) (sys_inbox s) u (sys_ui s) (sys_status s)
    (sys_view s) (sys_alive s).

Definition add_ui (s : Sys) (e : ui_event) : Sys :=
  mkSys (sys_store s) (sys_session s) (sys_conn s) (sys_inbox s) (sys_client_user s)
    (sys_ui s ++ [e]) (sys_status s) (sys_view s) (sys_alive s).

Definition add_status (s : Sys) (tag : status_tag) (msg : string) : Sys :=
  mkSys (sys_store s) (sys_session s) (sys_conn s) (sys_inbox s) (sys_client_user s)
    (sys_ui s) (sys_status s ++ [(tag, msg)]) (sys_view s) (sys_alive s).

Definition set_view (s : Sys) (v : screen) : Sys :=
  mkSys (sys_store s) (sys_session s) (sys_conn s) (sys_inbox s) (sys_client_user s)
    (sys_ui s) (sys_status s) v (sys_alive s).

Definition kill_root (s : Sys) : Sys :=
  mkSys (sys_store s) (sys_session s) (sys_conn s) (sys_inbox s) (sys_client_user s)
    (sys_ui s) (sys_status s) (sys_view s) false.

Local Abbreviation M := (cm Sys client_exc).
Local Open Scope client_scope.

(** A Tk call: its effect on a live [root], [TclError] on a destroyed
    one. *)
Definition tk (f : Sys -> Sys) : M unit :=
  fun s => if sys_alive s then CDone (f s) tt else CRaise s TclError.

(** A Python computation that may raise. *)
Definition lift {X} (r : res X) : M X :=
  match r with
  | Ok x => cret x
  | Raise e => craise (PyExc e)
  end.

(** [update_status(message, tag)] (lines 75-81). *)
Definition update_status (msg : string) (tag : status_tag) : M unit :=
  tk (fun s => add_status s tag msg).

(** [show_info] and [show_error] (lines 262-268). *)
Definition show_info (e : ui_event) : M unit := tk (fun s => add_ui s e).
Definition show_error (e : ui_event) : M unit := tk (fun s => add_ui s e).

(** [self.root.destroy()]: a second call raises as well. *)
Definition destroy_root : M unit := tk kill_root.

(** [clear_main_container] (lines 95-98). *)
Definition clear_main_container : M unit := tk (fun s => set_view s SNone).

Definition set_current_user (u : option string) : M unit :=
  cmodify (fun s => set_client_user s u).

(** [self.sock.sendall(cmd.encode())]: the server's handler reads the
    chunk and runs one iteration of its loop; a [break] or an exception
    closes the server's end after its replies. *)
Definition sock_sendall (addr cmd : string) : M unit :=
  fun s =>
    match sys_conn s with
    | ConnOpen =>
        match handle_data addr (sys_store s) (sys_session s) cmd with
        | SContinue st' cu' sent =>
            CDone (set_server s st' cu' ConnOpen (sys_inbox s ++ sent)) tt
        | SBreak st' sent | SRaise st' sent _ =>
            CDone (set_server s st' None ConnClosedByServer (sys_inbox s ++ sent)) tt
        end
    | ConnClosedByServer =>
        CDone (set_server s (sys_store s) None ConnBroken (sys_inbox s)) tt
    | ConnBroken => CRaise s EPIPE
    | ConnClosedByClient => CRaise s EBADF
    end.

(** [self.sock.recv(1024).decode()]: the queued replies; [b""] once the
    server closed its end; for ever waiting while it keeps the
    connection and sends nothing. *)
Definition sock_recv : M string :=
  fun s =>
    match sys_inbox s with
    | [] =>
        match sys_conn s with
        | ConnOpen => CBlocked s
        | ConnClosedByServer | ConnBroken => CDone s ""
        | ConnClosedByClient => CRaise s EBADF
        end
    | replies => CDone (set_server s (sys_store s) (sys_session s) (sys_conn s) []) (String.concat "" replies)
    end.

(** [self.sock.close()]: the server's [recv] returns [b""] and its
    handler leaves the loop. *)
Definition sock_close : M unit :=
  cmodify (fun s => set_server s (sys_store s) None ConnClosedByClient []).

(** [self.sock.connect((SERVER_HOST, SERVER_PORT))], to a server that
    listens or not. *)
Definition sock_connect (listening : bool) : M unit :=
  fun s =>
    if listening then CDone (set_server s (sys_store s) None ConnOpen []) tt
    else CRaise s ECONNREFUSED.

(** [send_command(cmd)] (lines 248-260). *)
Definition send_command (addr cmd : string) : M string :=
  ccatch (fun _ => true)
    (sock_sendall addr cmd ;;
     response <- sock_recv ;;
     update_status ("发送: " ++ cmd) TagSend ;;
     update_status ("接收: " ++ response) TagRecv ;;
     cret response)
    (fun e =>
     update_status ("通信错误: " ++ exc_str e) TagError ;;
     show_error UiConnLost ;;
     destroy_root ;;
     cret "").

(** [show_login_ui] (lines 100-139): the form's widgets are created on
    the cleared container. *)
Definition show_login_ui : M unit :=
  clear_main_container ;;
  update_status "进入登录界面" TagSys ;;
  tk (fun s => set_view s SLogin).

(** [show_main_ui] (lines 141-177). *)
Definition show_main_ui : M unit :=
  clear_main_container ;;
  s <- cget ;;
  update_status ("用户 " ++ py_str_user (sys_client_user s) ++ " 登录成功") TagSys ;;
  tk (fun s => set_view s SMain).

(** [show_withdraw_panel] (lines 179-192): the panel is placed over the
    main screen. *)
Definition show_withdraw_panel : M unit :=
  update_status "进入取款界面" TagSys ;;
  tk (fun s => set_view s SWithdraw).

(** [login] (lines 194-211), with the texts of the two entries. *)
Definition login (addr username password : string) : M unit :=
  update_status ("尝试登录用户: " ++ username) TagSys ;;
  response <- send_command addr ("HELO " ++ username) ;;
  if contains "500 AUTH REQUIRE" response then
    auth_res <- send_command addr ("PASS " ++ password) ;;
    if contains "525 OK!" auth_res then
      set_current_user (Some username) ;;
      show_main_ui
    else
      update_status "密码验证失败" TagError ;;
      show_error UiBadPassword
  else
    update_status "无效的用户名" TagError ;;
    show_error UiBadUser.

(** [check_balance] (lines 213-222): [response.split(":")[1]], then
    the client's [float()], which is Python's ([Float64]) whatever
    number type the server runs on; [float(balance)] is evaluated
    before the message box, and its [ValueError] leaves the callback. *)
Definition check_balance (addr : string) : M unit :=
  update_status "正在查询余额..." TagSys ;;
  response <- send_command addr "BALA" ;;
  if String.prefix "AMNT:" response then
    balance <- lift (py_index (split_colon response) 1) ;;
    f <- lift (py_float (A := float) balance) ;;
    show_info (UiBalance (format_2f f)) ;;
    update_status "余额查询成功" TagRecv
  else
    update_status "余额查询失败" TagError.

(** [withdraw] (lines 224-239): [float(amount)], Python's, checks the
    text, which is then sent as typed; only [ValueError] is caught. *)
Definition withdraw (addr amount : string) : M unit :=
  ccatch (fun e => bool_decide (e = PyExc ValueError))
    (lift (py_float (A := float) amount) ;;
     update_status ("尝试取款 ¥" ++ amount) TagSend ;;
     response <- send_command addr ("WDRA " ++ amount) ;;
     if contains "525 OK!" response then
       f <- lift (py_float (A := float) amount) ;;
       show_info (UiWithdrawOk (format_2f f)) ;;
       update_status "取款操作成功" TagRecv
     else
       update_status "取款请求被拒绝" TagError ;;
       show_error UiWithdrawFail)
    (fun _ =>
     update_status "无效的金额输入" TagError ;;
     show_error UiBadAmount).

(** [logout] (lines 241-246): send BYE, forget the user, back to the
    login form; the socket is kept. *)
Definition logout (addr : string) : M unit :=
  update_status "用户注销登录" TagSys ;;
  send_command addr "BYE" ;;
  set_current_user None ;;
  show_login_ui.

(** [on_closing] (lines 270-275): [self.sock] is always a socket
    object, hence true. *)
Definition on_closing : M unit :=
  update_status "正在关闭连接..." TagSys ;;
  sock_close ;;
  destroy_root.

(** [connect_server] (lines 83-93). *)
Definition connect_server (listening : bool) : M unit :=
  ccatch (fun _ => true)
    (update_status "正在连接服务器..." TagSys ;;
     sock_connect listening ;;
     update_status ("已连接到服务器 " ++ SERVER_HOST ++ ":" ++ SERVER_PORT) TagSys)
    (fun e =>
     update_status ("连接失败: " ++ exc_str e) TagError ;;
     show_error UiConnectFailed ;;
     destroy_root).

(** [setup_status_bar] (lines 52-73): an empty, read-only monitor. *)
Definition setup_status_bar : M unit :=
  tk (fun s => mkSys (sys_store s) (sys_session s) (sys_conn s) (sys_inbox s)
                 (sys_client_user s) (sys_ui s) [] (sys_view s) (sys_alive s)).

(** [configure_styles] (lines 29-50): the [clam] theme and the fonts
    and colours of the widget classes, Tk calls on the live [root] whose
    effect is on the look of the window only. *)
Definition configure_styles : M unit := tk (fun s => s).

(** [ModernATMClient.__init__] (lines 11-27): the frames are widgets of
    the live [root]. *)
Definition client_init (listening : bool) : M unit :=
  configure_styles ;;
  set_current_user None ;;
  setup_status_bar ;;
  connect_server listening ;;
  show_login_ui.

(** The state [tk.Tk()] leaves before [ModernATMClient(root)] (lines
    278-288): a live window, an empty container, no socket yet. *)
Definition tk_root (st : Store A) : Sys :=
  mkSys st None ConnBroken [] None [] [] SNone true.

(** The client [__init__] leaves when the server listens. *)
Definition fresh_sys (st : Store A) : Sys :=
  mkSys st None ConnOpen [] None []
    [(TagSys, "正在连接服务器..."); (TagSys, "已连接到服务器 localhost:2540");
     (TagSys, "进入登录界面")] SLogin true.

(** The two status lines [send_command] writes once the reply is in
    (lines 253-254), as one state change. *)
Definition log_exchange (s : Sys) (cmd response : string) : Sys :=
  add_status (add_status s TagSend ("发送: " ++ cmd)) TagRecv ("接收: " ++ response).

End Client.

Arguments Sys A : clear implicits.

(** Evaluate a method on a state whose fields are known, leaving the
    server's iteration, [float()] and string concatenation folded. *)
Ltac crun :=
  unfold send_command, sock_sendall, sock_recv, sock_close, sock_connect, update_status,
    show_info, show_error, destroy_root, clear_main_container, set_current_user, tk, lift,
    show_login_ui, show_main_ui, show_withdraw_panel,
    ccatch, cbind, cret, craise, cget, cmodify;
  cbn -[handle_data py_float String.append String.concat].


(** ** How [send_command] ends *)

Section ClientLemmas.
Context {A : Type} `{Amount A}.
Implicit Types (s : Sys A).

Lemma tk_alive s f : sys_alive s = true -> tk f s = CDone (f s) tt.
Proof. intros Ha. unfold tk. by rewrite Ha. Qed.

Lemma tk_dead s f : sys_alive s = false -> tk f s = CRaise s TclError.
Proof. intros Ha. unfold tk. by rewrite Ha. Qed.

Lemma lift_ok {X} (r : res X) x s : r = Ok x -> lift r s = CDone s x.
Proof. by intros ->. Qed.

Lemma lift_raise {X} (r : res X) e s : r = Raise e -> lift (A := A) r s = CRaise s (PyExc e).
Proof. by intros ->. Qed.

Lemma send_command_reply addr s cmd st' cu' r rs :
  sys_conn s = ConnOpen -> sys_inbox s = [] -> sys_alive s = true ->
  handle_data addr (sys_store s) (sys_session s) cmd = SContinue st' cu' (r :: rs) ->
  send_command addr cmd s =
    CDone (log_exchange (set_server s st' cu' ConnOpen []) cmd (String.concat "" (r :: rs)))
      (String.concat "" (r :: rs)).
Proof. intros Hc Hi Ha Hd. destruct s; simpl in *; subst. crun. by rewrite Hd. Qed.

Lemma send_command_break addr s cmd st' sent :
  sys_conn s = ConnOpen -> sys_inbox s = [] -> sys_alive s = true ->
  handle_data addr (sys_store s) (sys_session s) cmd = SBreak st' sent ->
  send_command addr cmd s =
    CDone (log_exchange (set_server s st' None ConnClosedByServer []) cmd (String.concat "" sent))
      (String.concat "" sent).
Proof. intros Hc Hi Ha Hd. destruct s; simpl in *; subst. crun. rewrite Hd. by destruct sent. Qed.

(** After the server closed its end: the send succeeds, draws a reset,
    and the reply is [""]. *)
Lemma send_command_closed addr s cmd :
  sys_conn s = ConnClosedByServer -> sys_inbox s = [] -> sys_alive s = true ->
  send_command addr cmd s =
    CDone (log_exchange (set_server s (sys_store s) None ConnBroken []) cmd "") "".
Proof. intros Hc Hi Ha. destruct s; simpl in *; subst. by crun. Qed.

(** On a broken connection: the [except] branch destroys the window. *)
Lemma send_command_broken addr s cmd :
  sys_conn s = ConnBroken -> sys_alive s = true ->
  send_command addr cmd s =
    CDone (kill_root (add_ui (add_status s TagError ("通信错误: " ++ exc_str EPIPE)) UiConnLost)) "".
Proof. intros Hc Ha. destruct s; simpl in *; subst. by crun. Qed.

Lemma contains_auth_require : contains "500 AUTH REQUIRE" (String.concat "" [AUTH_REQUIRE]) = true.
Proof. reflexivity. Qed.

Lemma contains_ok : contains "525 OK!" (String.concat "" [OK]) = true.
Proof. reflexivity. Qed.

Lemma contains_ok_error : contains "525 OK!" (String.concat "" [ERROR]) = false.
Proof. reflexivity. Qed.

Lemma contains_auth_empty : contains "500 AUTH REQUIRE" "" = false.
Proof. reflexivity. Qed.

Lemma contains_ok_empty : contains "525 OK!" "" = false.
Proof. reflexivity. Qed.

End ClientLemmas.

(** The fields of a state built by the setters. *)
Ltac sys_simpl :=
  cbn [sys_store sys_session sys_conn sys_inbox sys_client_user sys_ui sys_status sys_view
       sys_alive set_server set_client_user add_ui add_status set_view kill_root log_exchange].

Ltac hd_assumption := sys_simpl; match goal with H : handle_data _ _ _ _ = _ |- _ => exact H end.

(** Decide whether an [except] clause names the exception raised. *)
Ltac except_test :=
  try (rewrite bool_decide_false by discriminate); try (rewrite bool_decide_true by reflexivity);
  cbv iota.

(** Symbolic execution of a method on a state whose fields are known.
    [cprim] proves [m s = CDone _ _] or [m s = CRaise _ _] for the
    action [m] at the head of a method, by the equation of its primitive
    or, for a composite action ([try] blocks, the [show_*] methods), by
    running it step by step ([csub]); [cstep] runs the head action of a
    sequence and passes its result on. *)
Ltac cprim :=
  first [ apply tk_alive; sys_simpl; reflexivity
        | apply tk_dead; sys_simpl; reflexivity
        | eapply send_command_reply; [sys_simpl; reflexivity .. | hd_assumption]
        | eapply send_command_break; [sys_simpl; reflexivity .. | hd_assumption]
        | eapply send_command_closed; sys_simpl; reflexivity
        | eapply send_command_broken; sys_simpl; reflexivity
        | eapply lift_ok; eassumption
        | eapply lift_raise; eassumption
        | lazymatch goal with
          | |- ?m _ = _ =>
              lazymatch m with
              | cmodify _ => reflexivity
              | set_current_user _ => reflexivity
              | cget => reflexivity
              | cret _ => reflexivity
              | craise _ => reflexivity
              | sock_close => reflexivity
              | sock_connect _ => reflexivity
              end
          end
        | csub ]
with csub :=
  unfold show_login_ui, show_main_ui, show_withdraw_panel, connect_server;
  progress (repeat cstep); first [reflexivity | cprim]
with cstep :=
  lazymatch goal with
  | |- context [ccatch ?c (cbind ?m ?k) ?h ?s] =>
      first [ let E := fresh "E" in
              eassert (E : m s = CDone _ _) by cprim;
              rewrite (ccatch_cbind_done c m k h s _ _ E); clear E
            | let E := fresh "E" in
              eassert (E : m s = CRaise _ _) by cprim;
              rewrite (ccatch_cbind_raise c m k h s _ _ E); clear E; cbv beta iota; except_test ];
      cbv beta
  | |- context [ccatch ?c ?m ?h ?s] =>
      first [ let E := fresh "E" in
              eassert (E : m s = CDone _ _) by cprim;
              rewrite (ccatch_done c m h s _ _ E); clear E
            | let E := fresh "E" in
              eassert (E : m s = CRaise _ _) by cprim;
              rewrite (ccatch_raise c m h s _ _ E); clear E; cbv beta iota; except_test ]
  | |- context [cbind ?m ?k ?s] =>
      first [ let E := fresh "E" in
              eassert (E : m s = CDone _ _) by cprim;
              rewrite (cbind_done m k s _ _ E); clear E
            | let E := fresh "E" in
              eassert (E : m s = CRaise _ _) by cprim;
              rewrite (cbind_raise m k s _ _ E); clear E ];
      cbv beta
  end.

(** The last action of a method. *)
Ltac clast :=
  lazymatch goal with
  | |- context [?m ?s = ?r] =>
      let E := fresh "E" in
      first [ eassert (E : m s = CDone _ _) by cprim | eassert (E : m s = CRaise _ _) by cprim ];
      rewrite E; clear E
  end.

(** Decide a test on a reply. *)
Ltac cif := rewrite ?contains_auth_require, ?contains_ok, ?contains_ok_error, ?contains_auth_empty,
  ?contains_ok_empty;
  cbv beta iota.

Section ClientSteps.
Context {A : Type} `{Amount A}.
Implicit Types (s : Sys A).

(** The server's side of the commands the client builds. *)
Lemma handle_helo_known addr st cu name u rest acct :
  py_split ("HELO " ++ name) = "HELO" :: u :: rest -> accounts st !! u = Some acct ->
  handle_data addr st cu ("HELO " ++ name) =
    SContinue (log st (log_line addr u "Authentication required")) (Some u) [AUTH_REQUIRE].
Proof. intros Hn Hu. rewrite (handle_data_words _ _ _ _ _ _ Hn), dispatch_HELO. by apply do_helo_known with acct. Qed.

Lemma handle_pass_ok addr st u acct :
  is_word u = true -> is_word (password acct) = true -> accounts st !! u = Some acct ->
  handle_data addr st (Some u) ("PASS " ++ password acct) =
    SContinue (log st (log_line addr u "Login success")) (Some u) [OK].
Proof.
  intros Hu Hp Hacc. rewrite (handle_data_words _ _ _ _ "PASS" [password acct])
    by (by apply (py_split_cmd_arg "PASS" (password acct))).
  rewrite dispatch_PASS. by apply do_pass_ok with acct.
Qed.

Lemma handle_pass_wrong addr st u acct p :
  is_word u = true -> is_word p = true -> password acct <> p -> accounts st !! u = Some acct ->
  handle_data addr st (Some u) ("PASS " ++ p) = SContinue st (Some u) [ERROR].
Proof.
  intros Hu Hp Hne Hacc. rewrite (handle_data_words _ _ _ _ "PASS" [p])
    by (by apply (py_split_cmd_arg "PASS" p)).
  rewrite dispatch_PASS. by apply do_pass_wrong with acct.
Qed.

Lemma handle_bye addr st cu :
  handle_data addr st cu "BYE" = SBreak (log st (log_line addr (py_str_user cu) "Session ended")) [BYE].
Proof. rewrite (handle_data_words _ _ _ _ "BYE" []) by reflexivity. by rewrite dispatch_BYE. Qed.

(** A login whose HELO line reads account [u], on an open connection
    with nothing pending: both sides end up logged in, the client under
    the name it typed, and the main screen is shown. *)
Lemma login_reads_account addr s name u rest acct :
  sys_conn s = ConnOpen -> sys_inbox s = [] -> sys_alive s = true ->
  py_split ("HELO " ++ name) = "HELO" :: u :: rest ->
  is_word u = true -> is_word (password acct) = true -> accounts (sys_store s) !! u = Some acct ->
  exists s', login addr name (password acct) s = CDone s' tt /\
    sys_client_user s' = Some name /\ sys_session s' = Some u /\ sys_conn s' = ConnOpen /\
    sys_inbox s' = [] /\ sys_view s' = SMain /\ sys_ui s' = sys_ui s /\ sys_alive s' = true.
Proof.
  intros Hc Hi Ha Hn Hu Hp Hacc. destruct s; simpl in *; subst. unfold login.
  pose proof (handle_helo_known addr sys_store0 sys_session0 _ _ _ _ Hn Hacc) as E1.
  pose proof (handle_pass_ok addr (log sys_store0 (log_line addr u "Authentication required"))
                u acct Hu Hp ltac:(by rewrite log_accounts)) as E2.
  do 2 cstep. cif. cstep. cif. cstep. unfold show_main_ui. do 3 cstep. eexists; split; [clast; reflexivity|]. sys_simpl. repeat split.
Qed.

Lemma prefix_app (p t : string) : String.prefix p (p ++ t) = true.
Proof.
  induction p as [|c p IH]; [by destruct t|]. simpl.
  destruct (ascii_dec c c); [exact IH|congruence].
Qed.

(** [text.split(":")] of a text without a colon is the text alone. *)
Lemma split_colon_go_free t :
  forallb (fun c => negb (Ascii.eqb c ":")) (list_ascii_of_string t) = true ->
  split_colon_go t = (t, []).
Proof.
  induction t as [|c t IH]; [done|]. cbn [list_ascii_of_string forallb].
  intros [Hc Ht]%andb_prop. cbn [split_colon_go]. rewrite (IH Ht).
  apply negb_true_iff in Hc. by rewrite Hc.
Qed.

(** The [AMNT:] reply of a balance [repr] writes splits at its only
    colon. *)
Lemma split_colon_amnt (b : float) :
  repr_found b = true -> split_colon (AMNT (py_repr b)) = ["AMNT"; py_repr b].
Proof.
  intros Hf. unfold split_colon, AMNT.
  change ("AMNT:" ++ py_repr b) with
    (String "A" (String "M" (String "N" (String "T" (String ":" (py_repr b)))))).
  cbn [split_colon_go]. rewrite (split_colon_go_free (py_repr b)); [reflexivity|].
  apply forallb_py_repr; [|reflexivity|exact Hf].
  intros c Hc. apply negb_true_iff. destruct (Ascii.eqb_spec c ":"%char) as [->|]; [done|done].
Qed.

End ClientSteps.

(** ** Start-up and the client's operations against the server *)

Section ClientProps.
Context {A : Type} `{Amount A}.
Implicit Types (s : Sys A) (st : Store A) (acct : Account A).
Local Open Scope client_scope.

(** C14. The program's start, [ModernATMClient(root)] on a fresh
    [tk.Tk()].  When the server listens, it returns with the socket
    connected, nobody logged in on either side, the login form shown and
    the three status lines of [connect_server] and [show_login_ui]: the
    state [fresh_sys] the other theorems start from.  When no server
    listens, [connect_server] logs the refused connection, shows
    "无法连接到服务器" and destroys the window, and [__init__] then calls
    [show_login_ui] on the destroyed window, whose first Tk call raises
    [TclError]: the constructor raises, [root.mainloop()] is never
    reached and the program stops with a traceback. *)
Theorem client_start st :
  client_init true (tk_root st) = CDone (fresh_sys st) tt /\
  client_init false (tk_root st) =
    CRaise (mkSys st None ConnBroken [] None [UiConnectFailed]
              [(TagSys, "正在连接服务器..."); (TagError, "连接失败: [Errno 111] Connection refused")]
              SNone false) TclError.
Proof. unfold client_init. split; repeat cstep; [clast|]; reflexivity. Qed.

(** C11. Logging in from a freshly started client with an existing
    one-word account id and its one-word password shows the main
    screen, with no message box, and both the client and the server's
    handler hold that account. *)
Theorem login_correct_credentials addr st u acct :
  is_word u = true -> is_word (password acct) = true -> accounts st !! u = Some acct ->
  exists s, login addr u (password acct) (fresh_sys st) = CDone s tt /\
    sys_client_user s = Some u /\ sys_session s = Some u /\ sys_conn s = ConnOpen /\
    sys_view s = SMain /\ sys_ui s = [] /\ sys_alive s = true.
Proof.
  intros Hu Hp Hacc.
  destruct (login_reads_account addr (fresh_sys st) u u [] acct) as (s & ? & ? & ? & ? & _ & ? & ? & ?);
    try done; [|by eexists].
  by apply (py_split_cmd_arg "HELO" u).
Qed.

(** C12. A user name with a space, [u ++ " " ++ x] for an existing
    account [u]: the server reads only [u] and binds the session to it,
    while the client believes [u ++ " " ++ x] is logged in and greets
    that name on the main screen. *)
Theorem login_name_with_space addr st u x acct :
  is_word u = true -> is_word x = true -> is_word (password acct) = true ->
  accounts st !! u = Some acct ->
  exists s, login addr (u ++ " " ++ x) (password acct) (fresh_sys st) = CDone s tt /\
    sys_client_user s = Some (u ++ " " ++ x) /\ sys_session s = Some u /\ sys_view s = SMain.
Proof.
  intros Hu Hx Hp Hacc.
  destruct (login_reads_account addr (fresh_sys st) (u ++ " " ++ x) u [x] acct)
    as (s & ? & ? & ? & _ & _ & ? & _); try done; [|by eexists].
  apply (py_split_join ["HELO"; u; x]). by repeat apply Forall_cons_2.
Qed.

(** C10. After [logout] the server has closed the connection while the
    client keeps the socket and shows the login form.  The next login,
    whatever its credentials, reads [b""] and shows "无效的用户名",
    changing nothing on the server; the one after it raises
    [BrokenPipeError] in [sendall]: [send_command] shows "服务器连接已中断"
    and destroys the window, and [login] then raises [TclError] on the
    destroyed status monitor.  The client cannot log in again. *)
Theorem relogin_after_logout_fails addr s u1 p1 u2 p2 :
  sys_conn s = ConnOpen -> sys_inbox s = [] -> sys_alive s = true ->
  exists s1, logout addr s = CDone s1 tt /\ sys_view s1 = SLogin /\ sys_client_user s1 = None /\
    sys_conn s1 = ConnClosedByServer /\
  exists s2, login addr u1 p1 s1 = CDone s2 tt /\ sys_ui s2 = (sys_ui s1 ++ [UiBadUser])%list /\
    sys_view s2 = SLogin /\ sys_store s2 = sys_store s1 /\ sys_alive s2 = true /\
  exists s3, login addr u2 p2 s2 = CRaise s3 TclError /\
    sys_ui s3 = (sys_ui s2 ++ [UiConnLost])%list /\ sys_store s3 = sys_store s2 /\
    sys_alive s3 = false.
Proof.
  intros Hc Hi Ha. destruct s; simpl in *; subst. unfold logout.
  pose proof (handle_bye addr sys_store0 sys_session0) as E1.
  repeat cstep. eexists; split; [clast; reflexivity|]. sys_simpl. do 3 (split; [done|]).
  unfold login. do 2 cstep. cif. cstep. eexists; split; [clast; reflexivity|]. sys_simpl.
  do 4 (split; [done|]).
  do 2 cstep. cif. cstep. eexists; split; [reflexivity|]. sys_simpl. by rewrite <- app_assoc.
Qed.

(** C30. A login with an existing account id and a wrong password
    shows "密码错误" and stays on the login form with nobody logged in
    on the client, while the server's handler stays bound to the
    account: [HELO] set its [current_user] and the failed [PASS] does
    not reset it, so the connection the client believes logged out is
    one [BALA] away from the balance (C1). *)
Theorem login_wrong_password addr st u acct p :
  is_word u = true -> is_word p = true -> password acct <> p -> accounts st !! u = Some acct ->
  exists s, login addr u p (fresh_sys st) = CDone s tt /\
    sys_ui s = [UiBadPassword] /\ sys_view s = SLogin /\ sys_client_user s = None /\
    sys_session s = Some u /\ sys_conn s = ConnOpen /\ sys_alive s = true.
Proof.
  intros Hu Hp Hne Hacc. unfold fresh_sys, login.
  pose proof (handle_helo_known addr st None u u [] acct
                (py_split_cmd_arg "HELO" u eq_refl Hu) Hacc) as E1.
  pose proof (handle_pass_wrong addr (log st (log_line addr u "Authentication required"))
                u acct p Hu Hp Hne ltac:(by rewrite log_accounts)) as E2.
  do 2 cstep. cif. cstep. cif. cstep. eexists; split; [clast; reflexivity|].
  sys_simpl. repeat split.
Qed.

(** C31. [float(amount)] guards the withdrawal: a text Python's
    [float()] rejects shows "请输入有效的金额" and sends nothing, so the
    server's store, its handler and the connection are untouched. *)
Theorem withdraw_invalid_amount addr s text :
  sys_alive s = true -> py_float (A := float) text = Raise ValueError ->
  withdraw addr text s = CDone (add_ui (add_status s TagError "无效的金额输入") UiBadAmount) tt.
Proof.
  intros Ha Hf. destruct s; simpl in *; subst. unfold withdraw.
  cstep. clast. reflexivity.
Qed.


(** C13. The client's only check on an amount is Python's
    [float(amount)]: a one-word amount that it accepts, that the
    server's number type reads, and that the server's balance covers is
    debited, persisted and confirmed ("成功取款" with the amount to two
    decimals), whatever its sign. *)
Theorem client_withdraw_debits addr s u acct text a f :
  sys_conn s = ConnOpen -> sys_inbox s = [] -> sys_alive s = true -> sys_session s = Some u ->
  accounts (sys_store s) !! u = Some acct -> is_word text = true ->
  py_float (A := float) text = Ok f ->
  py_float text = Ok a -> amt_ge (balance acct) a = true -> fs (sys_store s) = FsOk ->
  exists s1, withdraw addr text s = CDone s1 tt /\
    sys_ui s1 = (sys_ui s ++ [UiWithdrawOk (format_2f f)])%list /\
    accounts (sys_store s1) =
      <[u := set_balance acct (amt_sub (balance acct) a)]> (accounts (sys_store s)) /\
    disk (sys_store s1) = DiskData (accounts (sys_store s1)).
Proof.
  intros Hc Hi Ha Hs Hacc Hw Hcf Hf Hge Hfs. destruct s; simpl in *; subst. unfold withdraw.
  eassert (E1 : handle_data addr sys_store0 (Some u) ("WDRA " ++ text) = SContinue _ (Some u) [OK]).
  { rewrite (handle_data_words _ _ _ _ "WDRA" [text]) by (by apply (py_split_cmd_arg "WDRA" text)).
    rewrite dispatch_WDRA, (do_wdra_amount _ _ _ _ _ _ Hf),
      (withdraw_locked_accept _ _ acct) by done. reflexivity. }
  do 3 cstep. cif. do 2 cstep. eexists; split; [clast; reflexivity|]. by sys_simpl.
Qed.

End ClientProps.

(** ** The balance the client shows *)

(** C19. The balance box shows the server's balance to the cent: on a
    client logged in to account [u] (server on Python floats), the
    button [check_balance] sends [BALA], the server answers
    [AMNT:repr(b)] for the stored balance [b], the client takes
    [response.split(":")[1]] and shows [format(float(...), '.2f')],
    which is [format(b, '.2f')]: the stored balance itself to two
    decimals (within half a cent of it, [FloatFormat]).  Nothing else
    changes on either side but the server's log line and the status
    lines.  [b] is any float whose shortest decimal has at most 17
    digits. *)
Theorem check_balance_shows_balance addr (s : Sys float) u acct :
  sys_conn s = ConnOpen -> sys_inbox s = [] -> sys_alive s = true -> sys_session s = Some u ->
  u <> "" -> accounts (sys_store s) !! u = Some acct -> repr_found (balance acct) = true ->
  exists s1, check_balance addr s = CDone s1 tt /\
    sys_ui s1 = (sys_ui s ++ [UiBalance (format_2f (balance acct))])%list /\
    accounts (sys_store s1) = accounts (sys_store s) /\ sys_session s1 = Some u /\
    sys_view s1 = sys_view s /\ sys_alive s1 = true.
Proof.
  intros Hc Hi Ha Hs Hu Hacc Hf. destruct s; simpl in *; subst. unfold check_balance.
  eassert (E1 : handle_data addr sys_store0 (Some u) "BALA" =
                  SContinue _ (Some u) [AMNT (py_repr (balance acct))]).
  { rewrite (handle_data_words _ _ _ _ "BALA" []) by reflexivity.
    rewrite dispatch_BALA. unfold do_bala, lookup_user. cbn [py_truthy].
    rewrite (py_getitem_lookup _ _ _ Hacc). apply String.eqb_neq in Hu. by rewrite Hu. }
  assert (E2 : py_index (split_colon (String.concat "" [AMNT (py_repr (balance acct))])) 1 =
                 Ok (py_repr (balance acct))).
  { cbn [String.concat]. by rewrite split_colon_amnt. }
  pose proof (py_repr_reads_back _ Hf) as E3.
  assert (E4 : String.prefix "AMNT:" (String.concat "" [AMNT (py_repr (balance acct))]) = true)
    by apply prefix_app.
  do 2 cstep. rewrite E4.
  do 3 cstep. eexists; split; [clast; reflexivity|]. by sys_simpl.
Qed.

(** ** Witnesses on the demo store *)

Lemma login_correct_credentials_witness :
  exists s, login "a" "alice" "secret" (fresh_sys demo_store) = CDone s tt /\
    sys_client_user s = Some "alice" /\ sys_session s = Some "alice" /\ sys_conn s = ConnOpen /\
    sys_view s = SMain /\ sys_ui s = [] /\ sys_alive s = true.
Proof.
  apply (login_correct_credentials "a" demo_store "alice" (mkAccount "secret" 100%Q));
    reflexivity.
Defined.

Lemma relogin_after_logout_fails_witness :
  exists s1, logout "a" (fresh_sys demo_store) = CDone s1 tt /\ sys_view s1 = SLogin /\
    sys_client_user s1 = None /\ sys_conn s1 = ConnClosedByServer /\
  exists s2, login "a" "alice" "secret" s1 = CDone s2 tt /\
    sys_ui s2 = (sys_ui s1 ++ [UiBadUser])%list /\
    sys_view s2 = SLogin /\ sys_store s2 = sys_store s1 /\ sys_alive s2 = true /\
  exists s3, login "a" "alice" "secret" s2 = CRaise s3 TclError /\
    sys_ui s3 = (sys_ui s2 ++ [UiConnLost])%list /\ sys_store s3 = sys_store s2 /\
    sys_alive s3 = false.
Proof. apply relogin_after_logout_fails; reflexivity. Defined.

Lemma login_name_with_space_witness :
  exists s, login "a" ("alice" ++ " " ++ "x") "secret" (fresh_sys demo_store) = CDone s tt /\
    sys_client_user s = Some ("alice" ++ " " ++ "x") /\ sys_session s = Some "alice" /\
    sys_view s = SMain.
Proof.
  apply (login_name_with_space "a" demo_store "alice" "x" (mkAccount "secret" 100%Q));
    reflexivity.
Defined.

Lemma client_withdraw_debits_witness :
  let s := mkSys demo_store (Some "alice") ConnOpen [] (Some "alice") [] [] SMain true in
  exists s1, withdraw "a" "-50" s = CDone s1 tt /\
    sys_ui s1 = (sys_ui s ++ [UiWithdrawOk "-50.00"])%list /\
    accounts (sys_store s1) =
      <["alice" := set_balance (mkAccount "secret" 100%Q)
                     (amt_sub 100%Q (Q_of_finite true 50 0))]> (accounts (sys_store s)) /\
    disk (sys_store s1) = DiskData (accounts (sys_store s1)).
Proof.
  apply (client_withdraw_debits "a" _ "alice" (mkAccount "secret" 100%Q) "-50"
           (Q_of_finite true 50 0) (-50)%float); reflexivity.
Defined.

Lemma check_balance_shows_balance_witness :
  let s := mkSys alice_store (Some "alice") ConnOpen [] (Some "alice") [] [] SMain true in
  exists s1, check_balance "a" s = CDone s1 tt /\
    sys_ui s1 = (sys_ui s ++ [UiBalance (format_2f 100%float)])%list /\
    accounts (sys_store s1) = accounts (sys_store s) /\ sys_session s1 = Some "alice" /\
    sys_view s1 = sys_view s /\ sys_alive s1 = true.
Proof.
  apply (check_balance_shows_balance "a" _ "alice" (mkAccount "secret" 100%float));
    first [reflexivity | discriminate | vm_compute; reflexivity].
Defined.

Lemma login_wrong_password_witness :
  exists s, login "a" "alice" "guess" (fresh_sys demo_store) = CDone s tt /\
    sys_ui s = [UiBadPassword] /\ sys_view s = SLogin /\ sys_client_user s = None /\
    sys_session s = Some "alice" /\ sys_conn s = ConnOpen /\ sys_alive s = true.
Proof.
  apply (login_wrong_password "a" demo_store "alice" (mkAccount "secret" 100%Q) "guess");
    first [reflexivity | discriminate].
Defined.

Lemma withdraw_invalid_amount_witness :
  let s := mkSys demo_store (Some "alice") ConnOpen [] (Some "alice") [] [] SWithdraw true in
  withdraw "a" "12,50" s = CDone (add_ui (add_status s TagError "无效的金额输入") UiBadAmount) tt.
Proof. apply withdraw_invalid_amount; reflexivity. Defined.

