(* ===== verification/ClientUI.v ===== *)
(** * ClientUI: the buttons of [ModernATMClient] and its event loop

    [src/code/client.py] shows one view in [main_container] (modelled
    by [Client.sys_view]): the login form ([show_login_ui], with the
    buttons [login] and [on_closing], lines 131-139), the main screen
    ([show_main_ui], with [logout], [check_balance] and
    [show_withdraw_panel], lines 158-177) and, placed over it, the
    withdraw panel ([show_withdraw_panel], whose button calls
    [withdraw], lines 189-192).  [root.mainloop()] (line 290) runs the
    handler of each button pressed: an exception leaving a handler is
    reported by Tk and the loop goes on; a handler waiting for a reply
    that never comes freezes the window; once [root] is destroyed the
    loop ends.  This file models the buttons each view offers
    ([enabled]), one turn of the loop ([ui_step]) and the program's run
    ([client_main]: [__init__], then the loop).  Its theorems: the view
    agrees with the user the client holds in every window reachable by
    pressing buttons (proved with the triples of [ClientMonad] and the
    frame condition [keeps_frame] of the handlers that leave the view
    alone), and a broken connection closes the window on the first
    button that talks to the server. *)

From S2P Require Import Prelude Wire Amount Ledger Handler Float64 FloatFormat ClientMonad Client.
From Stdlib Require Import String QArith Floats.

Open Scope string_scope.

(** [root]: running its [mainloop], frozen in a [recv] that never
    returns, or destroyed. *)
Inductive run_state := Running | Frozen | Destroyed.

(** A button pressed, with what the entries hold. *)
Inductive action :=
| ALogin (username password : string)   (** "登  录" *)
| AQuit                                  (** "退  出" *)
| ALogout                                (** "注销登录" *)
| ABalance                               (** "查询余额" *)
| AOpenWithdraw                          (** "取款操作" *)
| AWithdraw (amount : string)            (** "确认取款" *)
| ACloseWindow.                          (** the title bar's close button *)

(** The buttons of each view: the login form's two (lines 131-139), the
    main screen's three (lines 158-177), and with the withdraw panel
    placed over the main screen its button as well (lines 189-192); the
    window manager's close button in every view. *)
Definition enabled (sc : screen) (a : action) : bool :=
  match sc, a with
  | SLogin, (ALogin _ _ | AQuit) => true
  | (SMain | SWithdraw), (ALogout | ABalance | AOpenWithdraw) => true
  | SWithdraw, AWithdraw _ => true
  | _, ACloseWindow => true
  | _, _ => false
  end.

Section ClientUI.
Context {A : Type} `{Amount A}.

Record UI := mkUI {
  ui_sys : Sys A;
  ui_run : run_state
}.

(** The [command] of each button.  The window's close button runs Tk's
    default [WM_DELETE_WINDOW] handler, [root.destroy()]: the code does
    not bind it to [on_closing]. *)
Definition handler (addr : string) (a : action) : cm (Sys A) client_exc unit :=
  match a with
  | ALogin n p => login addr n p
  | AQuit => on_closing
  | ALogout => logout addr
  | ABalance => check_balance addr
  | AOpenWithdraw => show_withdraw_panel
  | AWithdraw amt => withdraw addr amt
  | ACloseWindow => destroy_root
  end.

(** The window after a handler: frozen while it waits in [recv];
    otherwise running, or ended once [root] is destroyed.  An exception
    is printed by Tk's [report_callback_exception] and the loop goes
    on. *)
Definition after (r : cresult (Sys A) client_exc unit) : UI :=
  match r with
  | CBlocked s => mkUI s Frozen
  | CDone s _ | CRaise s _ => mkUI s (if sys_alive s then Running else Destroyed)
  end.

(** One turn of [root.mainloop()]: the handler of a button the current
    view shows. *)
Definition ui_step (addr : string) (u : UI) (a : action) : option UI :=
  match ui_run u with
  | Running =>
      if enabled (sys_view (ui_sys u)) a then Some (after (handler addr a (ui_sys u))) else None
  | _ => None
  end.

(** The program (lines 278-290): [ModernATMClient(root)], then
    [root.mainloop()]; an exception of [__init__] ends the program. *)
Definition client_main (listening : bool) (st : Store A) : option UI :=
  match client_init listening (tk_root st) with
  | CDone s _ => Some (mkUI s Running)
  | _ => None
  end.

Definition initial_ui (st : Store A) : UI := mkUI (fresh_sys st) Running.

(** The windows a user reaches by pressing buttons. *)
Inductive ui_reach (addr : string) : UI -> UI -> Prop :=
| ui_reach_refl u : ui_reach addr u u
| ui_reach_step u u' u'' a :
    ui_reach addr u u' -> ui_step addr u' a = Some u'' -> ui_reach addr u u''.

(** Press the buttons in order, ignoring those the view does not show. *)
Fixpoint ui_run_actions (addr : string) (u : UI) (acts : list action) : UI :=
  match acts with
  | [] => u
  | a :: acts' =>
      match ui_step addr u a with
      | Some u' => ui_run_actions addr u' acts'
      | None => ui_run_actions addr u acts'
      end
  end.

(** The buttons whose handler sends a command: [withdraw] only when
    [float(amount)] accepts the text. *)
Definition talks_to_server (a : action) : bool :=
  match a with
  | ALogin _ _ | ALogout | ABalance => true
  | AWithdraw amt => match py_float (A := float) amt with Ok _ => true | Raise _ => false end
  | AQuit | AOpenWithdraw | ACloseWindow => false
  end.

(** The view agrees with [self.current_user]: the login form exactly
    when nobody is logged in, the main screen (with or without the
    panel) exactly when somebody is; a live window always shows one. *)
Definition view_agrees (v : screen) (cu : option string) : Prop :=
  match v with
  | SLogin => cu = None
  | SMain | SWithdraw => cu <> None
  | SNone => False
  end.

Definition view_ok (s : Sys A) : Prop :=
  sys_alive s = true -> view_agrees (sys_view s) (sys_client_user s).

Definition ui_wf (u : UI) : Prop :=
  (ui_run u = Running -> sys_alive (ui_sys u) = true) /\
  (ui_run u = Destroyed -> sys_alive (ui_sys u) = false) /\
  view_ok (ui_sys u).

(** [s] is [s0] after actions that leave the view and the user alone
    and at most destroy the window. *)
Definition frame (s0 s : Sys A) : Prop :=
  sys_view s = sys_view s0 /\ sys_client_user s = sys_client_user s0 /\
  (sys_alive s = true -> sys_alive s0 = true).

Definition keeps_frame {X} (m : cm (Sys A) client_exc X) : Prop :=
  forall s0, triple (frame s0) m (fun _ => frame s0) (frame s0).

End ClientUI.

Arguments UI A : clear implicits.

(** ** The frame condition *)

Section FrameLemmas.
Context {A : Type} `{Amount A}.
Implicit Types (s : Sys A).

#[export] Instance frame_preorder : PreOrder (@frame A).
Proof.
  split; [by intros s; repeat split|].
  intros s1 s2 s3 (V1 & U1 & A1) (V2 & U2 & A2). repeat split; [congruence|congruence|auto].
Qed.

Lemma keeps_frame_intro {X} (m : cm (Sys A) client_exc X) :
  (forall s, post_state (fun _ => frame s) (frame s) (m s)) -> keeps_frame m.
Proof. intros Hm s0 s Hs. specialize (Hm s). unfold post_state in Hm. destruct (m s); by etrans. Qed.

Lemma keeps_frame_bind {X Y} (m : cm (Sys A) client_exc X) (k : X -> cm (Sys A) client_exc Y) :
  keeps_frame m -> (forall x, keeps_frame (k x)) -> keeps_frame (cbind m k).
Proof. intros Hm Hk s0. eapply triple_bind; [apply Hm|intros x; apply Hk]. Qed.

Lemma keeps_frame_catch {X} c (m : cm (Sys A) client_exc X) h :
  keeps_frame m -> (forall e, keeps_frame (h e)) -> keeps_frame (ccatch c m h).
Proof. intros Hm Hh s0. apply triple_catch; [apply Hm|intros e; apply Hh]. Qed.

Lemma keeps_frame_ret {X} (x : X) : keeps_frame (A := A) (cret x).
Proof. by apply keeps_frame_intro. Qed.

Lemma keeps_frame_raise {X} e : keeps_frame (A := A) (X := X) (craise e).
Proof. by apply keeps_frame_intro. Qed.

Lemma keeps_frame_lift {X} (r : res X) : keeps_frame (A := A) (lift r).
Proof. destruct r; [apply keeps_frame_ret|apply keeps_frame_raise]. Qed.

Lemma keeps_frame_tk f : (forall s, frame s (f s)) -> keeps_frame (tk f).
Proof. intros Hf. apply keeps_frame_intro. intros s. unfold tk, post_state. by destruct (sys_alive s). Qed.

Lemma frame_set_server s st cu c i : frame s (set_server s st cu c i).
Proof. by repeat split. Qed.

Lemma keeps_frame_update_status msg tag : keeps_frame (A := A) (update_status msg tag).
Proof. apply keeps_frame_tk. by repeat split. Qed.

Lemma keeps_frame_show_info e : keeps_frame (A := A) (show_info e).
Proof. apply keeps_frame_tk. by repeat split. Qed.

Lemma keeps_frame_show_error e : keeps_frame (A := A) (show_error e).
Proof. apply keeps_frame_tk. by repeat split. Qed.

Lemma keeps_frame_destroy_root : keeps_frame (A := A) destroy_root.
Proof. apply keeps_frame_tk. intros s. repeat split. discriminate. Qed.

Lemma keeps_frame_sock_sendall addr cmd : keeps_frame (A := A) (sock_sendall addr cmd).
Proof.
  apply keeps_frame_intro. intros s. unfold sock_sendall, post_state.
  repeat case_match; simplify_eq; first [reflexivity | apply frame_set_server].
Qed.

Lemma keeps_frame_sock_recv : keeps_frame (A := A) sock_recv.
Proof.
  apply keeps_frame_intro. intros s. unfold sock_recv, post_state.
  repeat case_match; simplify_eq; first [reflexivity | apply frame_set_server].
Qed.

Lemma keeps_frame_sock_close : keeps_frame (A := A) sock_close.
Proof. apply keeps_frame_intro. intros s. apply frame_set_server. Qed.

End FrameLemmas.

#[export] Hint Resolve keeps_frame_ret keeps_frame_raise keeps_frame_lift keeps_frame_update_status
  keeps_frame_show_info keeps_frame_show_error keeps_frame_destroy_root keeps_frame_sock_sendall
  keeps_frame_sock_recv keeps_frame_sock_close : client.

(** Split a method into its actions and close the frame condition of
    each. *)
Ltac kf :=
  repeat match goal with
  | |- keeps_frame (cbind _ _) => apply keeps_frame_bind; intros
  | |- keeps_frame (ccatch _ _ _) => apply keeps_frame_catch; intros
  | |- keeps_frame (if _ then _ else _) => case_match
  | |- keeps_frame _ => solve [eauto with client]
  end.

(** ** The handlers and the view *)

Section ViewLemmas.
Context {A : Type} `{Amount A}.
Implicit Types (s : Sys A).

Lemma keeps_frame_send_command addr cmd : keeps_frame (A := A) (send_command addr cmd).
Proof. unfold send_command. kf. Qed.

End ViewLemmas.

#[export] Hint Resolve keeps_frame_send_command : client.

Section HandlerLemmas.
Context {A : Type} `{Amount A}.
Implicit Types (s : Sys A).

Lemma keeps_frame_check_balance addr : keeps_frame (A := A) (check_balance addr).
Proof. unfold check_balance. kf. Qed.

Lemma keeps_frame_withdraw addr amt : keeps_frame (A := A) (withdraw addr amt).
Proof. unfold withdraw. kf. Qed.

Lemma keeps_frame_on_closing : keeps_frame (A := A) on_closing.
Proof. unfold on_closing. kf. Qed.

Lemma frame_view_ok s0 s : frame s0 s -> view_ok s0 -> view_ok s.
Proof. intros (Hv & Hu & Ha) Hok Hs. rewrite Hv, Hu. auto. Qed.

(** An action that keeps the frame keeps the view in agreement. *)
Lemma keeps_frame_view_ok {X} (m : cm (Sys A) client_exc X) :
  keeps_frame m -> triple view_ok m (fun _ => view_ok) view_ok.
Proof.
  intros Hm s Hs. specialize (Hm s s (reflexivity _)).
  destruct (m s); eapply frame_view_ok; eauto.
Qed.

(** The three view switches, each on a live or a destroyed window. *)
Lemma show_main_ui_ok : triple (fun s => sys_client_user s <> None) show_main_ui (fun _ => view_ok) view_ok.
Proof. intros [st ss c i cu ui stt v [|]] Hu; crun; unfold view_ok; cbn; done. Qed.

Lemma show_login_ui_ok : triple (fun s => sys_client_user s = None) show_login_ui (fun _ => view_ok) view_ok.
Proof. intros [st ss c i cu ui stt v [|]] Hu; crun; unfold view_ok; cbn; done. Qed.

Lemma show_withdraw_panel_ok :
  triple (fun s => view_ok s /\ (sys_view s = SMain \/ sys_view s = SWithdraw))
    show_withdraw_panel (fun _ => view_ok) view_ok.
Proof.
  intros [st ss c i cu ui stt v [|]] [Hok Hv]; crun; unfold view_ok in *; cbn in *; [|done].
  intros _. destruct Hv as [-> | ->]; by apply Hok.
Qed.

Lemma login_view_ok addr n p : triple view_ok (login addr n p) (fun _ => view_ok) view_ok.
Proof.
  unfold login.
  eapply triple_bind; [apply keeps_frame_view_ok; kf|intros []].
  eapply triple_bind; [apply keeps_frame_view_ok; kf|intros r].
  case_match; [|apply keeps_frame_view_ok; kf].
  eapply triple_bind; [apply keeps_frame_view_ok; kf|intros r'].
  case_match; [|apply keeps_frame_view_ok; kf].
  apply (triple_bind _ _ _ (fun _ s => sys_client_user s <> None)); [|intros []; apply show_main_ui_ok].
  by apply triple_modify.
Qed.

Lemma logout_view_ok addr : triple view_ok (logout addr) (fun _ => view_ok) view_ok.
Proof.
  unfold logout.
  eapply triple_bind; [apply keeps_frame_view_ok; kf|intros []].
  eapply triple_bind; [apply keeps_frame_view_ok; kf|intros r].
  apply (triple_bind _ _ _ (fun _ s => sys_client_user s = None)); [|intros []; apply show_login_ui_ok].
  by apply triple_modify.
Qed.

(** Every button a view shows keeps the view in agreement with the
    user, however its handler ends. *)
Lemma handler_view_ok addr a :
  triple (fun s => view_ok s /\ enabled (sys_view s) a = true) (handler addr a) (fun _ => view_ok) view_ok.
Proof.
  destruct a as [n p| | | | |amt|]; cbn [handler].
  5:{ eapply triple_conseq; [apply show_withdraw_panel_ok| |done|done].
      intros s [Hs He]. split; [done|]. destruct (sys_view s); naive_solver. }
  all: apply (triple_conseq _ view_ok _ _ (fun _ => view_ok) _ view_ok); [|by intros ? []|done|done].
  - apply login_view_ok.
  - apply keeps_frame_view_ok, keeps_frame_on_closing.
  - apply logout_view_ok.
  - apply keeps_frame_view_ok, keeps_frame_check_balance.
  - apply keeps_frame_view_ok, keeps_frame_withdraw.
  - apply keeps_frame_view_ok, keeps_frame_destroy_root.
Qed.

Lemma ui_step_wf addr (u u' : UI A) a : ui_wf u -> ui_step addr u a = Some u' -> ui_wf u'.
Proof.
  unfold ui_step. intros (_ & _ & Hok) Hs. destruct (ui_run u); try discriminate.
  destruct (enabled (sys_view (ui_sys u)) a) eqn:En; [|discriminate]. injection Hs as <-.
  pose proof (triple_post _ _ _ _ (ui_sys u) (handler_view_ok addr a) (conj Hok En)) as P.
  unfold post_state in P. unfold ui_wf.
  destruct (handler addr a (ui_sys u)) as [s x|s|s e]; cbn;
    try (destruct (sys_alive s) eqn:Ha; cbn); repeat split; by try discriminate.
Qed.

Lemma ui_run_actions_reach addr (u : UI A) acts : ui_reach addr u (ui_run_actions addr u acts).
Proof.
  enough (forall v, ui_reach addr u v -> ui_reach addr u (ui_run_actions addr v acts)) as Hg
    by (apply Hg, ui_reach_refl).
  induction acts as [|a acts IH]; intros v Hv; simpl; [done|].
  destruct (ui_step addr v a) eqn:E; apply IH; [by eapply ui_reach_step|done].
Qed.

End HandlerLemmas.

(** ** The program's start *)

Section Start.
Context {A : Type} `{Amount A}.

Lemma client_main_listening (st : Store A) : client_main true st = Some (initial_ui st).
Proof.
  unfold client_main.
  assert (E : client_init true (tk_root st) = CDone (fresh_sys st) tt)
    by (unfold client_init; repeat cstep; clast; reflexivity).
  by rewrite E.
Qed.

Lemma client_main_refused (st : Store A) : client_main false st = None.
Proof.
  unfold client_main.
  assert (E : exists s, client_init false (tk_root st) = CRaise s TclError)
    by (unfold client_init; repeat cstep; by eexists).
  destruct E as [s ->]. reflexivity.
Qed.

Lemma initial_ui_wf (st : Store A) : ui_wf (initial_ui st).
Proof. by repeat split. Qed.

End Start.

(** ** Properties *)

Section ClientUIProps.
Context {A : Type} `{Amount A}.

(** C38. Well-formedness of the client's window: from the window the
    program opens ([client_main]: [__init__], then [root.mainloop()]),
    in every window a user reaches by pressing the buttons the views
    show, a running window shows the login form exactly when
    [self.current_user] is [None] and the main screen (with or without
    the withdraw panel) exactly when a user is logged in, and a window
    the loop marks destroyed is destroyed, whether the handlers
    returned, raised, froze in [recv] or closed the window. *)
Theorem ui_view_matches_user addr listening (st : Store A) u0 u :
  client_main listening st = Some u0 -> ui_reach addr u0 u -> ui_wf u.
Proof.
  intros Hm Hr. destruct listening; [|by rewrite client_main_refused in Hm].
  rewrite client_main_listening in Hm. injection Hm as E.
  induction Hr as [u|u u' u'' a _ IH Hs]; [subst; apply initial_ui_wf|].
  apply (ui_step_wf addr u' u'' a); [by apply IH | exact Hs].
Qed.

(** C15. A broken connection closes the window: on a running window
    whose socket raises in [sendall] (the server reset it), the first
    button that sends a command shows "服务器连接已中断", destroys
    [root] in [send_command]'s [except] branch, and the handler then
    raises [TclError] on the destroyed widgets; [root.mainloop()] ends,
    and the server's store is untouched. *)
Theorem broken_connection_closes_window addr (u : UI A) a :
  ui_run u = Running -> sys_alive (ui_sys u) = true -> sys_conn (ui_sys u) = ConnBroken ->
  enabled (sys_view (ui_sys u)) a = true -> talks_to_server a = true ->
  exists u', ui_step addr u a = Some u' /\ ui_run u' = Destroyed /\
    sys_ui (ui_sys u') = (sys_ui (ui_sys u) ++ [UiConnLost])%list /\
    sys_store (ui_sys u') = sys_store (ui_sys u).
Proof.
  destruct u as [[st ss c i cu ui stt v al] r]; cbn. intros -> -> -> En Ht.
  unfold ui_step. cbn. rewrite En.
  destruct a as [n p| | | | |amt|]; cbn [handler]; try discriminate.
  - unfold login. repeat cstep. by eexists.
  - unfold logout. repeat cstep. by eexists.
  - unfold check_balance. repeat cstep. by eexists.
  - cbn in Ht. destruct (py_float amt) eqn:Hf; [|discriminate].
    unfold withdraw. repeat cstep. by eexists.
Qed.

End ClientUIProps.

(** The program run on the demo store: log in as alice, open the
    withdraw panel, take 40, log out. *)
Lemma ui_view_matches_user_witness :
  let u := ui_run_actions "a" (initial_ui demo_store)
             [ALogin "alice" "secret"; AOpenWithdraw; AWithdraw "40"; ALogout] in
  sys_view (ui_sys u) = SLogin /\ ui_wf u.
Proof.
  intros u. split; [vm_compute; reflexivity|].
  apply (ui_view_matches_user "a" true demo_store (initial_ui demo_store));
    [vm_compute; reflexivity|apply ui_run_actions_reach].
Defined.

(** Log in, log out, try once more (which breaks the socket), then
    press "登  录" again. *)
Lemma broken_connection_closes_window_witness :
  let u := ui_run_actions "a" (initial_ui demo_store)
             [ALogin "alice" "secret"; ALogout; ALogin "alice" "secret"] in
  exists u', ui_step "a" u (ALogin "alice" "secret") = Some u' /\ ui_run u' = Destroyed /\
    sys_ui (ui_sys u') = (sys_ui (ui_sys u) ++ [UiConnLost])%list /\
    sys_store (ui_sys u') = sys_store (ui_sys u).
Proof.
  intros u. apply broken_connection_closes_window; vm_compute; reflexivity.
Defined.
